(** * Multi-chain event indexing core of the universal payment gateway

    Shallow embedding of
      - src/lib/indexers/push-chain-indexer.ts  (PushChainIndexer)
      - src/lib/indexers/ethereum-indexer.ts    (EthereumIndexer)
      - src/lib/indexers/indexer-manager.ts     (IndexerManager)
    over an in-memory image of the three tables of the drizzle schema the
    indexers touch (invoices, payments, transactions).

    Conventions of the embedding:
      - an awaited chain-client promise is a value of [Rpc]: resolved or
        rejected; the responses of the provider during one call are a
        [Provider] record;
      - the store is total: [db.insert] appends the row it is given and
        [db.update] rewrites the matching rows (the column checks of the
        external Postgres store are not part of the indexers);
      - [new Date()] is the parameter [now] of the call;
      - JavaScript numbers are IEEE-754 binary64 values, modelled exactly
        as rationals ([JsNumber]). *)

From Stdlib Require Import ZArith QArith Qround Bool List String Ascii Lia.
From Stdlib Require Import DecimalString DecimalPos DecimalZ.
From Stdlib Require Import Sorting Permutation.
Import ListNotations.

Local Open Scope string_scope.
Local Open Scope Z_scope.

(* ================================================================== *)
(** ** JavaScript numbers: parseFloat, >=, + and Number.prototype.toString *)
(* ================================================================== *)

Module JsNumber.

(** The built-ins the indexers call on amounts, after ECMA-262:
    parseFloat (StrDecimalLiteral, then the Number value of its
    mathematical value), the comparison and the sum of Numbers, and
    Number::toString (the shortest digits that convert back).  Numbers
    are IEEE 754 binary64, rounding is to nearest, ties to even.  Only
    ASCII white space is skipped by [parseFloat].

    A Number value: [Finite q] carries the exact rational value of a
    finite binary64 (in lowest terms); the sign of zero is dropped, none
    of the modelled operations observes it. *)
Inductive Number : Type :=
| NaN
| PosInf
| NegInf
| Finite (q : Q).

(** Quotient n/d rounded to the nearest integer, ties to even
    (0 <= n, 0 < d). *)
Definition round_half_even (n d : Z) : Z :=
  let q := n / d in
  let r := n mod d in
  if 2 * r <? d then q
  else if d <? 2 * r then q + 1
  else if Z.even q then q else q + 1.

(** 2^e for 0 <= e and 1 otherwise, so that for every integer e
    (n/d) / 2^e = (n * shift (- e)) / (d * shift e). *)
Definition shift (e : Z) : Z := 2 ^ Z.max 0 e.

(** Exponent e of the binary64 nearest to n/d: the significand has 53
    bits, 2^52 <= (n/d)/2^e < 2^53, and e is not below that of the
    subnormals. *)
Definition binary64_exponent (n d : Z) : Z :=
  let e0 := Z.log2 n - Z.log2 d - 52 in
  let below := (n * shift (- e0)) / (d * shift e0) <? 2 ^ 52 in
  Z.max (if below then e0 - 1 else e0) (-1074).

Definition significand (n d e : Z) : Z :=
  round_half_even (n * shift (- e)) (d * shift e).

(** The rational m * 2^e, in lowest terms. *)
Definition dyadic (m e : Z) : Q :=
  Qred (Qmake (m * shift e) (Z.to_pos (shift (- e)))).

(** Round-to-nearest, ties-to-even, of the positive rational n/d; what
    reaches 2^1024 is an infinity. *)
Definition round_pos (n d : Z) : Number :=
  let e := binary64_exponent n d in
  let m := significand n d e in
  if 2 ^ 1024 * shift (- e) <=? m * shift e then PosInf
  else Finite (dyadic m e).

Definition negate (x : Number) : Number :=
  match x with
  | NaN => NaN
  | PosInf => NegInf
  | NegInf => PosInf
  | Finite q => Finite (Qred (Qopp q))
  end.

(** The Number value for a mathematical value. *)
Definition of_Q (q : Q) : Number :=
  let r := Qred q in
  match Qnum r with
  | Z0 => Finite (Qred 0)
  | Zpos p => round_pos (Zpos p) (Zpos (Qden r))
  | Zneg p => negate (round_pos (Zpos p) (Zpos (Qden r)))
  end.

(** *** Lexing of StrDecimalLiteral *)

Definition is_digit (c : ascii) : bool :=
  let n := N_of_ascii c in ((48 <=? n) && (n <=? 57))%N.

Definition digit_val (c : ascii) : Z := Z.of_N (N_of_ascii c) - 48.

Definition is_white (c : ascii) : bool :=
  let n := N_of_ascii c in
  ((n =? 9) || (n =? 10) || (n =? 11) || (n =? 12) || (n =? 13)
   || (n =? 32))%N.

Fixpoint skip_white (s : string) : string :=
  match s with
  | String c r => if is_white c then skip_white r else s
  | EmptyString => s
  end.

(** Reads the longest run of decimal digits: the value accumulated on
    [acc], the number of digits read, and the rest of the string. *)
Fixpoint take_digits (s : string) (acc cnt : Z) : Z * Z * string :=
  match s with
  | String c r =>
      if is_digit c then take_digits r (10 * acc + digit_val c) (cnt + 1)
      else (acc, cnt, s)
  | EmptyString => (acc, cnt, s)
  end.

(** ExponentPart, if one is there: [eE] [+-]? DecimalDigits; 0 otherwise. *)
Definition exponent_part (s : string) : Z :=
  match s with
  | String c r =>
      if (Ascii.eqb c "e" || Ascii.eqb c "E")%char then
        let '(sg, r') :=
          match r with
          | String "+"%char r' => (1, r')
          | String "-"%char r' => (-1, r')
          | _ => (1, r)
          end in
        let '(v, cnt, _) := take_digits r' 0 0 in
        if cnt =? 0 then 0 else sg * v
      else 0
  | EmptyString => 0
  end.

(** Mathematical value mant * 10^ex. *)
Definition scale10 (mant ex : Z) : Q :=
  if 0 <=? ex then inject_Z (mant * 10 ^ ex)
  else Qmake mant (Z.to_pos (10 ^ (- ex))).

(** The longest prefix that is a StrUnsignedDecimalLiteral other than
    Infinity, and its mathematical value. *)
Definition unsigned_literal (s : string) : option Q :=
  let '(ip, ic, r1) := take_digits s 0 0 in
  match r1 with
  | String "."%char r2 =>
      let '(m, fc, r3) := take_digits r2 ip 0 in
      if (ic =? 0) && (fc =? 0) then None
      else Some (scale10 m (exponent_part r3 - fc))
  | _ => if ic =? 0 then None else Some (scale10 ip (exponent_part r1))
  end.

Definition unsigned_number (s : string) : Number :=
  if String.prefix "Infinity" s then PosInf
  else match unsigned_literal s with
       | Some q => of_Q q
       | None => NaN
       end.

(** The optional sign in front of a StrUnsignedDecimalLiteral: whether it
    is a minus, and the rest of the string. *)
Definition signed (s : string) : bool * string :=
  match s with
  | String c r =>
      if Ascii.eqb c "-" then (true, r)
      else if Ascii.eqb c "+" then (false, r)
      else (false, s)
  | EmptyString => (false, s)
  end.

(** parseFloat(string): leading white space is dropped, the longest
    prefix that is a StrDecimalLiteral is converted, NaN when there is
    none. *)
Definition parseFloat (s : string) : Number :=
  let (minus, r) := signed (skip_white s) in
  if minus then negate (unsigned_number r) else unsigned_number r.

(** The exact decimal value denoted by the numeric prefix of a string
    (no rounding); [None] when parseFloat yields NaN or an infinity. *)
Definition decimal_value (s : string) : option Q :=
  let (minus, r) := signed (skip_white s) in
  if String.prefix "Infinity" r then None
  else option_map (fun q => if minus then Qopp q else q) (unsigned_literal r).

(** *** x >= y *)
Definition ge (x y : Number) : bool :=
  match x, y with
  | NaN, _ | _, NaN => false
  | PosInf, _ => true
  | _, NegInf => true
  | NegInf, _ => false
  | _, PosInf => false
  | Finite a, Finite b => Qle_bool b a
  end.

(** *** x + y *)
Definition add (x y : Number) : Number :=
  match x, y with
  | NaN, _ | _, NaN => NaN
  | PosInf, NegInf | NegInf, PosInf => NaN
  | PosInf, _ | _, PosInf => PosInf
  | NegInf, _ | _, NegInf => NegInf
  | Finite a, Finite b => of_Q (a + b)
  end.

(** *** Number.prototype.toString, radix 10 *)

Definition show_Z (z : Z) : string := NilZero.string_of_int (Z.to_int z).

Definition pow10 (n : Z) : Q := scale10 1 n.

(** The n with 10^(n-1) <= x < 10^n, searched downwards from [n]. *)
Fixpoint decimal_order (fuel : nat) (n : Z) (x : Q) : Z :=
  match fuel with
  | O => n
  | S f =>
      if Qle_bool (pow10 (n - 1)) x then n else decimal_order f (n - 1) x
  end.

Definition rounds_to (x : Q) (y : Q) : bool :=
  match of_Q y with
  | Finite q => Qeq_bool q x
  | _ => false
  end.

(** The k-digit candidates s (with s * 10^(n-k) next to x) that convert
    back to x; of two, the one nearer to x, the even one on a tie. *)
Definition candidate (x : Q) (n k : Z) : option Z :=
  let step := pow10 (n - k) in
  let lo := Qfloor (x / step) in
  let hi := lo + 1 in
  let lo_ok := rounds_to x (inject_Z lo * step) in
  let hi_ok := rounds_to x (inject_Z hi * step) in
  match lo_ok, hi_ok with
  | true, true =>
      let dlo := (x - inject_Z lo * step)%Q in
      let dhi := (inject_Z hi * step - x)%Q in
      if Qle_bool dlo dhi && negb (Qeq_bool dlo dhi) then Some lo
      else if Qeq_bool dlo dhi then Some (if Z.even lo then lo else hi)
      else Some hi
  | true, false => Some lo
  | false, true => Some hi
  | false, false => None
  end.

(** Shortest digit string: the least k in [k, k + fuel) with a candidate. *)
Fixpoint shortest (fuel : nat) (x : Q) (n k : Z) : Z * Z :=
  match fuel with
  | O => (Qfloor (x / pow10 (n - k)), k)
  | S f =>
      match candidate x n k with
      | Some s => (s, k)
      | None => shortest f x n (k + 1)
      end
  end.

Fixpoint zeros (n : nat) : string :=
  match n with
  | O => EmptyString
  | S m => String "0"%char (zeros m)
  end.

Fixpoint strip_zeros (fuel : nat) (s : Z) : Z :=
  match fuel with
  | O => s
  | S f =>
      if (s mod 10 =? 0) && negb (s =? 0) then strip_zeros f (s / 10) else s
  end.

Definition format_digits (ds : string) (n : Z) : string :=
  let k := Z.of_nat (String.length ds) in
  if (k <=? n) && (n <=? 21) then ds ++ zeros (Z.to_nat (n - k))
  else if (0 <? n) && (n <=? 21) then
    substring 0 (Z.to_nat n) ds ++ "." ++
    substring (Z.to_nat n) (Z.to_nat (k - n)) ds
  else if (-6 <? n) && (n <=? 0) then "0." ++ zeros (Z.to_nat (- n)) ++ ds
  else
    let e := n - 1 in
    let sg := if 0 <=? e then "+" else "-" in
    if k =? 1 then ds ++ "e" ++ sg ++ show_Z (Z.abs e)
    else substring 0 1 ds ++ "." ++ substring 1 (Z.to_nat (k - 1)) ds
         ++ "e" ++ sg ++ show_Z (Z.abs e).

Definition toString_pos (x : Q) : string :=
  let n0 := decimal_order 640 310 x in
  let '(s, k) := shortest 17 x n0 1 in
  let n := if s =? 10 ^ k then n0 + 1 else n0 in
  format_digits (show_Z (strip_zeros 400 s)) n.

Definition toString (x : Number) : string :=
  match x with
  | NaN => "NaN"
  | PosInf => "Infinity"
  | NegInf => "-Infinity"
  | Finite q =>
      match Qnum q with
      | Z0 => "0"
      | Zpos _ => toString_pos q
      | Zneg _ => "-" ++ toString_pos (Qopp q)
      end
  end.

End JsNumber.

(* ================================================================== *)
(** ** The chain client *)
(* ================================================================== *)

(** An awaited promise of the provider: resolved with a value, or
    rejected (the [await] throws). *)
Inductive Rpc (A : Type) : Type :=
| Resolved (a : A)
| Rejected.
Arguments Resolved {A} a.
Arguments Rejected {A}.

(** The fields of a transaction receipt and of a transaction response the
    indexers read (bigint values; [gasPrice] may be null). *)
Record Receipt := { receipt_gasUsed : Z }.
Record TransactionResponse := { response_gasPrice : option Z }.

(** Decoded arguments of the contract events (uint256 values as Z). *)
Record PaymentReceivedArgs := {
  pr_invoiceId : string; pr_payer : string; pr_amount : Z;
  pr_currency : string }.
Record WithdrawalExecutedArgs := {
  we_appId : string; we_recipient : string; we_amount : Z;
  we_currency : string }.
Record FeeCollectedArgs := {
  fc_appId : string; fc_platformFee : Z; fc_networkFee : Z;
  fc_currency : string }.
Record CrossChainPaymentInitiatedArgs := {
  cc_invoiceId : string; cc_payer : string; cc_amount : Z; cc_currency : string;
  cc_targetChainId : Z }.

(** An entry returned by queryFilter: an ethers EventLog carries decoded
    [args]; a plain Log (not decodable by the ABI) has none. *)
Record Log (A : Type) := {
  log_args : option A;
  log_transactionHash : string;
  log_blockNumber : Z;
  log_blockHash : string }.
Arguments log_args {A} l.
Arguments log_transactionHash {A} l.
Arguments log_blockNumber {A} l.
Arguments log_blockHash {A} l.

(** The responses of a JsonRpcProvider / Contract during one call of the
    indexer. *)
Record Provider := {
  getBlockNumber : Rpc Z;
  getTransactionReceipt : string -> Rpc (option Receipt);
  getTransaction : string -> Rpc (option TransactionResponse);
  queryPaymentReceived : Z -> Z -> Rpc (list (Log PaymentReceivedArgs));
  queryWithdrawalExecuted : Z -> Z -> Rpc (list (Log WithdrawalExecutedArgs));
  queryFeeCollected : Z -> Z -> Rpc (list (Log FeeCollectedArgs));
  queryCrossChainPaymentInitiated :
    Z -> Z -> Rpc (list (Log CrossChainPaymentInitiatedArgs)) }.

(** PUSH_CHAIN_CONFIG of "@/lib/pushchain/client" (the module is not part
    of the sources at hand): the only field the indexer writes to rows. *)
Record PushChainConfig := { contracts_payment : string }.

(* ================================================================== *)
(** ** The store: invoices, payments, transactions *)
(* ================================================================== *)

Inductive InvoiceStatus := inv_pending | inv_paid | inv_expired | inv_cancelled.
Inductive PaymentStatus := pay_pending | pay_confirmed | pay_failed.
Inductive TransactionType := ty_payment | ty_withdrawal | ty_fee.

Definition TransactionType_eqb (a b : TransactionType) : bool :=
  match a, b with
  | ty_payment, ty_payment
  | ty_withdrawal, ty_withdrawal
  | ty_fee, ty_fee => true
  | _, _ => false
  end.

(** Values of the jsonb metadata objects the indexers build. *)
Inductive Json :=
| JString (s : string)
| JNumber (n : Z)
| JIsoDate (t : Z).   (* new Date().toISOString() at time t *)

Definition Metadata := list (string * Json).

Record Invoice := {
  inv_id : string;
  inv_appId : string;
  inv_amount : string;
  inv_currency : string;
  inv_status : InvoiceStatus;
  inv_paidAt : option Z;
  inv_updatedAt : Z }.

Record Payment := {
  pay_invoiceId : string;
  pay_externalChain : string;
  pay_txHash : string;
  pay_payer : string;
  pay_amount : string;
  pay_currency : string;
  pay_status : PaymentStatus;
  pay_blockNumber : Z;
  pay_blockHash : string;
  pay_gasUsed : string;
  pay_gasFee : string;
  pay_recordedAt : option Z;      (* None: left to the column default *)
  pay_confirmedAt : option Z;
  pay_metadata : Metadata }.

Record Transaction := {
  tx_appId : string;
  tx_type : TransactionType;
  tx_chain : string;
  tx_txHash : string;
  tx_amount : string;
  tx_currency : string;
  tx_fee : option string;
  tx_status : PaymentStatus;
  tx_blockNumber : Z;
  tx_fromAddress : option string;
  tx_toAddress : option string;
  tx_metadata : Metadata;
  tx_createdAt : Z }.

Record Db := {
  invoices : list Invoice;
  payments : list Payment;
  transactions : list Transaction }.

(** db.insert(payments).values(p) *)
Definition insert_payment (p : Payment) (db : Db) : Db :=
  {| invoices := invoices db;
     payments := payments db ++ [p];
     transactions := transactions db |}.

(** db.insert(transactions).values(t) *)
Definition insert_transaction (t : Transaction) (db : Db) : Db :=
  {| invoices := invoices db;
     payments := payments db;
     transactions := transactions db ++ [t] |}.

(** db.update(invoices).set({status: "paid", paidAt: now, updatedAt: now})
      .where(eq(invoices.id, id)) *)
Definition set_paid (now : Z) (i : Invoice) : Invoice :=
  {| inv_id := inv_id i;
     inv_appId := inv_appId i;
     inv_amount := inv_amount i;
     inv_currency := inv_currency i;
     inv_status := inv_paid;
     inv_paidAt := Some now;
     inv_updatedAt := now |}.

Definition update_invoice_paid (id : string) (now : Z) (db : Db) : Db :=
  {| invoices :=
       map (fun i => if String.eqb (inv_id i) id then set_paid now i else i)
           (invoices db);
     payments := payments db;
     transactions := transactions db |}.

(** findFirst / select ... limit 1 on invoices by id. *)
Definition find_invoice (id : string) (db : Db) : option Invoice :=
  find (fun i => String.eqb (inv_id i) id) (invoices db).

(** Rows keyed to a (chain, transaction hash) pair. *)
Definition payment_keyed (chain txHash : string) (p : Payment) : bool :=
  String.eqb (pay_externalChain p) chain && String.eqb (pay_txHash p) txHash.

Definition transaction_keyed (chain txHash : string) (ty : TransactionType)
  (t : Transaction) : bool :=
  String.eqb (tx_chain t) chain && String.eqb (tx_txHash t) txHash
  && TransactionType_eqb (tx_type t) ty.

Definition payment_rows (chain txHash : string) (db : Db) : list Payment :=
  filter (payment_keyed chain txHash) (payments db).

Definition transaction_rows (chain txHash : string) (ty : TransactionType)
  (db : Db) : list Transaction :=
  filter (transaction_keyed chain txHash ty) (transactions db).

(** Rows carrying a transaction hash, on whatever chain. *)
Definition payments_with_hash (txHash : string) (db : Db) : list Payment :=
  filter (fun p => String.eqb (pay_txHash p) txHash) (payments db).


(** bigint.toString() *)
Definition bigint_toString (z : Z) : string := JsNumber.show_Z z.

(* ================================================================== *)
(** ** PushChainIndexer (push-chain-indexer.ts) *)
(* ================================================================== *)

Module PushChainIndexer.

Record PaymentEvent := {
  invoiceId : string;
  payer : string;
  amount : string;
  currency : string;
  txHash : string;
  blockNumber : Z;
  blockHash : string;
  gasUsed : string;
  gasFee : string }.

Record WithdrawalEvent := {
  w_appId : string;
  w_recipient : string;
  w_amount : string;
  w_currency : string;
  w_txHash : string;
  w_blockNumber : Z;
  w_blockHash : string }.

(** The object handed to processFeeEvent (typed [any] in the source). *)
Record FeeEvent := {
  f_appId : string;
  f_platformFee : string;
  f_networkFee : string;
  f_currency : string;
  f_txHash : string;
  f_blockNumber : Z;
  f_blockHash : string }.

Definition set_gas (event : PaymentEvent) (used fee : string) : PaymentEvent :=
  {| invoiceId := invoiceId event; payer := payer event;
     amount := amount event; currency := currency event;
     txHash := txHash event; blockNumber := blockNumber event;
     blockHash := blockHash event; gasUsed := used; gasFee := fee |}.

(** Lines 211-219: the receipt lookup that fills the gas fields.  [None]
    is an exception reaching the catch of processPaymentEvent: a rejected
    lookup, or the bigint product with a null [gasPrice]. *)
Definition fill_gas (prov : Provider) (event : PaymentEvent)
  : option PaymentEvent :=
  match getTransactionReceipt prov (txHash event) with
  | Rejected => None
  | Resolved None => Some event
  | Resolved (Some receipt) =>
      let event1 :=
        set_gas event (bigint_toString (receipt_gasUsed receipt))
                (gasFee event) in
      match getTransaction prov (txHash event) with
      | Rejected => None
      | Resolved None => Some event1
      | Resolved (Some tx) =>
          match response_gasPrice tx with
          | None => None
          | Some price =>
              Some (set_gas event1 (gasUsed event1)
                      (bigint_toString (receipt_gasUsed receipt * price)))
          end
      end
  end.

Definition payment_row (now : Z) (event : PaymentEvent) : Payment :=
  {| pay_invoiceId := invoiceId event;
     pay_externalChain := "push-chain";
     pay_txHash := txHash event;
     pay_payer := payer event;
     pay_amount := amount event;
     pay_currency := currency event;
     pay_status := pay_confirmed;
     pay_blockNumber := blockNumber event;
     pay_blockHash := blockHash event;
     pay_gasUsed := gasUsed event;
     pay_gasFee := gasFee event;
     pay_recordedAt := Some now;
     pay_confirmedAt := Some now;
     pay_metadata := [("indexedAt", JIsoDate now);
                      ("source", JString "push-chain-indexer")] |}.

Definition payment_transaction_row (cfg : PushChainConfig) (now : Z)
  (invoice : Invoice) (event : PaymentEvent) : Transaction :=
  {| tx_appId := inv_appId invoice;
     tx_type := ty_payment;
     tx_chain := "push-chain";
     tx_txHash := txHash event;
     tx_amount := amount event;
     tx_currency := currency event;
     tx_fee := Some (gasFee event);
     tx_status := pay_confirmed;
     tx_blockNumber := blockNumber event;
     tx_fromAddress := Some (payer event);
     tx_toAddress := Some (contracts_payment cfg);
     tx_metadata := [("invoiceId", JString (invoiceId event));
                     ("indexedAt", JIsoDate now)];
     tx_createdAt := now |}.

(** Line 266: parseFloat(event.amount) >= parseFloat(invoice.amount) *)
Definition amount_covers (event_amount invoice_amount : string) : bool :=
  JsNumber.ge (JsNumber.parseFloat event_amount)
              (JsNumber.parseFloat invoice_amount).

(** processPaymentEvent, lines 207-301. *)
Definition processPaymentEvent (cfg : PushChainConfig) (prov : Provider)
  (now : Z) (event : PaymentEvent) (db : Db) : Db :=
  match fill_gas prov event with
  | None => db
  | Some event =>
      match find (fun p => String.eqb (pay_txHash p) (txHash event)
                           && String.eqb (pay_externalChain p) "push-chain")
                 (payments db) with
      | Some _ => db
      | None =>
          match find_invoice (invoiceId event) db with
          | None => db
          | Some invoice =>
              let db1 := insert_payment (payment_row now event) db in
              let db2 :=
                if amount_covers (amount event) (inv_amount invoice)
                then update_invoice_paid (invoiceId event) now db1
                else db1 in
              insert_transaction
                (payment_transaction_row cfg now invoice event) db2
          end
      end
  end.

Definition withdrawal_row (cfg : PushChainConfig) (now : Z)
  (event : WithdrawalEvent) : Transaction :=
  {| tx_appId := w_appId event;
     tx_type := ty_withdrawal;
     tx_chain := "push-chain";
     tx_txHash := w_txHash event;
     tx_amount := w_amount event;
     tx_currency := w_currency event;
     tx_fee := None;
     tx_status := pay_confirmed;
     tx_blockNumber := w_blockNumber event;
     tx_fromAddress := Some (contracts_payment cfg);
     tx_toAddress := Some (w_recipient event);
     tx_metadata := [("indexedAt", JIsoDate now);
                     ("source", JString "push-chain-indexer")];
     tx_createdAt := now |}.

(** processWithdrawalEvent, lines 303-330. *)
Definition processWithdrawalEvent (cfg : PushChainConfig) (now : Z)
  (event : WithdrawalEvent) (db : Db) : Db :=
  insert_transaction (withdrawal_row cfg now event) db.

(** Line 337: (parseFloat(platformFee) + parseFloat(networkFee)).toString() *)
Definition totalFee (platformFee networkFee : string) : string :=
  JsNumber.toString
    (JsNumber.add (JsNumber.parseFloat platformFee)
                  (JsNumber.parseFloat networkFee)).

Definition fee_row (now : Z) (event : FeeEvent) : Transaction :=
  {| tx_appId := f_appId event;
     tx_type := ty_fee;
     tx_chain := "push-chain";
     tx_txHash := f_txHash event;
     tx_amount := totalFee (f_platformFee event) (f_networkFee event);
     tx_currency := f_currency event;
     tx_fee := None;
     tx_status := pay_confirmed;
     tx_blockNumber := f_blockNumber event;
     tx_fromAddress := None;
     tx_toAddress := None;
     tx_metadata := [("platformFee", JString (f_platformFee event));
                     ("networkFee", JString (f_networkFee event));
                     ("indexedAt", JIsoDate now);
                     ("source", JString "push-chain-indexer")];
     tx_createdAt := now |}.

(** processFeeEvent, lines 332-361. *)
Definition processFeeEvent (now : Z) (event : FeeEvent) (db : Db) : Db :=
  insert_transaction (fee_row now event) db.

(** Outcome of a piece of processing that may throw part-way: the store
    as left behind, and whether it ran to completion. *)
Inductive Outcome : Type :=
| Completed (db : Db)
| Threw (db : Db).

Definition outcome_db (o : Outcome) : Db :=
  match o with Completed db | Threw db => db end.

(** for (const event of events) { await step(event) } where [step] may
    throw: the loop stops at the first throw. *)
Fixpoint for_each {A : Type} (step : A -> Db -> Outcome) (events : list A)
  (db : Db) : Outcome :=
  match events with
  | [] => Completed db
  | event :: rest =>
      match step event db with
      | Completed db' => for_each step rest db'
      | Threw db' => Threw db'
      end
  end.

(** processPaymentEventFromLog, lines 363-376: reading a field of an
    undefined [args] throws, outside any try. *)
Definition processPaymentEventFromLog (cfg : PushChainConfig)
  (prov : Provider) (now : Z) (event : Log PaymentReceivedArgs) (db : Db)
  : Outcome :=
  match log_args event with
  | None => Threw db
  | Some a =>
      Completed
        (processPaymentEvent cfg prov now
           {| invoiceId := pr_invoiceId a;
              payer := pr_payer a;
              amount := bigint_toString (pr_amount a);
              currency := pr_currency a;
              txHash := log_transactionHash event;
              blockNumber := log_blockNumber event;
              blockHash := log_blockHash event;
              gasUsed := "0";
              gasFee := "0" |} db)
  end.

(** processWithdrawalEventFromLog, lines 378-389. *)
Definition processWithdrawalEventFromLog (cfg : PushChainConfig) (now : Z)
  (event : Log WithdrawalExecutedArgs) (db : Db) : Outcome :=
  match log_args event with
  | None => Threw db
  | Some a =>
      Completed
        (processWithdrawalEvent cfg now
           {| w_appId := we_appId a;
              w_recipient := we_recipient a;
              w_amount := bigint_toString (we_amount a);
              w_currency := we_currency a;
              w_txHash := log_transactionHash event;
              w_blockNumber := log_blockNumber event;
              w_blockHash := log_blockHash event |} db)
  end.

(** processFeeEventFromLog, lines 391-402. *)
Definition processFeeEventFromLog (now : Z) (event : Log FeeCollectedArgs)
  (db : Db) : Outcome :=
  match log_args event with
  | None => Threw db
  | Some a =>
      Completed
        (processFeeEvent now
           {| f_appId := fc_appId a;
              f_platformFee := bigint_toString (fc_platformFee a);
              f_networkFee := bigint_toString (fc_networkFee a);
              f_currency := fc_currency a;
              f_txHash := log_transactionHash event;
              f_blockNumber := log_blockNumber event;
              f_blockHash := log_blockHash event |} db)
  end.

(** processBlockRange, lines 169-205: three range queries, then the
    three loops.  A rejected query throws before any event is applied. *)
Definition processBlockRange (cfg : PushChainConfig) (prov : Provider)
  (now : Z) (fromBlock toBlock : Z) (db : Db) : Outcome :=
  match queryPaymentReceived prov fromBlock toBlock with
  | Rejected => Threw db
  | Resolved paymentEvents =>
  match queryWithdrawalExecuted prov fromBlock toBlock with
  | Rejected => Threw db
  | Resolved withdrawalEvents =>
  match queryFeeCollected prov fromBlock toBlock with
  | Rejected => Threw db
  | Resolved feeEvents =>
      match for_each (processPaymentEventFromLog cfg prov now)
                     paymentEvents db with
      | Threw db1 => Threw db1
      | Completed db1 =>
      match for_each (processWithdrawalEventFromLog cfg now)
                     withdrawalEvents db1 with
      | Threw db2 => Threw db2
      | Completed db2 =>
          for_each (processFeeEventFromLog now) feeEvents db2
      end end
  end end end.

(** The mutable fields of the indexer object. *)
Record Watcher := {
  isRunning : bool;
  lastProcessedBlock : Z }.

Definition initial : Watcher :=
  {| isRunning := false; lastProcessedBlock := 0 |}.

(** What a call reports to its caller: it returns, or it throws. *)
Inductive Reply := Returned | Thrown.

(** start(), lines 52-78. *)
Definition start (prov : Provider) (w : Watcher) : Watcher * Reply :=
  if isRunning w then (w, Returned)
  else
    match getBlockNumber prov with
    | Resolved latestBlock =>
        ({| isRunning := true;
            lastProcessedBlock := Z.max 0 (latestBlock - 100) |}, Returned)
    | Rejected =>
        ({| isRunning := false;
            lastProcessedBlock := lastProcessedBlock w |}, Thrown)
    end.

(** stop(), lines 80-88. *)
Definition stop (w : Watcher) : Watcher :=
  if negb (isRunning w) then w
  else {| isRunning := false; lastProcessedBlock := lastProcessedBlock w |}.

(** One run of the closure [processBlocks] of startBlockProcessing,
    lines 146-164 (one backfill tick). *)
Definition processBlocks (cfg : PushChainConfig) (prov : Provider) (now : Z)
  (w : Watcher) (db : Db) : Watcher * Db :=
  if negb (isRunning w) then (w, db)
  else
    match getBlockNumber prov with
    | Rejected => (w, db)
    | Resolved latestBlock =>
        if latestBlock >? lastProcessedBlock w then
          match processBlockRange cfg prov now
                  (lastProcessedBlock w + 1) latestBlock db with
          | Completed db' =>
              ({| isRunning := isRunning w;
                  lastProcessedBlock := latestBlock |}, db')
          | Threw db' => (w, db')
          end
        else (w, db)
    end.

(** The event objects built from a log (lines 94-104 and 365-375,
    113-121 and 380-388, 130-138 and 393-401). *)
Definition paymentEvent_of_log (event : Log PaymentReceivedArgs)
  (a : PaymentReceivedArgs) : PaymentEvent :=
  {| invoiceId := pr_invoiceId a;
     payer := pr_payer a;
     amount := bigint_toString (pr_amount a);
     currency := pr_currency a;
     txHash := log_transactionHash event;
     blockNumber := log_blockNumber event;
     blockHash := log_blockHash event;
     gasUsed := "0";
     gasFee := "0" |}.

Definition withdrawalEvent_of_log (event : Log WithdrawalExecutedArgs)
  (a : WithdrawalExecutedArgs) : WithdrawalEvent :=
  {| w_appId := we_appId a;
     w_recipient := we_recipient a;
     w_amount := bigint_toString (we_amount a);
     w_currency := we_currency a;
     w_txHash := log_transactionHash event;
     w_blockNumber := log_blockNumber event;
     w_blockHash := log_blockHash event |}.

Definition feeEvent_of_log (event : Log FeeCollectedArgs)
  (a : FeeCollectedArgs) : FeeEvent :=
  {| f_appId := fc_appId a;
     f_platformFee := bigint_toString (fc_platformFee a);
     f_networkFee := bigint_toString (fc_networkFee a);
     f_currency := fc_currency a;
     f_txHash := log_transactionHash event;
     f_blockNumber := log_blockNumber event;
     f_blockHash := log_blockHash event |}.

(** The listeners registered by setupEventListeners, lines 90-143: the
    decoded arguments come first, the log last; each body is a try whose
    catch only logs. *)
Definition onPaymentReceived (cfg : PushChainConfig) (prov : Provider)
  (now : Z) (a : PaymentReceivedArgs) (event : Log PaymentReceivedArgs)
  (db : Db) : Db :=
  processPaymentEvent cfg prov now (paymentEvent_of_log event a) db.

Definition onWithdrawalExecuted (cfg : PushChainConfig) (now : Z)
  (a : WithdrawalExecutedArgs) (event : Log WithdrawalExecutedArgs)
  (db : Db) : Db :=
  processWithdrawalEvent cfg now (withdrawalEvent_of_log event a) db.

Definition onFeeCollected (now : Z) (a : FeeCollectedArgs)
  (event : Log FeeCollectedArgs) (db : Db) : Db :=
  processFeeEvent now (feeEvent_of_log event a) db.

(** getStatus, lines 404-415: the height is asked of the provider, so the
    call throws ([None]) when that is rejected. *)
Record Status := {
  status_isRunning : bool;
  status_lastProcessedBlock : Z;
  status_currentBlock : Z }.

Definition getStatus (prov : Provider) (w : Watcher) : option Status :=
  match getBlockNumber prov with
  | Resolved currentBlock =>
      Some {| status_isRunning := isRunning w;
              status_lastProcessedBlock := lastProcessedBlock w;
              status_currentBlock := currentBlock |}
  | Rejected => None
  end.

End PushChainIndexer.

(* ================================================================== *)
(** ** EthereumIndexer (ethereum-indexer.ts) *)
(* ================================================================== *)

Module EthereumIndexer.

Record CrossChainPaymentEvent := {
  invoiceId : string;
  payer : string;
  amount : string;
  currency : string;
  txHash : string;
  blockNumber : Z;
  blockHash : string;
  chainId : Z;
  gasUsed : string;
  gasFee : string }.

(** The fields of the indexer object: [this.chainId] is fixed by the
    constructor, the other two change. *)
Record Watcher := {
  isRunning : bool;
  lastProcessedBlock : Z;
  this_chainId : Z }.

Definition create (chain : Z) : Watcher :=
  {| isRunning := false; lastProcessedBlock := 0; this_chainId := chain |}.

(** getChainName, lines 418-428 (the same table is in indexer-manager.ts,
    lines 232-242). *)
Definition getChainName (chain : Z) : string :=
  if chain =? 1 then "ethereum"
  else if chain =? 11155111 then "sepolia"
  else if chain =? 137 then "polygon"
  else if chain =? 80001 then "mumbai"
  else if chain =? 42101 then "push-chain"
  else "chain-" ++ JsNumber.show_Z chain.

Definition set_gas (event : CrossChainPaymentEvent) (used fee : string)
  : CrossChainPaymentEvent :=
  {| invoiceId := invoiceId event; payer := payer event;
     amount := amount event; currency := currency event;
     txHash := txHash event; blockNumber := blockNumber event;
     blockHash := blockHash event; chainId := chainId event;
     gasUsed := used; gasFee := fee |}.

(** Lines 240-248 and 331-339: the receipt lookup.  [None] is a rejected
    lookup, caught by the try of the caller.  The product is taken only
    when [tx.gasPrice] is truthy (neither null nor 0n). *)
Definition fill_gas (prov : Provider) (event : CrossChainPaymentEvent)
  : option CrossChainPaymentEvent :=
  match getTransactionReceipt prov (txHash event) with
  | Rejected => None
  | Resolved None => Some event
  | Resolved (Some receipt) =>
      let event1 :=
        set_gas event (bigint_toString (receipt_gasUsed receipt))
                (gasFee event) in
      match getTransaction prov (txHash event) with
      | Rejected => None
      | Resolved None => Some event1
      | Resolved (Some tx) =>
          match response_gasPrice tx with
          | None => Some event1
          | Some price =>
              if price =? 0 then Some event1
              else Some (set_gas event1 (gasUsed event1)
                           (bigint_toString (receipt_gasUsed receipt * price)))
          end
      end
  end.

(** The two processors differ in the metadata they attach only: the tag
    ("cross-chain" or "direct") and the key the chain id is stored under
    ("sourceChainId" or "chainId"). *)
Definition payment_row (this : Z) (now : Z) (tag key : string)
  (event : CrossChainPaymentEvent) : Payment :=
  {| pay_invoiceId := invoiceId event;
     pay_externalChain := getChainName this;
     pay_txHash := txHash event;
     pay_payer := payer event;
     pay_amount := amount event;
     pay_currency := currency event;
     pay_status := pay_confirmed;
     pay_blockNumber := blockNumber event;
     pay_blockHash := blockHash event;
     pay_gasUsed := gasUsed event;
     pay_gasFee := gasFee event;
     pay_recordedAt := None;
     pay_confirmedAt := Some now;
     pay_metadata := [("type", JString tag);
                      (key, JNumber this);
                      ("indexedAt", JIsoDate now);
                      ("source", JString "ethereum-indexer")] |}.

Definition transaction_row (this : Z) (now : Z) (tag key : string)
  (invoice : Invoice) (event : CrossChainPaymentEvent) : Transaction :=
  {| tx_appId := inv_appId invoice;
     tx_type := ty_payment;
     tx_chain := getChainName this;
     tx_txHash := txHash event;
     tx_amount := amount event;
     tx_currency := currency event;
     tx_fee := None;
     tx_status := pay_confirmed;
     tx_blockNumber := blockNumber event;
     tx_fromAddress := Some (payer event);
     tx_toAddress := Some EmptyString;
     tx_metadata := [("invoiceId", JString (invoiceId event));
                     ("type", JString tag);
                     (key, JNumber this);
                     ("indexedAt", JIsoDate now);
                     ("source", JString "ethereum-indexer")];
     tx_createdAt := now |}.

(** The body shared by processCrossChainPaymentEvent (lines 236-325) and
    processDirectPaymentEvent (lines 327-416). *)
Definition record_payment (this : Z) (prov : Provider) (now : Z)
  (tag key : string) (event : CrossChainPaymentEvent) (db : Db) : Db :=
  match fill_gas prov event with
  | None => db
  | Some event =>
      match find_invoice (invoiceId event) db with
      | None => db
      | Some invoice =>
          match find (fun p => String.eqb (pay_invoiceId p) (invoiceId event)
                               && String.eqb (pay_txHash p) (txHash event))
                     (payments db) with
          | Some _ => db
          | None =>
              insert_transaction
                (transaction_row this now tag key invoice event)
                (insert_payment (payment_row this now tag key event) db)
          end
      end
  end.

Definition processCrossChainPaymentEvent (this : Z) (prov : Provider)
  (now : Z) (event : CrossChainPaymentEvent) (db : Db) : Db :=
  record_payment this prov now "cross-chain" "sourceChainId" event db.

Definition processDirectPaymentEvent (this : Z) (prov : Provider)
  (now : Z) (event : CrossChainPaymentEvent) (db : Db) : Db :=
  record_payment this prov now "direct" "chainId" event db.

(** The event objects built from a log in processBlockRange. *)
Definition crossChainEvent_of_log (this : Z)
  (event : Log CrossChainPaymentInitiatedArgs)
  (a : CrossChainPaymentInitiatedArgs) : CrossChainPaymentEvent :=
  {| invoiceId := cc_invoiceId a;
     payer := cc_payer a;
     amount := bigint_toString (cc_amount a);
     currency := cc_currency a;
     txHash := log_transactionHash event;
     blockNumber := log_blockNumber event;
     blockHash := log_blockHash event;
     chainId := this;
     gasUsed := "0";
     gasFee := "0" |}.

Definition directEvent_of_log (this : Z) (event : Log PaymentReceivedArgs)
  (a : PaymentReceivedArgs) : CrossChainPaymentEvent :=
  {| invoiceId := pr_invoiceId a;
     payer := pr_payer a;
     amount := bigint_toString (pr_amount a);
     currency := pr_currency a;
     txHash := log_transactionHash event;
     blockNumber := log_blockNumber event;
     blockHash := log_blockHash event;
     chainId := this;
     gasUsed := "0";
     gasFee := "0" |}.

(** processBlockRange, lines 179-234: everything sits in one try whose
    catch only logs, so the call never throws; entries that are not
    EventLogs are passed over. *)
Definition processBlockRange (this : Z) (prov : Provider) (now : Z)
  (fromBlock toBlock : Z) (db : Db) : Db :=
  match queryCrossChainPaymentInitiated prov fromBlock toBlock with
  | Rejected => db
  | Resolved crossChainEvents =>
  match queryPaymentReceived prov fromBlock toBlock with
  | Rejected => db
  | Resolved directPaymentEvents =>
      let db1 :=
        fold_left
          (fun acc event =>
             match log_args event with
             | Some a =>
                 processCrossChainPaymentEvent this prov now
                   (crossChainEvent_of_log this event a) acc
             | None => acc
             end)
          crossChainEvents db in
      fold_left
        (fun acc event =>
           match log_args event with
           | Some a =>
               processDirectPaymentEvent this prov now
                 (directEvent_of_log this event a) acc
           | None => acc
           end)
        directPaymentEvents db1
  end end.

Inductive Reply := Returned | Thrown.

(** start(), lines 52-78. *)
Definition start (prov : Provider) (w : Watcher) : Watcher * Reply :=
  if isRunning w then (w, Returned)
  else
    match getBlockNumber prov with
    | Resolved latestBlock =>
        ({| isRunning := true;
            lastProcessedBlock := Z.max 0 (latestBlock - 100);
            this_chainId := this_chainId w |}, Returned)
    | Rejected =>
        ({| isRunning := false;
            lastProcessedBlock := lastProcessedBlock w;
            this_chainId := this_chainId w |}, Thrown)
    end.

(** stop(), lines 80-92. *)
Definition stop (w : Watcher) : Watcher :=
  if negb (isRunning w) then w
  else {| isRunning := false;
          lastProcessedBlock := lastProcessedBlock w;
          this_chainId := this_chainId w |}.

(** for (let i = from; i <= latestBlock; i += batchSize) of lines 160-164,
    batchSize = 10; [fuel] bounds the number of passes. *)
Fixpoint batches (fuel : nat) (this : Z) (prov : Provider) (now : Z)
  (i latestBlock : Z) (db : Db) : Db :=
  match fuel with
  | O => db
  | S fuel' =>
      if i <=? latestBlock then
        let endBlock := Z.min (i + 10 - 1) latestBlock in
        batches fuel' this prov now (i + 10) latestBlock
          (processBlockRange this prov now i endBlock db)
      else db
  end.

(** One run of the closure [processBlocks] of startBlockProcessing,
    lines 150-174 (one backfill tick).  The loop makes at most
    latestBlock - lastProcessedBlock passes. *)
Definition processBlocks (prov : Provider) (now : Z) (w : Watcher) (db : Db)
  : Watcher * Db :=
  if negb (isRunning w) then (w, db)
  else
    match getBlockNumber prov with
    | Rejected => (w, db)
    | Resolved latestBlock =>
        if latestBlock >? lastProcessedBlock w then
          let db' :=
            batches (Z.to_nat (latestBlock - lastProcessedBlock w))
              (this_chainId w) prov now
              (lastProcessedBlock w + 1) latestBlock db in
          ({| isRunning := isRunning w;
              lastProcessedBlock := latestBlock;
              this_chainId := this_chainId w |}, db')
        else (w, db)
    end.

(** The listeners registered by setupEventListeners, lines 94-147. *)
Definition onCrossChainPaymentInitiated (this : Z) (prov : Provider)
  (now : Z) (a : CrossChainPaymentInitiatedArgs)
  (event : Log CrossChainPaymentInitiatedArgs) (db : Db) : Db :=
  processCrossChainPaymentEvent this prov now
    (crossChainEvent_of_log this event a) db.

Definition onPaymentReceived (this : Z) (prov : Provider) (now : Z)
  (a : PaymentReceivedArgs) (event : Log PaymentReceivedArgs) (db : Db)
  : Db :=
  processDirectPaymentEvent this prov now (directEvent_of_log this event a) db.

(** The block ranges the loop of lines 160-164 hands to processBlockRange,
    in order. *)
Fixpoint batch_windows (fuel : nat) (i latestBlock : Z) : list (Z * Z) :=
  match fuel with
  | O => []
  | S fuel' =>
      if i <=? latestBlock then
        (i, Z.min (i + 10 - 1) latestBlock)
        :: batch_windows fuel' (i + 10) latestBlock
      else []
  end.

(** getStatus, lines 430-436. *)
Record Status := {
  status_isRunning : bool;
  status_lastProcessedBlock : Z;
  status_chainId : Z }.

Definition getStatus (w : Watcher) : Status :=
  {| status_isRunning := isRunning w;
     status_lastProcessedBlock := lastProcessedBlock w;
     status_chainId := this_chainId w |}.

End EthereumIndexer.

(* ================================================================== *)
(** ** IndexerManager (indexer-manager.ts) *)
(* ================================================================== *)

Module IndexerManager.

(** The providers the indexers were constructed with: the one of the Push
    Chain indexer and one per Ethereum chain id. *)
Record Network := {
  push_provider : Provider;
  ethereum_provider : Z -> Provider }.

(** The gateway contract addresses read from process.env. *)
Record Env := {
  ETHEREUM_GATEWAY_CONTRACT : option string;
  SEPOLIA_GATEWAY_CONTRACT : option string;
  POLYGON_GATEWAY_CONTRACT : option string;
  MUMBAI_GATEWAY_CONTRACT : option string }.

Record IndexerConfig := {
  chainId : Z;
  contractAddress : string;
  enabled : bool }.

(** Truthiness of a string that may be undefined. *)
Definition truthy (v : option string) : bool :=
  match v with
  | Some s => negb (String.eqb s EmptyString)
  | None => false
  end.

(** process.env.X || the empty string *)
Definition or_empty (v : option string) : string :=
  match v with
  | Some s => s
  | None => EmptyString
  end.

(** A Map<number, EthereumIndexer> in insertion order. *)
Definition IndexerMap := list (Z * EthereumIndexer.Watcher).

Fixpoint get (chain : Z) (m : IndexerMap) : option EthereumIndexer.Watcher :=
  match m with
  | [] => None
  | (c, w) :: rest => if c =? chain then Some w else get chain rest
  end.

(** Map.prototype.set: the value of a present key is replaced in place,
    a new key goes last. *)
Fixpoint set (chain : Z) (w : EthereumIndexer.Watcher) (m : IndexerMap)
  : IndexerMap :=
  match m with
  | [] => [(chain, w)]
  | (c, w') :: rest =>
      if c =? chain then (c, w) :: rest else (c, w') :: set chain w rest
  end.

Record Manager := {
  pushChainIndexer : PushChainIndexer.Watcher;
  ethereumIndexers : IndexerMap;
  isRunning : bool }.

(** initializeEthereumIndexers, lines 30-71 (the rpc urls do not enter
    the state). *)
Definition indexerConfigs (env : Env) : list IndexerConfig :=
  [ {| chainId := 1;
       contractAddress := or_empty (ETHEREUM_GATEWAY_CONTRACT env);
       enabled := truthy (ETHEREUM_GATEWAY_CONTRACT env) |};
    {| chainId := 11155111;
       contractAddress := or_empty (SEPOLIA_GATEWAY_CONTRACT env);
       enabled := truthy (SEPOLIA_GATEWAY_CONTRACT env) |};
    {| chainId := 137;
       contractAddress := or_empty (POLYGON_GATEWAY_CONTRACT env);
       enabled := truthy (POLYGON_GATEWAY_CONTRACT env) |};
    {| chainId := 80001;
       contractAddress := or_empty (MUMBAI_GATEWAY_CONTRACT env);
       enabled := truthy (MUMBAI_GATEWAY_CONTRACT env) |} ].

Definition initializeEthereumIndexers (env : Env) : IndexerMap :=
  fold_left
    (fun m config =>
       if enabled config
          && negb (String.eqb (contractAddress config) EmptyString)
       then set (chainId config) (EthereumIndexer.create (chainId config)) m
       else m)
    (indexerConfigs env) [].

(** constructor, lines 25-28. *)
Definition create (env : Env) : Manager :=
  {| pushChainIndexer := PushChainIndexer.initial;
     ethereumIndexers := initializeEthereumIndexers env;
     isRunning := false |}.

(** startAll, lines 73-109: the promises of the start() calls are joined
    with Promise.allSettled, so a rejected start is not reported. *)
Definition startAll (net : Network) (m : Manager) : Manager :=
  if isRunning m then m
  else
    {| pushChainIndexer :=
         fst (PushChainIndexer.start (push_provider net) (pushChainIndexer m));
       ethereumIndexers :=
         map (fun entry : Z * EthereumIndexer.Watcher =>
                let (chain, indexer) := entry in
                (chain,
                 fst (EthereumIndexer.start (ethereum_provider net chain)
                        indexer)))
             (ethereumIndexers m);
       isRunning := true |}.

(** stopAll, lines 111-147. *)
Definition stopAll (m : Manager) : Manager :=
  if negb (isRunning m) then m
  else
    {| pushChainIndexer := PushChainIndexer.stop (pushChainIndexer m);
       ethereumIndexers :=
         map (fun entry : Z * EthereumIndexer.Watcher =>
                let (chain, indexer) := entry in
                (chain, EthereumIndexer.stop indexer))
             (ethereumIndexers m);
       isRunning := false |}.

(** restartAll, lines 149-154. *)
Definition restartAll (net : Network) (m : Manager) : Manager :=
  startAll net (stopAll m).

(** What the caller of startIndexer / stopIndexer sees thrown. *)
Inductive Exception :=
| ProviderError                 (* the rejection start() rethrows *)
| Error (message : string).     (* new Error(message) *)

Inductive Result := Ok | Raised (e : Exception).

(** `No indexer configured for chain ${chainId}` *)
Definition UnknownChain (chain : Z) : Exception :=
  Error ("No indexer configured for chain " ++ JsNumber.show_Z chain).

(** startIndexer, lines 202-215. *)
Definition startIndexer (net : Network) (chain : Z) (m : Manager)
  : Manager * Result :=
  if chain =? 42101 then
    let (w, reply) :=
      PushChainIndexer.start (push_provider net) (pushChainIndexer m) in
    ({| pushChainIndexer := w;
        ethereumIndexers := ethereumIndexers m;
        isRunning := isRunning m |},
     match reply with
     | PushChainIndexer.Returned => Ok
     | PushChainIndexer.Thrown => Raised ProviderError
     end)
  else
    match get chain (ethereumIndexers m) with
    | Some indexer =>
        let (w, reply) :=
          EthereumIndexer.start (ethereum_provider net chain) indexer in
        ({| pushChainIndexer := pushChainIndexer m;
            ethereumIndexers := set chain w (ethereumIndexers m);
            isRunning := isRunning m |},
         match reply with
         | EthereumIndexer.Returned => Ok
         | EthereumIndexer.Thrown => Raised ProviderError
         end)
    | None => (m, Raised (UnknownChain chain))
    end.

(** stopIndexer, lines 217-230. *)
Definition stopIndexer (chain : Z) (m : Manager) : Manager * Result :=
  if chain =? 42101 then
    ({| pushChainIndexer := PushChainIndexer.stop (pushChainIndexer m);
        ethereumIndexers := ethereumIndexers m;
        isRunning := isRunning m |}, Ok)
  else
    match get chain (ethereumIndexers m) with
    | Some indexer =>
        ({| pushChainIndexer := pushChainIndexer m;
            ethereumIndexers :=
              set chain (EthereumIndexer.stop indexer) (ethereumIndexers m);
            isRunning := isRunning m |}, Ok)
    | None => (m, Raised (UnknownChain chain))
    end.

(** getSupportedChains, lines 244-250, before the final sort. *)
Definition configuredChains (m : Manager) : list Z :=
  42101 :: map fst (ethereumIndexers m).

(** getChainName, lines 232-242. *)
Definition getChainName (chain : Z) : string :=
  if chain =? 1 then "ethereum"
  else if chain =? 11155111 then "sepolia"
  else if chain =? 137 then "polygon"
  else if chain =? 80001 then "mumbai"
  else if chain =? 42101 then "push-chain"
  else "chain-" ++ JsNumber.show_Z chain.

Record IndexerStatus := {
  s_chainId : Z;
  s_chainName : string;
  s_isRunning : bool;
  s_lastProcessedBlock : Z;
  s_error : option string }.

(** getStatus, lines 156-200.  [message] is what the catch reads off a
    rejection of the Push Chain height query (error.message, or "Unknown
    error"); getStatus of an Ethereum indexer cannot throw. *)
Definition getStatus (net : Network) (message : string) (m : Manager)
  : list IndexerStatus :=
  match PushChainIndexer.getStatus (push_provider net) (pushChainIndexer m)
  with
  | Some pushChainStatus =>
      {| s_chainId := 42101;
         s_chainName := "push-chain";
         s_isRunning := PushChainIndexer.status_isRunning pushChainStatus;
         s_lastProcessedBlock :=
           PushChainIndexer.status_lastProcessedBlock pushChainStatus;
         s_error := None |}
  | None =>
      {| s_chainId := 42101;
         s_chainName := "push-chain";
         s_isRunning := false;
         s_lastProcessedBlock := 0;
         s_error := Some message |}
  end
  :: map (fun entry : Z * EthereumIndexer.Watcher =>
            let status := EthereumIndexer.getStatus (snd entry) in
            {| s_chainId := EthereumIndexer.status_chainId status;
               s_chainName :=
                 getChainName (EthereumIndexer.status_chainId status);
               s_isRunning := EthereumIndexer.status_isRunning status;
               s_lastProcessedBlock :=
                 EthereumIndexer.status_lastProcessedBlock status;
               s_error := None |})
         (ethereumIndexers m).

(** Array.prototype.sort without a comparator: the elements are ordered
    by their strings; an element goes in front of the first one whose
    string is greater (equal strings keep their order). *)
Fixpoint sort_insert (x : Z) (l : list Z) : list Z :=
  match l with
  | [] => [x]
  | y :: rest =>
      if String.ltb (JsNumber.show_Z x) (JsNumber.show_Z y) then x :: l
      else y :: sort_insert x rest
  end.

Definition array_sort (l : list Z) : list Z :=
  fold_left (fun sorted x => sort_insert x sorted) l [].

(** getSupportedChains, lines 244-250. *)
Definition getSupportedChains (m : Manager) : list Z :=
  array_sort (configuredChains m).

(** A value returned, or an exception thrown. *)
Inductive Answer (A : Type) : Type :=
| Returns (a : A)
| Throws (e : Exception).
Arguments Returns {A} a.
Arguments Throws {A} e.

(** isIndexerRunning, lines 252-260. *)
Definition isIndexerRunning (net : Network) (chain : Z) (m : Manager)
  : Answer bool :=
  if chain =? 42101 then
    match PushChainIndexer.getStatus (push_provider net) (pushChainIndexer m)
    with
    | Some status => Returns (PushChainIndexer.status_isRunning status)
    | None => Throws ProviderError
    end
  else
    match get chain (ethereumIndexers m) with
    | Some indexer =>
        Returns (EthereumIndexer.status_isRunning
                   (EthereumIndexer.getStatus indexer))
    | None => Returns false
    end.

(** getManagerStatus, lines 262-271. *)
Record ManagerStatus := {
  ms_isRunning : bool;
  ms_totalIndexers : nat;
  ms_runningIndexers : nat }.

Definition getManagerStatus (net : Network) (message : string) (m : Manager)
  : ManagerStatus :=
  let statuses := getStatus net message m in
  {| ms_isRunning := isRunning m;
     ms_totalIndexers := List.length statuses;
     ms_runningIndexers := List.length (filter s_isRunning statuses) |}.

(** The calls that change the manager. *)
Inductive Call :=
| StartAll (net : Network)
| StopAll
| RestartAll (net : Network)
| StartIndexer (net : Network) (chain : Z)
| StopIndexer (chain : Z).

Definition call (c : Call) (m : Manager) : Manager :=
  match c with
  | StartAll net => startAll net m
  | StopAll => stopAll m
  | RestartAll net => restartAll net m
  | StartIndexer net chain => fst (startIndexer net chain m)
  | StopIndexer chain => fst (stopIndexer chain m)
  end.

Definition calls (cs : list Call) (m : Manager) : Manager :=
  fold_left (fun acc c => call c acc) cs m.

End IndexerManager.

(* ================================================================== *)
(** ** Deliveries: one application of the event processor *)
(* ================================================================== *)

(** A decoded event reaching a processor, from the subscription callback
    or from a backfill batch, with the provider responses and the clock
    of that call. *)
Inductive Delivery : Type :=
| PushPayment (prov : Provider) (now : Z)
              (event : PushChainIndexer.PaymentEvent)
| PushWithdrawal (now : Z) (event : PushChainIndexer.WithdrawalEvent)
| PushFee (now : Z) (event : PushChainIndexer.FeeEvent)
| EthereumCrossChain (this : Z) (prov : Provider) (now : Z)
                     (event : EthereumIndexer.CrossChainPaymentEvent)
| EthereumDirect (this : Z) (prov : Provider) (now : Z)
                 (event : EthereumIndexer.CrossChainPaymentEvent).

Definition deliver (cfg : PushChainConfig) (d : Delivery) (db : Db) : Db :=
  match d with
  | PushPayment prov now event =>
      PushChainIndexer.processPaymentEvent cfg prov now event db
  | PushWithdrawal now event =>
      PushChainIndexer.processWithdrawalEvent cfg now event db
  | PushFee now event => PushChainIndexer.processFeeEvent now event db
  | EthereumCrossChain this prov now event =>
      EthereumIndexer.processCrossChainPaymentEvent this prov now event db
  | EthereumDirect this prov now event =>
      EthereumIndexer.processDirectPaymentEvent this prov now event db
  end.

Definition deliver_all (cfg : PushChainConfig) (ds : list Delivery) (db : Db)
  : Db :=
  fold_left (fun acc d => deliver cfg d acc) ds db.


(** Backfill ticks of one watcher, in sequence. *)
Definition push_ticks (cfg : PushChainConfig) (ticks : list (Provider * Z))
  (w : PushChainIndexer.Watcher) (db : Db) : PushChainIndexer.Watcher * Db :=
  fold_left
    (fun (st : PushChainIndexer.Watcher * Db) (t : Provider * Z) =>
       PushChainIndexer.processBlocks cfg (fst t) (snd t) (fst st) (snd st))
    ticks (w, db).

Definition ethereum_ticks (ticks : list (Provider * Z))
  (w : EthereumIndexer.Watcher) (db : Db) : EthereumIndexer.Watcher * Db :=
  fold_left
    (fun (st : EthereumIndexer.Watcher * Db) (t : Provider * Z) =>
       EthereumIndexer.processBlocks (fst t) (snd t) (fst st) (snd st))
    ticks (w, db).

(* ================================================================== *)
(** ** The running system *)
(* ================================================================== *)

(** The calls on one watcher: start(), stop(), and a run of its backfill
    closure. *)
Inductive WatcherCall :=
| CallStart (prov : Provider)
| CallStop
| CallTick (prov : Provider) (now : Z).

Definition push_call (cfg : PushChainConfig) (c : WatcherCall)
  (st : PushChainIndexer.Watcher * Db) : PushChainIndexer.Watcher * Db :=
  match c with
  | CallStart prov => (fst (PushChainIndexer.start prov (fst st)), snd st)
  | CallStop => (PushChainIndexer.stop (fst st), snd st)
  | CallTick prov now =>
      PushChainIndexer.processBlocks cfg prov now (fst st) (snd st)
  end.

Definition ethereum_call (c : WatcherCall)
  (st : EthereumIndexer.Watcher * Db) : EthereumIndexer.Watcher * Db :=
  match c with
  | CallStart prov => (fst (EthereumIndexer.start prov (fst st)), snd st)
  | CallStop => (EthereumIndexer.stop (fst st), snd st)
  | CallTick prov now =>
      EthereumIndexer.processBlocks prov now (fst st) (snd st)
  end.

(** The deliveries a backfill batch makes of the logs of a range, in the
    order of the loops; a log without decoded arguments gives none. *)
Definition push_payment_deliveries (prov : Provider) (now : Z)
  (logs : list (Log PaymentReceivedArgs)) : list Delivery :=
  flat_map
    (fun event =>
       match log_args event with
       | Some a =>
           [PushPayment prov now
              (PushChainIndexer.paymentEvent_of_log event a)]
       | None => []
       end) logs.

Definition push_withdrawal_deliveries (now : Z)
  (logs : list (Log WithdrawalExecutedArgs)) : list Delivery :=
  flat_map
    (fun event =>
       match log_args event with
       | Some a =>
           [PushWithdrawal now
              (PushChainIndexer.withdrawalEvent_of_log event a)]
       | None => []
       end) logs.

Definition push_fee_deliveries (now : Z)
  (logs : list (Log FeeCollectedArgs)) : list Delivery :=
  flat_map
    (fun event =>
       match log_args event with
       | Some a =>
           [PushFee now (PushChainIndexer.feeEvent_of_log event a)]
       | None => []
       end) logs.

Definition ethereum_cross_chain_deliveries (this : Z) (prov : Provider)
  (now : Z) (logs : list (Log CrossChainPaymentInitiatedArgs))
  : list Delivery :=
  flat_map
    (fun event =>
       match log_args event with
       | Some a =>
           [EthereumCrossChain this prov now
              (EthereumIndexer.crossChainEvent_of_log this event a)]
       | None => []
       end) logs.

Definition ethereum_direct_deliveries (this : Z) (prov : Provider)
  (now : Z) (logs : list (Log PaymentReceivedArgs)) : list Delivery :=
  flat_map
    (fun event =>
       match log_args event with
       | Some a =>
           [EthereumDirect this prov now
              (EthereumIndexer.directEvent_of_log this event a)]
       | None => []
       end) logs.

(** The chain id of the Ethereum watcher a delivery comes from. *)
Definition delivery_watcher (d : Delivery) : option Z :=
  match d with
  | EthereumCrossChain this _ _ _ | EthereumDirect this _ _ _ => Some this
  | _ => None
  end.

(** The manager with its watchers, and the store they write to. *)
Record System := {
  manager : IndexerManager.Manager;
  store : Db }.

(** What happens to the running system: a call on the manager, a backfill
    tick of a watcher, or a log pushed to a listener.  Listeners exist
    from start() to stop(), so a pushed log reaches the processor of a
    watcher only while that watcher is running. *)
Inductive Activity :=
| Manage (c : IndexerManager.Call)
| PushTick (prov : Provider) (now : Z)
| EthereumTick (chain : Z) (prov : Provider) (now : Z)
| Pushed (d : Delivery).

Definition listening (m : IndexerManager.Manager) (d : Delivery) : bool :=
  match delivery_watcher d with
  | None => PushChainIndexer.isRunning (IndexerManager.pushChainIndexer m)
  | Some this =>
      match IndexerManager.get this (IndexerManager.ethereumIndexers m) with
      | Some w =>
          EthereumIndexer.isRunning w
          && (EthereumIndexer.this_chainId w =? this)
      | None => false
      end
  end.

Definition step (cfg : PushChainConfig) (a : Activity) (s : System)
  : System :=
  match a with
  | Manage c =>
      {| manager := IndexerManager.call c (manager s); store := store s |}
  | PushTick prov now =>
      let (w, db) :=
        PushChainIndexer.processBlocks cfg prov now
          (IndexerManager.pushChainIndexer (manager s)) (store s) in
      {| manager :=
           {| IndexerManager.pushChainIndexer := w;
              IndexerManager.ethereumIndexers :=
                IndexerManager.ethereumIndexers (manager s);
              IndexerManager.isRunning :=
                IndexerManager.isRunning (manager s) |};
         store := db |}
  | EthereumTick chain prov now =>
      match IndexerManager.get chain
              (IndexerManager.ethereumIndexers (manager s)) with
      | Some indexer =>
          let (w, db) :=
            EthereumIndexer.processBlocks prov now indexer (store s) in
          {| manager :=
               {| IndexerManager.pushChainIndexer :=
                    IndexerManager.pushChainIndexer (manager s);
                  IndexerManager.ethereumIndexers :=
                    IndexerManager.set chain w
                      (IndexerManager.ethereumIndexers (manager s));
                  IndexerManager.isRunning :=
                    IndexerManager.isRunning (manager s) |};
             store := db |}
      | None => s
      end
  | Pushed d =>
      if listening (manager s) d
      then {| manager := manager s; store := deliver cfg d (store s) |}
      else s
  end.

Definition run (cfg : PushChainConfig) (activities : list Activity)
  (s : System) : System :=
  fold_left (fun acc a => step cfg a acc) activities s.

(** The system a process starts with: the manager as constructed, over
    the store as it finds it. *)
Definition boot (env : IndexerManager.Env) (db : Db) : System :=
  {| manager := IndexerManager.create env; store := db |}.

(* ================================================================== *)
(** ** Notions the properties are stated with *)
(* ================================================================== *)

(** The value [JsNumber.take_digits] accumulates over the digits of a
    decimal number. *)
Fixpoint digits_value (d : Decimal.uint) (acc : Z) : Z :=
  match d with
  | Decimal.Nil => acc
  | Decimal.D0 r => digits_value r (10 * acc + 0)
  | Decimal.D1 r => digits_value r (10 * acc + 1)
  | Decimal.D2 r => digits_value r (10 * acc + 2)
  | Decimal.D3 r => digits_value r (10 * acc + 3)
  | Decimal.D4 r => digits_value r (10 * acc + 4)
  | Decimal.D5 r => digits_value r (10 * acc + 5)
  | Decimal.D6 r => digits_value r (10 * acc + 6)
  | Decimal.D7 r => digits_value r (10 * acc + 7)
  | Decimal.D8 r => digits_value r (10 * acc + 8)
  | Decimal.D9 r => digits_value r (10 * acc + 9)
  end.

(** The variable of process.env read for a chain id by
    initializeEthereumIndexers. *)
Definition gateway_contract (env : IndexerManager.Env) (chain : Z)
  : option string :=
  if chain =? 1 then IndexerManager.ETHEREUM_GATEWAY_CONTRACT env
  else if chain =? 11155111 then IndexerManager.SEPOLIA_GATEWAY_CONTRACT env
  else if chain =? 137 then IndexerManager.POLYGON_GATEWAY_CONTRACT env
  else if chain =? 80001 then IndexerManager.MUMBAI_GATEWAY_CONTRACT env
  else None.

(** The Ethereum watchers of a manager: the key each is stored under and
    the chain id it was constructed with. *)
Definition watchers (m : IndexerManager.Manager) : list (Z * Z) :=
  map (fun entry : Z * EthereumIndexer.Watcher =>
         (fst entry, EthereumIndexer.this_chainId (snd entry)))
      (IndexerManager.ethereumIndexers m).

(** Every watcher sits under its own chain id, no key occurs twice, and
    42101 (Push Chain) is not among them. *)
Definition well_keyed (m : IndexerManager.Manager) : Prop :=
  Forall (fun kc : Z * Z => snd kc = fst kc /\ fst kc <> 42101) (watchers m)
  /\ NoDup (map fst (watchers m)).

(** The blocks from..to, in order. *)
Definition blocks (fromBlock toBlock : Z) : list Z :=
  map (fun k => fromBlock + Z.of_nat k)
      (seq 0 (Z.to_nat (toBlock - fromBlock + 1))).

(** The order of Array.prototype.sort without a comparator, on numbers. *)
Definition string_le (a b : Z) : Prop :=
  String.leb (JsNumber.show_Z a) (JsNumber.show_Z b) = true.

(* ================================================================== *)
(** ** Fixtures for the concrete scenarios *)
(* ================================================================== *)

Module Scenario.

(** A provider at block 0 with no receipt for any hash and no logs. *)
Definition quiet : Provider :=
  {| getBlockNumber := Resolved 0;
     getTransactionReceipt := fun _ => Resolved None;
     getTransaction := fun _ => Resolved None;
     queryPaymentReceived := fun _ _ => Resolved [];
     queryWithdrawalExecuted := fun _ _ => Resolved [];
     queryFeeCollected := fun _ _ => Resolved [];
     queryCrossChainPaymentInitiated := fun _ _ => Resolved [] |}.

(** A provider none of whose calls resolves. *)
Definition unreachable : Provider :=
  {| getBlockNumber := Rejected;
     getTransactionReceipt := fun _ => Rejected;
     getTransaction := fun _ => Rejected;
     queryPaymentReceived := fun _ _ => Rejected;
     queryWithdrawalExecuted := fun _ _ => Rejected;
     queryFeeCollected := fun _ _ => Rejected;
     queryCrossChainPaymentInitiated := fun _ _ => Rejected |}.

Definition cfg : PushChainConfig := {| contracts_payment := "0xGateway" |}.

(** The uuids of invoice I and of its application A. *)
Definition invoice_id : string := "3f8a2c1e-5b7d-4e9a-8c6f-1a2b3c4d5e6f".
Definition app_id : string := "9d4e6f70-1a2b-4c3d-8e5f-6a7b8c9d0e1f".

(** Invoice I of application A, pending, for the given amount. *)
Definition invoice (amount : string) : Invoice :=
  {| inv_id := invoice_id;
     inv_appId := app_id;
     inv_amount := amount;
     inv_currency := "USDC";
     inv_status := inv_pending;
     inv_paidAt := None;
     inv_updatedAt := 0 |}.

Definition store (amount : string) : Db :=
  {| invoices := [invoice amount]; payments := []; transactions := [] |}.

Definition empty_store : Db :=
  {| invoices := []; payments := []; transactions := [] |}.

(** PaymentReceived for invoice I seen by the Push Chain indexer. *)
Definition push_payment (hash amount : string)
  : PushChainIndexer.PaymentEvent :=
  {| PushChainIndexer.invoiceId := invoice_id;
     PushChainIndexer.payer := "0xPayer";
     PushChainIndexer.amount := amount;
     PushChainIndexer.currency := "USDC";
     PushChainIndexer.txHash := hash;
     PushChainIndexer.blockNumber := 7;
     PushChainIndexer.blockHash := "0xb7";
     PushChainIndexer.gasUsed := "0";
     PushChainIndexer.gasFee := "0" |}.

Definition withdrawal : PushChainIndexer.WithdrawalEvent :=
  {| PushChainIndexer.w_appId := app_id;
     PushChainIndexer.w_recipient := "0xRecipient";
     PushChainIndexer.w_amount := "5";
     PushChainIndexer.w_currency := "USDC";
     PushChainIndexer.w_txHash := "0xdef";
     PushChainIndexer.w_blockNumber := 8;
     PushChainIndexer.w_blockHash := "0xb8" |}.

Definition fee : PushChainIndexer.FeeEvent :=
  {| PushChainIndexer.f_appId := app_id;
     PushChainIndexer.f_platformFee := "3";
     PushChainIndexer.f_networkFee := "4";
     PushChainIndexer.f_currency := "USDC";
     PushChainIndexer.f_txHash := "0xfee";
     PushChainIndexer.f_blockNumber := 9;
     PushChainIndexer.f_blockHash := "0xb9" |}.

(** An event for invoice I seen by the Ethereum indexer of [chain]. *)
Definition ethereum_event (chain : Z) (hash amount : string)
  : EthereumIndexer.CrossChainPaymentEvent :=
  {| EthereumIndexer.invoiceId := invoice_id;
     EthereumIndexer.payer := "0xPayer";
     EthereumIndexer.amount := amount;
     EthereumIndexer.currency := "USDC";
     EthereumIndexer.txHash := hash;
     EthereumIndexer.blockNumber := 7;
     EthereumIndexer.blockHash := "0xb7";
     EthereumIndexer.chainId := chain;
     EthereumIndexer.gasUsed := "0";
     EthereumIndexer.gasFee := "0" |}.

(** One PaymentReceived log at block 7, and a provider at block 10 that
    returns it for every range but rejects the receipt lookup. *)
Definition payment_log : Log PaymentReceivedArgs :=
  {| log_args := Some {| pr_invoiceId := invoice_id; pr_payer := "0xPayer";
                         pr_amount := 100; pr_currency := "USDC" |};
     log_transactionHash := "0xabc";
     log_blockNumber := 7;
     log_blockHash := "0xb7" |}.

Definition receipts_down : Provider :=
  {| getBlockNumber := Resolved 10;
     getTransactionReceipt := fun _ => Rejected;
     getTransaction := fun _ => Rejected;
     queryPaymentReceived := fun _ _ => Resolved [payment_log];
     queryWithdrawalExecuted := fun _ _ => Resolved [];
     queryFeeCollected := fun _ _ => Resolved [];
     queryCrossChainPaymentInitiated := fun _ _ => Resolved [] |}.

(** A provider at block 10 whose range queries are rejected. *)
Definition queries_down : Provider :=
  {| getBlockNumber := Resolved 10;
     getTransactionReceipt := fun _ => Resolved None;
     getTransaction := fun _ => Resolved None;
     queryPaymentReceived := fun _ _ => Rejected;
     queryWithdrawalExecuted := fun _ _ => Rejected;
     queryFeeCollected := fun _ _ => Rejected;
     queryCrossChainPaymentInitiated := fun _ _ => Rejected |}.

Definition network (prov : Provider) : IndexerManager.Network :=
  {| IndexerManager.push_provider := prov;
     IndexerManager.ethereum_provider := fun _ => prov |}.

(** Only the Ethereum mainnet gateway is configured. *)
Definition env : IndexerManager.Env :=
  {| IndexerManager.ETHEREUM_GATEWAY_CONTRACT := Some "0xEthGateway";
     IndexerManager.SEPOLIA_GATEWAY_CONTRACT := None;
     IndexerManager.POLYGON_GATEWAY_CONTRACT := None;
     IndexerManager.MUMBAI_GATEWAY_CONTRACT := None |}.

End Scenario.

(* ================================================================== *)
(** ** Properties *)
(* ================================================================== *)

Local Open Scope list_scope.

(** *** The store *)


Lemma transaction_rows_insert_transaction (chain h : string)
  (ty : TransactionType) (t : Transaction) (db : Db) :
  transaction_rows chain h ty (insert_transaction t db)
  = transaction_rows chain h ty db
    ++ (if transaction_keyed chain h ty t then [t] else []).
Proof.
  unfold transaction_rows, insert_transaction; simpl.
  rewrite filter_app; simpl.
  destruct (transaction_keyed chain h ty t); reflexivity.
Qed.

Lemma TransactionType_eqb_refl (ty : TransactionType) :
  TransactionType_eqb ty ty = true.
Proof. destruct ty; reflexivity. Qed.

(** *** Withdrawal and fee events *)

(** C6.  The withdrawal and fee processors make no lookup before their
    insert: applying the same WithdrawalExecuted (FeeCollected) event a
    second time adds a second ledger row with the same
    (chain, transaction hash, type). *)
Theorem withdrawal_fee_replay_inserts_again :
  forall (cfg : PushChainConfig) (now1 now2 : Z) (db : Db),
    (forall e : PushChainIndexer.WithdrawalEvent,
        let h := PushChainIndexer.w_txHash e in
        List.length
          (transaction_rows "push-chain" h ty_withdrawal
             (PushChainIndexer.processWithdrawalEvent cfg now2 e
                (PushChainIndexer.processWithdrawalEvent cfg now1 e db)))
        = (List.length (transaction_rows "push-chain" h ty_withdrawal db)
           + 2)%nat)
    /\
    (forall e : PushChainIndexer.FeeEvent,
        let h := PushChainIndexer.f_txHash e in
        List.length
          (transaction_rows "push-chain" h ty_fee
             (PushChainIndexer.processFeeEvent now2 e
                (PushChainIndexer.processFeeEvent now1 e db)))
        = (List.length (transaction_rows "push-chain" h ty_fee db)
           + 2)%nat).
Proof.
  intros cfg now1 now2 db; split; intros e h;
    unfold PushChainIndexer.processWithdrawalEvent,
           PushChainIndexer.processFeeEvent;
    rewrite !transaction_rows_insert_transaction;
    unfold transaction_keyed; simpl; subst h;
    rewrite String.eqb_refl; simpl;
    rewrite !List.length_app; simpl; lia.
Qed.

(** The scenario of the specification, delivered twice: two withdrawal
    rows for ("push-chain", "0xdef"). *)
Example withdrawal_delivered_twice :
  List.length (transaction_rows "push-chain" "0xdef" ty_withdrawal
            (PushChainIndexer.processWithdrawalEvent Scenario.cfg 2
               Scenario.withdrawal
               (PushChainIndexer.processWithdrawalEvent Scenario.cfg 1
                  Scenario.withdrawal Scenario.empty_store))) = 2%nat.
Proof. reflexivity. Qed.

(** *** The manager *)

Lemma get_not_configured (chain : Z) (m : IndexerManager.IndexerMap) :
  ~ In chain (map fst m) -> IndexerManager.get chain m = None.
Proof.
  induction m as [|[c w] rest IH]; simpl; intros Hnot.
  - reflexivity.
  - destruct (Z.eqb_spec c chain) as [Heq|Hne].
    + exfalso; apply Hnot; left; exact Heq.
    + apply IH; intros Hin; apply Hnot; right; exact Hin.
Qed.

(** C9.  For a chain id that is not among the configured chains,
    startIndexer and stopIndexer throw the "No indexer configured for
    chain <id>" error and hand back the manager as it was: no watcher is
    started or stopped, no cursor and no running flag changes. *)
Theorem unknown_chain_is_rejected :
  forall (net : IndexerManager.Network) (chain : Z)
         (m : IndexerManager.Manager),
    ~ In chain (IndexerManager.configuredChains m) ->
    IndexerManager.startIndexer net chain m
      = (m, IndexerManager.Raised (IndexerManager.UnknownChain chain))
    /\ IndexerManager.stopIndexer chain m
      = (m, IndexerManager.Raised (IndexerManager.UnknownChain chain)).
Proof.
  intros net chain m Hnot.
  unfold IndexerManager.configuredChains in Hnot; simpl in Hnot.
  assert (Hpush : (chain =? 42101) = false).
  { apply Z.eqb_neq; intros Heq; apply Hnot; left; symmetry; exact Heq. }
  assert (Hget : IndexerManager.get chain (IndexerManager.ethereumIndexers m)
                 = None).
  { apply get_not_configured; intros Hin; apply Hnot; right; exact Hin. }
  unfold IndexerManager.startIndexer, IndexerManager.stopIndexer.
  rewrite Hpush, Hget; split; reflexivity.
Qed.

(** startIndexer(999999) on a manager with the Push Chain and Ethereum
    mainnet watchers. *)
Lemma unknown_chain_999999 :
  let m := IndexerManager.create Scenario.env in
  IndexerManager.startIndexer (Scenario.network Scenario.quiet) 999999 m
    = (m, IndexerManager.Raised
            (IndexerManager.Error "No indexer configured for chain 999999"))
  /\ IndexerManager.stopIndexer 999999 m
    = (m, IndexerManager.Raised
            (IndexerManager.Error "No indexer configured for chain 999999")).
Proof.
  apply (unknown_chain_is_rejected (Scenario.network Scenario.quiet) 999999
           (IndexerManager.create Scenario.env)).
  simpl; intros [H|[H|[]]]; discriminate H.
Defined.

(** C10.  startAll returns the manager untouched whenever its running
    flag is set; the flag is set by every startAll, whatever the outcome
    of the individual start() calls, so a second startAll changes nothing
    (no watcher's running state, no cursor), for any provider responses;
    stopAll on a running manager clears the flag, and startIndexer and
    stopIndexer leave it as it is. *)
Theorem startAll_runs_once :
  forall (net net' : IndexerManager.Network) (m : IndexerManager.Manager),
    (IndexerManager.isRunning m = true -> IndexerManager.startAll net m = m)
    /\ IndexerManager.isRunning (IndexerManager.startAll net m) = true
    /\ IndexerManager.startAll net' (IndexerManager.startAll net m)
       = IndexerManager.startAll net m
    /\ (IndexerManager.isRunning m = true ->
        IndexerManager.isRunning (IndexerManager.stopAll m) = false)
    /\ (forall chain,
           IndexerManager.isRunning
             (fst (IndexerManager.startIndexer net chain m))
           = IndexerManager.isRunning m
           /\ IndexerManager.isRunning
                (fst (IndexerManager.stopIndexer chain m))
              = IndexerManager.isRunning m).
Proof.
  intros net net' m.
  assert (Hidle : forall n k, IndexerManager.isRunning k = true ->
                              IndexerManager.startAll n k = k).
  { intros n k Hk; unfold IndexerManager.startAll; rewrite Hk; reflexivity. }
  assert (Hflag : IndexerManager.isRunning (IndexerManager.startAll net m)
                  = true).
  { unfold IndexerManager.startAll.
    destruct (IndexerManager.isRunning m) eqn:Hm; [exact Hm | reflexivity]. }
  split; [apply Hidle|].
  split; [exact Hflag|].
  split; [apply Hidle; exact Hflag|].
  split.
  - intros Hm; unfold IndexerManager.stopAll; rewrite Hm; reflexivity.
  - intros chain.
    unfold IndexerManager.startIndexer, IndexerManager.stopIndexer.
    destruct (chain =? 42101).
    + destruct (PushChainIndexer.start _ _); split; reflexivity.
    + destruct (IndexerManager.get chain _) as [indexer|];
        [destruct (EthereumIndexer.start _ _)|]; split; reflexivity.
Qed.

(** A first startAll in which every start() fails leaves no watcher
    running; the next startAll, with a reachable provider, starts none. *)
Lemma startAll_after_failed_start :
  let failed :=
    IndexerManager.startAll (Scenario.network Scenario.unreachable)
      (IndexerManager.create Scenario.env) in
  IndexerManager.startAll (Scenario.network Scenario.quiet) failed = failed
  /\ PushChainIndexer.isRunning (IndexerManager.pushChainIndexer failed)
     = false
  /\ map (fun entry => EthereumIndexer.isRunning (snd entry))
         (IndexerManager.ethereumIndexers failed) = [false].
Proof.
  split; [| split; reflexivity].
  apply (proj1 (startAll_runs_once (Scenario.network Scenario.quiet)
                  (Scenario.network Scenario.quiet)
                  (IndexerManager.startAll
                     (Scenario.network Scenario.unreachable)
                     (IndexerManager.create Scenario.env)))).
  reflexivity.
Defined.

(** *** Cross-chain initiation events *)

Lemma ethereum_fill_gas_keeps_key (prov : Provider)
  (e e' : EthereumIndexer.CrossChainPaymentEvent) :
  EthereumIndexer.fill_gas prov e = Some e' ->
  EthereumIndexer.invoiceId e' = EthereumIndexer.invoiceId e
  /\ EthereumIndexer.txHash e' = EthereumIndexer.txHash e.
Proof.
  unfold EthereumIndexer.fill_gas.
  destruct (getTransactionReceipt prov _) as [[r|]|]; try discriminate.
  - destruct (getTransaction prov _) as [[tx|]|]; try discriminate.
    + destruct (response_gasPrice tx) as [price|].
      * destruct (price =? 0); intros H; inversion H; subst; split; reflexivity.
      * intros H; inversion H; subst; split; reflexivity.
    + intros H; inversion H; subst; split; reflexivity.
  - intros H; inversion H; subst; split; reflexivity.
Qed.

Lemma record_payment_keeps_invoices (this : Z) (prov : Provider) (now : Z)
  (tag key : string) (e : EthereumIndexer.CrossChainPaymentEvent) (db : Db) :
  invoices (EthereumIndexer.record_payment this prov now tag key e db)
  = invoices db.
Proof.
  unfold EthereumIndexer.record_payment.
  destruct (EthereumIndexer.fill_gas prov e) as [e'|]; [|reflexivity].
  destruct (find_invoice _ db) as [invoice|]; [|reflexivity].
  destruct (find _ (payments db)); reflexivity.
Qed.

(** C7, as found in the code.  Processing a CrossChainPaymentInitiated
    event never changes an invoice, but for an existing invoice with no
    payment yet stored under the event's (invoiceId, txHash), and with
    the gas lookups of the event not rejected, it does append a Payment
    row with status confirmed, tagged "cross-chain" in its metadata, and
    a Transaction row of type payment.  When a gas lookup is rejected
    the event is dropped: the store is left as it is. *)
Theorem cross_chain_initiated_is_recorded_as_payment :
  forall (this : Z) (prov : Provider) (now : Z)
         (e : EthereumIndexer.CrossChainPaymentEvent) (db : Db),
    let db' :=
      EthereumIndexer.processCrossChainPaymentEvent this prov now e db in
    invoices db' = invoices db
    /\ (forall (e' : EthereumIndexer.CrossChainPaymentEvent)
               (invoice : Invoice),
           EthereumIndexer.fill_gas prov e = Some e' ->
           find_invoice (EthereumIndexer.invoiceId e) db = Some invoice ->
           find (fun p =>
                   String.eqb (pay_invoiceId p) (EthereumIndexer.invoiceId e)
                   && String.eqb (pay_txHash p) (EthereumIndexer.txHash e))
                (payments db) = None ->
           let row :=
             EthereumIndexer.payment_row this now "cross-chain"
               "sourceChainId" e' in
           payments db' = payments db ++ [row]
           /\ pay_status row = pay_confirmed
           /\ In ("type", JString "cross-chain") (pay_metadata row)
           /\ transactions db'
              = transactions db
                ++ [EthereumIndexer.transaction_row this now "cross-chain"
                      "sourceChainId" invoice e'])
    /\ (EthereumIndexer.fill_gas prov e = None -> db' = db)
    /\ (EthereumIndexer.fill_gas prov e = None
        <-> getTransactionReceipt prov (EthereumIndexer.txHash e) = Rejected
            \/ ((exists receipt,
                    getTransactionReceipt prov (EthereumIndexer.txHash e)
                    = Resolved (Some receipt))
                /\ getTransaction prov (EthereumIndexer.txHash e)
                   = Rejected)).
Proof.
  intros this prov now e db db'; split; [|split; [|split]].
  - apply record_payment_keeps_invoices.
  - intros e' invoice Hgas Hinv Hnew row.
    destruct (ethereum_fill_gas_keeps_key prov e e' Hgas) as [Hid Hhash].
    subst db'.
    unfold EthereumIndexer.processCrossChainPaymentEvent,
           EthereumIndexer.record_payment.
    rewrite Hgas, Hid, Hhash, Hinv, Hnew; simpl.
    repeat split; left; reflexivity.
  - intros Hgas; subst db'.
    unfold EthereumIndexer.processCrossChainPaymentEvent,
           EthereumIndexer.record_payment.
    rewrite Hgas; reflexivity.
  - unfold EthereumIndexer.fill_gas.
    destruct (getTransactionReceipt prov (EthereumIndexer.txHash e))
      as [[receipt|]|].
    + destruct (getTransaction prov (EthereumIndexer.txHash e))
        as [[tx|]|].
      * destruct (response_gasPrice tx) as [price|];
          [destruct (price =? 0)|];
          (split; [discriminate|];
           intros [H|[_ H]]; discriminate H).
      * split; [discriminate|]; intros [H|[_ H]]; discriminate H.
      * split; [|reflexivity].
        intros _; right; split; [exists receipt|]; reflexivity.
    + split; [discriminate|].
      intros [H|[[receipt H] _]]; discriminate H.
    + split; [|reflexivity]; intros _; left; reflexivity.
Qed.

Lemma cross_chain_initiated_is_recorded_witness :
  let db' :=
    EthereumIndexer.processCrossChainPaymentEvent 1 Scenario.quiet 5
      (Scenario.ethereum_event 1 "0xabc" "100")
      (Scenario.store "100.00000000") in
  payments db'
  = [EthereumIndexer.payment_row 1 5 "cross-chain" "sourceChainId"
       (Scenario.ethereum_event 1 "0xabc" "100")]
  /\ invoices db' = [Scenario.invoice "100.00000000"].
Proof.
  pose proof (cross_chain_initiated_is_recorded_as_payment 1 Scenario.quiet 5
                (Scenario.ethereum_event 1 "0xabc" "100")
                (Scenario.store "100.00000000")) as (Hinv & Hrow & _).
  split; [| exact Hinv].
  exact (proj1 (Hrow (Scenario.ethereum_event 1 "0xabc" "100")
                     (Scenario.invoice "100.00000000")
                     eq_refl eq_refl eq_refl)).
Defined.

(** C7 as stated fails: the CrossChainPaymentInitiated event of the
    Ethereum mainnet watcher for invoice I leaves a confirmed Payment
    row (and a payment ledger row) behind. *)
Lemma cross_chain_initiated_confirms :
  let db' :=
    EthereumIndexer.processCrossChainPaymentEvent 1 Scenario.quiet 5
      (Scenario.ethereum_event 1 "0xabc" "100")
      (Scenario.store "100.00000000") in
  map pay_status (payment_rows "ethereum" "0xabc" db') = [pay_confirmed]
  /\ map tx_type (transaction_rows "ethereum" "0xabc" ty_payment db')
     = [ty_payment].
Proof. split; reflexivity. Qed.

(** *** Transaction hashes shared between chains *)

(** C2 at its failing input.  The same (invoice, transaction hash) seen
    first by the Ethereum mainnet watcher and then by the Polygon watcher:
    the payment lookup of the Ethereum indexer matches on invoiceId and
    txHash only, so the mainnet row suppresses the Polygon event and
    nothing is recorded for ("polygon", "0xabc").  The same happens after
    a Push Chain payment with that hash. *)
Theorem ethereum_lookup_ignores_chain :
  let on_mainnet :=
    EthereumIndexer.processDirectPaymentEvent 1 Scenario.quiet 1
      (Scenario.ethereum_event 1 "0xabc" "100")
      (Scenario.store "100.00000000") in
  let then_polygon :=
    EthereumIndexer.processDirectPaymentEvent 137 Scenario.quiet 2
      (Scenario.ethereum_event 137 "0xabc" "100") on_mainnet in
  let on_push :=
    PushChainIndexer.processPaymentEvent Scenario.cfg Scenario.quiet 1
      (Scenario.push_payment "0xabc" "100") (Scenario.store "100.00000000") in
  let then_mainnet :=
    EthereumIndexer.processDirectPaymentEvent 1 Scenario.quiet 2
      (Scenario.ethereum_event 1 "0xabc" "100") on_push in
  List.length (payment_rows "ethereum" "0xabc" on_mainnet) = 1%nat
  /\ then_polygon = on_mainnet
  /\ payment_rows "polygon" "0xabc" then_polygon = []
  /\ transaction_rows "polygon" "0xabc" ty_payment then_polygon = []
  /\ then_mainnet = on_push
  /\ payment_rows "ethereum" "0xabc" then_mainnet = [].
Proof. vm_compute. repeat split. Qed.

(** On an empty payments table the Polygon event alone is recorded. *)
Example polygon_alone_is_recorded :
  List.length
    (payment_rows "polygon" "0xabc"
       (EthereumIndexer.processDirectPaymentEvent 137 Scenario.quiet 2
          (Scenario.ethereum_event 137 "0xabc" "100")
          (Scenario.store "100.00000000"))) = 1%nat.
Proof. reflexivity. Qed.

(** *** Lookups and rows *)

Lemma find_none_iff_filter_nil {A : Type} (f : A -> bool) (l : list A) :
  find f l = None <-> filter f l = [].
Proof.
  induction l as [|a l IH]; simpl.
  - tauto.
  - destruct (f a); [split; discriminate | exact IH].
Qed.

Lemma filter_filter {A : Type} (f g : A -> bool) (l : list A) :
  filter f (filter g l) = filter (fun a => g a && f a) l.
Proof.
  induction l as [|a l IH]; simpl; [reflexivity|].
  destruct (g a); simpl; [destruct (f a)|]; rewrite IH; reflexivity.
Qed.



(** The lookup of the Push Chain processor finds a row exactly when one
    is keyed to ("push-chain", hash). *)
Lemma push_lookup_is_keyed (h : string) (db : Db) :
  find (fun p => String.eqb (pay_txHash p) h
                 && String.eqb (pay_externalChain p) "push-chain")
       (payments db) = None
  <-> payment_rows "push-chain" h db = [].
Proof.
  rewrite find_none_iff_filter_nil; unfold payment_rows.
  erewrite filter_ext; [reflexivity|].
  intros p; unfold payment_keyed; apply andb_comm.
Qed.

(** The lookup of the Ethereum processors finds nothing when no payment
    carries the hash. *)
Lemma ethereum_lookup_unseen (id h : string) (db : Db) :
  payments_with_hash h db = [] ->
  find (fun p => String.eqb (pay_invoiceId p) id
                 && String.eqb (pay_txHash p) h) (payments db) = None.
Proof.
  unfold payments_with_hash; intros Hnil.
  apply find_none_iff_filter_nil.
  induction (payments db) as [|p l IH]; simpl in *; [reflexivity|].
  destruct (String.eqb (pay_txHash p) h); [discriminate|].
  rewrite andb_false_r; apply IH; exact Hnil.
Qed.

Lemma find_invoice_update (id id' : string) (now : Z) (db : Db) :
  find_invoice id (update_invoice_paid id' now db)
  = option_map (fun i => if String.eqb (inv_id i) id' then set_paid now i
                         else i)
               (find_invoice id db).
Proof.
  unfold find_invoice, update_invoice_paid; simpl.
  induction (invoices db) as [|i l IH]; simpl; [reflexivity|].
  destruct (String.eqb (inv_id i) id') eqn:Hid'; simpl;
    destruct (String.eqb (inv_id i) id) eqn:Hid; simpl;
    try rewrite Hid'; try reflexivity; exact IH.
Qed.

(** *** What one application of a payment processor does *)

Lemma push_fill_gas_keeps (prov : Provider)
  (e e' : PushChainIndexer.PaymentEvent) :
  PushChainIndexer.fill_gas prov e = Some e' ->
  PushChainIndexer.invoiceId e' = PushChainIndexer.invoiceId e
  /\ PushChainIndexer.txHash e' = PushChainIndexer.txHash e
  /\ PushChainIndexer.amount e' = PushChainIndexer.amount e.
Proof.
  unfold PushChainIndexer.fill_gas.
  destruct (getTransactionReceipt prov _) as [[r|]|]; try discriminate.
  - destruct (getTransaction prov _) as [[tx|]|]; try discriminate.
    + destruct (response_gasPrice tx) as [price|]; try discriminate.
      intros H; inversion H; subst; repeat split; reflexivity.
    + intros H; inversion H; subst; repeat split; reflexivity.
  - intros H; inversion H; subst; repeat split; reflexivity.
Qed.

(** Either the Push Chain processor leaves the store as it is, or it is
    a first recording: the event passed the receipt lookup, no row was
    keyed to it, its invoice exists, and one Payment and one payment
    Transaction row are appended (the invoice rewritten when the amount
    covers it). *)
Lemma push_payment_effect (cfg : PushChainConfig) (prov : Provider) (now : Z)
  (e : PushChainIndexer.PaymentEvent) (db : Db) :
  let db' := PushChainIndexer.processPaymentEvent cfg prov now e db in
  db' = db
  \/ exists e' invoice,
       PushChainIndexer.fill_gas prov e = Some e'
       /\ payment_rows "push-chain" (PushChainIndexer.txHash e) db = []
       /\ find_invoice (PushChainIndexer.invoiceId e) db = Some invoice
       /\ payments db' = payments db ++ [PushChainIndexer.payment_row now e']
       /\ transactions db'
          = transactions db
            ++ [PushChainIndexer.payment_transaction_row cfg now invoice e']
       /\ invoices db'
          = if PushChainIndexer.amount_covers (PushChainIndexer.amount e)
                 (inv_amount invoice)
            then invoices
                   (update_invoice_paid (PushChainIndexer.invoiceId e) now db)
            else invoices db.
Proof.
  intros db'; subst db'; unfold PushChainIndexer.processPaymentEvent.
  destruct (PushChainIndexer.fill_gas prov e) as [e'|] eqn:Hgas;
    [|left; reflexivity].
  destruct (push_fill_gas_keeps prov e e' Hgas) as (Hid & Hhash & Hamt).
  rewrite Hid, Hhash, Hamt.
  destruct (find _ (payments db)) eqn:Hfind; [left; reflexivity|].
  destruct (find_invoice _ db) as [invoice|] eqn:Hinv; [|left; reflexivity].
  right; exists e', invoice.
  apply push_lookup_is_keyed in Hfind.
  repeat split; try assumption; try reflexivity;
    destruct (PushChainIndexer.amount_covers _ _); reflexivity.
Qed.


(** *** Deliveries of other transactions leave a hash alone *)






(** *** A PaymentReceived event applied twice *)


Lemma push_replay (cfg : PushChainConfig) (prov : Provider) (now : Z)
  (e : PushChainIndexer.PaymentEvent) (db : Db) :
  payment_rows "push-chain" (PushChainIndexer.txHash e) db <> [] ->
  PushChainIndexer.processPaymentEvent cfg prov now e db = db.
Proof.
  intros Hseen.
  destruct (push_payment_effect cfg prov now e db)
    as [Hsame|(e' & invoice & _ & Hnil & _)]; [exact Hsame | contradiction].
Qed.







(** *** JavaScript numbers *)

Lemma Qred_inject_Z (n : Z) : Qred (inject_Z n) = inject_Z n.
Proof.
  pose proof (Qred_correct (inject_Z n)) as Heq.
  pose proof (gcd_Qred (inject_Z n)) as Hgcd.
  destruct (Qred (inject_Z n)) as [a b]; unfold Qeq in Heq; simpl in *.
  rewrite Z.mul_1_r in Heq; subst a.
  rewrite Z.gcd_comm, (Z.mul_comm n), Z.gcd_mul_diag_l in Hgcd by lia.
  unfold inject_Z; inversion Hgcd; subst; f_equal; lia.
Qed.

Lemma Qred_idempotent (q : Q) : Qred (Qred q) = Qred q.
Proof. apply Qred_complete, Qred_correct. Qed.

Lemma dyadic_reduced (m e : Z) :
  Qred (JsNumber.dyadic m e) = JsNumber.dyadic m e.
Proof. unfold JsNumber.dyadic; apply Qred_idempotent. Qed.

(** The value of [round_pos] is never NaN and is in lowest terms. *)
Lemma round_pos_cases (n d : Z) :
  JsNumber.round_pos n d = JsNumber.PosInf
  \/ exists q, JsNumber.round_pos n d = JsNumber.Finite q /\ Qred q = q.
Proof.
  unfold JsNumber.round_pos.
  destruct (_ <=? _); [left; reflexivity|].
  right; eexists; split; [reflexivity | apply dyadic_reduced].
Qed.

Lemma Qopp_opp (q : Q) : Qopp (Qopp q) = q.
Proof.
  destruct q as [n d]; unfold Qopp; simpl.
  rewrite Z.opp_involutive; reflexivity.
Qed.

Lemma negate_round_pos (n d : Z) :
  JsNumber.negate (JsNumber.negate (JsNumber.round_pos n d))
  = JsNumber.round_pos n d.
Proof.
  destruct (round_pos_cases n d) as [H|(q & H & Hred)]; rewrite H.
  - reflexivity.
  - unfold JsNumber.negate.
    rewrite (Qred_opp q), Hred, Qopp_opp, Hred; reflexivity.
Qed.

Lemma of_Q_opp (q : Q) :
  JsNumber.of_Q (Qopp q) = JsNumber.negate (JsNumber.of_Q q).
Proof.
  unfold JsNumber.of_Q; rewrite Qred_opp.
  destruct (Qred q) as [n d]; destruct n as [|p|p]; simpl.
  - reflexivity.
  - reflexivity.
  - symmetry; apply negate_round_pos.
Qed.

Lemma of_Q_proper (p q : Q) : p == q -> JsNumber.of_Q p = JsNumber.of_Q q.
Proof.
  intros Heq; unfold JsNumber.of_Q; rewrite (Qred_complete p q Heq).
  reflexivity.
Qed.

Lemma of_Q_not_NaN (q : Q) : JsNumber.of_Q q <> JsNumber.NaN.
Proof.
  unfold JsNumber.of_Q.
  destruct (Qnum (Qred q)) as [|p|p]; try discriminate.
  - destruct (round_pos_cases (Z.pos p) (Z.pos (Qden (Qred q))))
      as [H|(x & H & _)]; rewrite H; discriminate.
  - destruct (round_pos_cases (Z.pos p) (Z.pos (Qden (Qred q))))
      as [H|(x & H & _)]; rewrite H; discriminate.
Qed.

Lemma ge_refl (x : JsNumber.Number) :
  x <> JsNumber.NaN -> JsNumber.ge x x = true.
Proof.
  destruct x as [| | |q]; simpl; intros H; try reflexivity.
  - contradiction.
  - apply Qle_bool_iff, Qle_refl.
Qed.

(** parseFloat is the rounding of the exact decimal value. *)
Lemma parseFloat_decimal_value (s : string) (q : Q) :
  JsNumber.decimal_value s = Some q ->
  JsNumber.parseFloat s = JsNumber.of_Q q.
Proof.
  unfold JsNumber.decimal_value, JsNumber.parseFloat,
         JsNumber.unsigned_number.
  destruct (JsNumber.signed _) as [minus r].
  destruct (prefix "Infinity" r); [discriminate|].
  destruct (JsNumber.unsigned_literal r) as [u|]; [|discriminate].
  simpl; intros H; inversion H; subst q.
  destruct minus; [symmetry; apply of_Q_opp | reflexivity].
Qed.

Lemma shift_pos e : 0 < JsNumber.shift e.
Proof. unfold JsNumber.shift; apply Z.pow_pos_nonneg; lia. Qed.

Lemma shift_step (e k : Z) :
  0 <= k ->
  JsNumber.shift (e + k) * JsNumber.shift (- e)
  = 2 ^ k * JsNumber.shift e * JsNumber.shift (- (e + k)).
Proof.
  intros Hk; unfold JsNumber.shift.
  destruct (Z.le_gt_cases 0 e) as [He|He].
  - replace (Z.max 0 e) with e by lia.
    replace (Z.max 0 (e + k)) with (e + k) by lia.
    replace (Z.max 0 (- e)) with 0 by lia.
    replace (Z.max 0 (- (e + k))) with 0 by lia.
    rewrite Z.pow_add_r by lia; change (2 ^ 0) with 1; ring.
  - destruct (Z.le_gt_cases 0 (e + k)) as [Hek|Hek].
    + replace (Z.max 0 (e + k)) with (e + k) by lia.
      replace (Z.max 0 (- e)) with (- e) by lia.
      replace (Z.max 0 e) with 0 by lia.
      replace (Z.max 0 (- (e + k))) with 0 by lia.
      rewrite <- Z.pow_add_r by lia.
      replace (e + k + - e) with k by lia; change (2 ^ 0) with 1; ring.
    + replace (Z.max 0 (e + k)) with 0 by lia.
      replace (Z.max 0 (- e)) with (- e) by lia.
      replace (Z.max 0 e) with 0 by lia.
      replace (Z.max 0 (- (e + k))) with (- (e + k)) by lia.
      change (2 ^ 0) with 1.
      rewrite Z.mul_1_l, Z.mul_1_r, <- Z.pow_add_r by lia.
      f_equal; lia.
Qed.

Lemma round_half_even_cases (n d : Z) :
  0 < d ->
  let q := n / d in let r := n mod d in
  (JsNumber.round_half_even n d = q /\ 2 * r <= d)
  \/ (JsNumber.round_half_even n d = q + 1 /\ d <= 2 * r).
Proof.
  intros Hd q r; unfold JsNumber.round_half_even; fold q; fold r.
  destruct (Z.ltb_spec (2 * r) d); [left; split; lia|].
  destruct (Z.ltb_spec d (2 * r)); [right; split; lia|].
  destruct (Z.even q); [left | right]; split; lia.
Qed.

Lemma round_half_even_lower (n d a : Z) :
  0 < d -> a * d <= n -> a <= JsNumber.round_half_even n d.
Proof.
  intros Hd Ha.
  assert (Hq : a <= n / d) by (apply Z.div_le_lower_bound; lia).
  destruct (round_half_even_cases n d Hd) as [[H _]|[H _]]; rewrite H; lia.
Qed.

Lemma round_half_even_upper (n d b : Z) :
  0 < d -> n <= b * d -> JsNumber.round_half_even n d <= b.
Proof.
  intros Hd Hb.
  pose proof (Z.div_mod n d ltac:(lia)) as Hdm.
  pose proof (Z.mod_pos_bound n d Hd) as Hr.
  destruct (round_half_even_cases n d Hd) as [[H _]|[H Hhalf]]; rewrite H.
  - assert (n / d * d <= b * d) by nia. nia.
  - assert (0 < n mod d) by lia.
    assert (n / d * d < b * d) by nia. nia.
Qed.

Lemma round_half_even_mono (n d n' d' : Z) :
  0 < d -> 0 < d' -> n * d' <= n' * d ->
  JsNumber.round_half_even n d <= JsNumber.round_half_even n' d'.
Proof.
  intros Hd Hd' Hle.
  pose proof (Z.div_mod n d ltac:(lia)) as Hdm.
  pose proof (Z.mod_pos_bound n d Hd) as Hr.
  pose proof (Z.div_mod n' d' ltac:(lia)) as Hdm'.
  pose proof (Z.mod_pos_bound n' d' Hd') as Hr'.
  assert (Hq : n / d <= n' / d').
  { apply Z.div_le_lower_bound; [lia|].
    assert (d * (d' * (n / d)) <= d * n') by nia.
    nia. }
  destruct (Z.eq_dec (n / d) (n' / d')) as [Heq|Hne].
  - assert (Hfrac : (n mod d) * d' <= (n' mod d') * d) by nia.
    unfold JsNumber.round_half_even; rewrite <- Heq.
    destruct (Z.ltb_spec (2 * (n mod d)) d).
    + destruct (Z.ltb_spec (2 * (n' mod d')) d'); [lia|].
      destruct (Z.ltb_spec d' (2 * (n' mod d'))); [lia|].
      destruct (Z.even (n / d)); lia.
    + destruct (Z.ltb_spec d (2 * (n mod d))).
      * assert (d' < 2 * (n' mod d')) by nia.
        destruct (Z.ltb_spec (2 * (n' mod d')) d'); [lia|].
        destruct (Z.ltb_spec d' (2 * (n' mod d'))); lia.
      * assert (d' <= 2 * (n' mod d')) by nia.
        destruct (Z.ltb_spec (2 * (n' mod d')) d'); [lia|].
        destruct (Z.ltb_spec d' (2 * (n' mod d'))); [|lia].
        destruct (Z.even (n / d)); lia.
  - destruct (round_half_even_cases n d Hd) as [[H _]|[H _]];
      destruct (round_half_even_cases n' d' Hd') as [[H' _]|[H' _]];
      rewrite H, H'; lia.
Qed.

Lemma pow2_53 : 2 ^ 53 = 2 * 2 ^ 52.
Proof. reflexivity. Qed.

Lemma div_lt_iff (a b c : Z) : 0 < b -> (a / b < c <-> a < c * b).
Proof.
  intros Hb; split; intros H.
  - pose proof (Z.mul_succ_div_gt a b Hb). nia.
  - apply Z.div_lt_upper_bound; lia.
Qed.

(** The exponent before it is clipped to that of the subnormals puts the
    quotient in [2^52, 2^53). *)
Lemma exponent_binade (n d : Z) :
  0 < n -> 0 < d ->
  exists E,
    JsNumber.binary64_exponent n d = Z.max E (-1074)
    /\ 2 ^ 52 * (d * JsNumber.shift E) <= n * JsNumber.shift (- E)
    /\ n * JsNumber.shift (- E) < 2 ^ 53 * (d * JsNumber.shift E).
Proof.
  intros Hn Hd.
  pose proof (Z.log2_spec n Hn) as [Hn1 Hn2].
  pose proof (Z.log2_spec d Hd) as [Hd1 Hd2].
  pose proof (Z.log2_nonneg n) as Hln.
  pose proof (Z.log2_nonneg d) as Hld.
  rewrite Z.pow_succ_r in Hn2, Hd2 by assumption.
  unfold JsNumber.binary64_exponent.
  set (e0 := Z.log2 n - Z.log2 d - 52).
  assert (G : 2 ^ Z.log2 n * JsNumber.shift (- e0)
              = JsNumber.shift e0 * 2 ^ Z.log2 d * 2 ^ 52).
  { unfold JsNumber.shift.
    destruct (Z.le_gt_cases 0 e0) as [He|He].
    - replace (Z.max 0 e0) with e0 by lia.
      replace (Z.max 0 (- e0)) with 0 by lia.
      rewrite <- !Z.pow_add_r by lia; f_equal; lia.
    - replace (Z.max 0 e0) with 0 by lia.
      replace (Z.max 0 (- e0)) with (- e0) by lia.
      rewrite <- !Z.pow_add_r by lia; f_equal; lia. }
  pose proof (shift_pos e0) as Hs0.
  pose proof (shift_pos (- e0)) as Hsm0.
  set (P := 2 ^ 52) in *.
  assert (HP : 0 < P) by (unfold P; lia).
  rewrite pow2_53; fold P.
  assert (Hup : n * JsNumber.shift (- e0)
                < 2 * P * (d * JsNumber.shift e0)) by nia.
  assert (Hlow : P * (d * JsNumber.shift e0)
                 < 2 * (n * JsNumber.shift (- e0))) by nia.
  destruct (Z.ltb_spec
              (n * JsNumber.shift (- e0) / (d * JsNumber.shift e0)) P)
    as [Hb|Hb].
  - exists (e0 - 1); split; [reflexivity|].
    apply div_lt_iff in Hb; [|nia].
    pose proof (shift_step (e0 - 1) 1 ltac:(lia)) as Hstep.
    replace (e0 - 1 + 1) with e0 in Hstep by lia.
    change (2 ^ 1) with 2 in Hstep.
    pose proof (shift_pos (e0 - 1)) as Hs1.
    pose proof (shift_pos (- (e0 - 1))) as Hsm1.
    split.
    + apply (Z.mul_le_mono_pos_r _ _ (JsNumber.shift e0) Hs0). nia.
    + apply (Z.mul_lt_mono_pos_r (JsNumber.shift e0) _ _ Hs0). nia.
  - exists e0; split; [reflexivity|].
    split; [|lia].
    assert (~ (n * JsNumber.shift (- e0) / (d * JsNumber.shift e0) < P))
      as Hnb by lia.
    rewrite div_lt_iff in Hnb by nia. lia.
Qed.

Lemma pow2_ge_2 (k : Z) : 1 <= k -> 2 <= 2 ^ k.
Proof.
  intros Hk; change 2 with (2 ^ 1) at 1.
  apply Z.pow_le_mono_r; lia.
Qed.

Lemma pow2_ge_1 (k : Z) : 0 <= k -> 1 <= 2 ^ k.
Proof.
  intros Hk; change 1 with (2 ^ 0) at 1.
  apply Z.pow_le_mono_r; lia.
Qed.

(** Binades are ordered like the values in them. *)
Lemma binade_order (n d n' d' E E' : Z) :
  0 < n -> 0 < d -> 0 < n' -> 0 < d' ->
  n * d' <= n' * d ->
  2 ^ 52 * (d * JsNumber.shift E) <= n * JsNumber.shift (- E) ->
  n' * JsNumber.shift (- E') < 2 ^ 53 * (d' * JsNumber.shift E') ->
  E <= E'.
Proof.
  intros Hn Hd Hn' Hd' Hle Hlow Hup.
  destruct (Z.le_gt_cases E E') as [|Hgt]; [assumption|exfalso].
  pose proof (shift_step E' (E - E') ltac:(lia)) as Hstep.
  replace (E' + (E - E')) with E in Hstep by lia.
  pose proof (pow2_ge_2 (E - E') ltac:(lia)) as Hk.
  pose proof (shift_pos E) as H1. pose proof (shift_pos (- E)) as H2.
  pose proof (shift_pos E') as H3. pose proof (shift_pos (- E')) as H4.
  rewrite pow2_53 in Hup.
  set (P := 2 ^ 52) in *. assert (HP : 0 < P) by (unfold P; lia).
  set (K := 2 ^ (E - E')) in *.
  set (sE := JsNumber.shift E) in *. set (smE := JsNumber.shift (- E)) in *.
  set (sE' := JsNumber.shift E') in *. set (smE' := JsNumber.shift (- E')) in *.
  assert (A1 : P * (d * sE) * (d' * smE') <= n * smE * (d' * smE')).
  { apply Z.mul_le_mono_nonneg_r; [nia | exact Hlow]. }
  assert (A2 : n * smE * (d' * smE') <= n' * d * (smE * smE')).
  { replace (n * smE * (d' * smE')) with (n * d' * (smE * smE')) by ring.
    apply Z.mul_le_mono_nonneg_r; [nia | exact Hle]. }
  assert (A3 : n' * d * (smE * smE') < 2 * P * (d' * sE') * (d * smE)).
  { replace (n' * d * (smE * smE')) with (n' * smE' * (d * smE)) by ring.
    apply Z.mul_lt_mono_pos_r; [nia | exact Hup]. }
  assert (A4 : P * (d * sE) * (d' * smE')
               = K * (P * d * d' * (sE' * smE))).
  { replace (P * (d * sE) * (d' * smE')) with (P * d * d' * (sE * smE'))
      by ring.
    rewrite Hstep; ring. }
  assert (A5 : 2 * P * (d' * sE') * (d * smE)
               = 2 * (P * d * d' * (sE' * smE))) by ring.
  assert (HT : 0 < P * d * d' * (sE' * smE)) by nia.
  nia.
Qed.

(** The rounded value m * 2^e is monotone in the rational rounded. *)
Lemma rounded_value_mono (n d n' d' : Z) :
  0 < n -> 0 < d -> 0 < n' -> 0 < d' ->
  n * d' <= n' * d ->
  let e := JsNumber.binary64_exponent n d in
  let e' := JsNumber.binary64_exponent n' d' in
  JsNumber.significand n d e * JsNumber.shift e * JsNumber.shift (- e')
  <= JsNumber.significand n' d' e' * JsNumber.shift e' * JsNumber.shift (- e).
Proof.
  intros Hn Hd Hn' Hd' Hle e e'.
  destruct (exponent_binade n d Hn Hd) as (E & He & Hlow & Hup).
  destruct (exponent_binade n' d' Hn' Hd') as (E' & He' & Hlow' & Hup').
  fold e in He; fold e' in He'.
  pose proof (binade_order n d n' d' E E' Hn Hd Hn' Hd' Hle Hlow Hup') as HE.
  pose proof (shift_pos e) as H1. pose proof (shift_pos (- e)) as H2.
  pose proof (shift_pos e') as H3. pose proof (shift_pos (- e')) as H4.
  pose proof (shift_pos E) as H5. pose proof (shift_pos (- E)) as H6.
  unfold JsNumber.significand.
  destruct (Z.eq_dec e e') as [Heq|Hne].
  - rewrite <- Heq.
    apply Z.mul_le_mono_nonneg_r; [lia|].
    apply Z.mul_le_mono_nonneg_r; [lia|].
    apply round_half_even_mono; [nia | nia |].
    replace (n * JsNumber.shift (- e) * (d' * JsNumber.shift e))
      with (n * d' * (JsNumber.shift (- e) * JsNumber.shift e)) by ring.
    replace (n' * JsNumber.shift (- e) * (d * JsNumber.shift e))
      with (n' * d * (JsNumber.shift (- e) * JsNumber.shift e)) by ring.
    apply Z.mul_le_mono_nonneg_r; [nia | exact Hle].
  - assert (Hlt : e < e') by lia.
    assert (HE' : e' = E') by lia.
    rewrite pow2_53 in Hup.
    set (P := 2 ^ 52) in *. assert (HP : 0 < P) by (unfold P; lia).
    assert (Hm' : P <= JsNumber.round_half_even
                         (n' * JsNumber.shift (- e'))
                         (d' * JsNumber.shift e')).
    { apply round_half_even_lower; [nia|]. rewrite HE'; lia. }
    assert (Hm : JsNumber.round_half_even
                   (n * JsNumber.shift (- e)) (d * JsNumber.shift e)
                 <= 2 * P).
    { apply round_half_even_upper; [nia|].
      pose proof (shift_step E (e - E) ltac:(lia)) as Hstep.
      replace (E + (e - E)) with e in Hstep by lia.
      pose proof (pow2_ge_1 (e - E) ltac:(lia)) as Hk.
      set (K := 2 ^ (e - E)) in *.
      apply (Z.mul_le_mono_pos_r _ _ (JsNumber.shift E) H5).
      assert (B1 : n * JsNumber.shift (- e) * JsNumber.shift E * K
                   = n * JsNumber.shift (- E) * JsNumber.shift e).
      { replace (n * JsNumber.shift (- e) * JsNumber.shift E * K)
          with (n * (K * JsNumber.shift E * JsNumber.shift (- e))) by ring.
        rewrite <- Hstep; ring. }
      assert (B2 : n * JsNumber.shift (- E) * JsNumber.shift e
                   < 2 * P * (d * JsNumber.shift E) * JsNumber.shift e).
      { apply Z.mul_lt_mono_pos_r; [lia | exact Hup]. }
      assert (B3 : 0 <= n * JsNumber.shift (- e) * JsNumber.shift E) by nia.
      nia. }
    pose proof (shift_step e (e' - e) ltac:(lia)) as Hstep.
    replace (e + (e' - e)) with e' in Hstep by lia.
    pose proof (pow2_ge_2 (e' - e) ltac:(lia)) as Hk.
    set (K := 2 ^ (e' - e)) in *.
    set (m := JsNumber.round_half_even
                (n * JsNumber.shift (- e)) (d * JsNumber.shift e)) in *.
    set (m' := JsNumber.round_half_even
                 (n' * JsNumber.shift (- e')) (d' * JsNumber.shift e')) in *.
    replace (m' * JsNumber.shift e' * JsNumber.shift (- e))
      with (m' * K * (JsNumber.shift e * JsNumber.shift (- e'))).
    + replace (m * JsNumber.shift e * JsNumber.shift (- e'))
        with (m * (JsNumber.shift e * JsNumber.shift (- e'))) by ring.
      apply Z.mul_le_mono_nonneg_r; nia.
    + replace (m' * JsNumber.shift e' * JsNumber.shift (- e))
        with (m' * (JsNumber.shift e' * JsNumber.shift (- e))) by ring.
      rewrite Hstep; ring.
Qed.

Lemma round_pos_mono (n d n' d' : Z) :
  0 < n -> 0 < d -> 0 < n' -> 0 < d' ->
  n * d' <= n' * d ->
  JsNumber.ge (JsNumber.round_pos n' d') (JsNumber.round_pos n d) = true.
Proof.
  intros Hn Hd Hn' Hd' Hle.
  pose proof (rounded_value_mono n d n' d' Hn Hd Hn' Hd' Hle) as Hval.
  cbv zeta in Hval; unfold JsNumber.round_pos.
  set (e := JsNumber.binary64_exponent n d) in *.
  set (e' := JsNumber.binary64_exponent n' d') in *.
  set (m := JsNumber.significand n d e) in *.
  set (m' := JsNumber.significand n' d' e') in *.
  pose proof (shift_pos e) as H1. pose proof (shift_pos (- e)) as H2.
  pose proof (shift_pos e') as H3. pose proof (shift_pos (- e')) as H4.
  destruct (Z.leb_spec (2 ^ 1024 * JsNumber.shift (- e'))
              (m' * JsNumber.shift e')) as [Hinf'|Hfin'].
  - destruct (2 ^ 1024 * JsNumber.shift (- e) <=? m * JsNumber.shift e);
      reflexivity.
  - destruct (Z.leb_spec (2 ^ 1024 * JsNumber.shift (- e))
                (m * JsNumber.shift e)) as [Hinf|Hfin].
    + exfalso.
      assert (C1 : 2 ^ 1024 * JsNumber.shift (- e) * JsNumber.shift (- e')
                   <= m * JsNumber.shift e * JsNumber.shift (- e')).
      { apply Z.mul_le_mono_nonneg_r; [lia | exact Hinf]. }
      assert (C2 : m' * JsNumber.shift e' * JsNumber.shift (- e)
                   < 2 ^ 1024 * JsNumber.shift (- e') * JsNumber.shift (- e)).
      { apply Z.mul_lt_mono_pos_r; [lia | exact Hfin']. }
      lia.
    + unfold JsNumber.ge, JsNumber.dyadic.
      apply Qle_bool_iff, Qred_le; unfold Qle; simpl.
      rewrite !Z2Pos.id by assumption; exact Hval.
Qed.

(** Rounding to binary64 keeps the order of positive values. *)
Lemma of_Q_mono (p q : Q) :
  (0 < p)%Q -> (p <= q)%Q ->
  JsNumber.ge (JsNumber.of_Q q) (JsNumber.of_Q p) = true.
Proof.
  intros Hp Hpq.
  assert (Hq : (0 < q)%Q) by (eapply Qlt_le_trans; eassumption).
  apply Qred_lt in Hp; apply Qred_lt in Hq; apply Qred_le in Hpq.
  unfold JsNumber.of_Q.
  destruct (Qred p) as [np dp]; destruct (Qred q) as [nq dq].
  unfold Qlt, Qle in *; simpl in *.
  destruct np as [|np|np]; try lia.
  destruct nq as [|nq|nq]; try lia.
  apply round_pos_mono; lia.
Qed.

Lemma round_pos_integer (n : Z) :
  0 < n < 2 ^ 53 ->
  JsNumber.round_pos n 1 = JsNumber.Finite (inject_Z n).
Proof.
  intros [Hpos Hlt].
  destruct (exponent_binade n 1 Hpos ltac:(lia)) as (E & He & Hlow & Hup).
  rewrite pow2_53 in Hlt, Hup.
  set (P := 2 ^ 52) in *. assert (HP : 0 < P) by (unfold P; lia).
  assert (HE0 : E <= 0).
  { destruct (Z.le_gt_cases E 0) as [|Hgt]; [assumption|exfalso].
    unfold JsNumber.shift in Hlow.
    replace (Z.max 0 E) with E in Hlow by lia.
    replace (Z.max 0 (- E)) with 0 in Hlow by lia.
    change (2 ^ 0) with 1 in Hlow.
    pose proof (pow2_ge_2 E ltac:(lia)). nia. }
  assert (HE52 : -52 <= E).
  { destruct (Z.le_gt_cases (-52) E) as [|Hgt]; [assumption|exfalso].
    unfold JsNumber.shift in Hup.
    replace (Z.max 0 E) with 0 in Hup by lia.
    replace (Z.max 0 (- E)) with (- E) in Hup by lia.
    change (2 ^ 0) with 1 in Hup.
    assert (Hpw : 2 ^ 53 <= 2 ^ (- E)) by (apply Z.pow_le_mono_r; lia).
    rewrite pow2_53 in Hpw; fold P in Hpw. nia. }
  unfold JsNumber.round_pos, JsNumber.significand, JsNumber.dyadic.
  rewrite He; replace (Z.max E (-1074)) with E by lia.
  unfold JsNumber.shift.
  replace (Z.max 0 E) with 0 by lia.
  replace (Z.max 0 (- E)) with (- E) by lia.
  change (2 ^ 0) with 1; rewrite !Z.mul_1_r.
  unfold JsNumber.round_half_even.
  rewrite Z.mod_1_r, Z.div_1_r; cbn [Z.mul Z.ltb Z.compare].
  assert (Hk : 0 < 2 ^ (- E)) by (apply Z.pow_pos_nonneg; lia).
  assert (Hbig : 2 ^ 53 < 2 ^ 1024) by (apply Z.pow_lt_mono_r; lia).
  rewrite pow2_53 in Hbig; fold P in Hbig.
  destruct (Z.leb_spec (2 ^ 1024 * 2 ^ (- E)) (n * 2 ^ (- E))); [nia|].
  f_equal; rewrite <- (Qred_inject_Z n); apply Qred_complete.
  unfold Qeq, inject_Z; simpl.
  rewrite Z2Pos.id by exact Hk; lia.
Qed.

Lemma of_Q_integer (n : Z) :
  0 <= n < 2 ^ 53 ->
  JsNumber.of_Q (inject_Z n) = JsNumber.Finite (inject_Z n).
Proof.
  intros Hn; unfold JsNumber.of_Q; rewrite Qred_inject_Z; simpl.
  destruct n as [|p|p].
  - reflexivity.
  - apply round_pos_integer; lia.
  - lia.
Qed.

Lemma parseFloat_integer (s : string) (q : Q) (n : Z) :
  JsNumber.decimal_value s = Some q -> q == inject_Z n ->
  0 <= n < 2 ^ 53 ->
  JsNumber.parseFloat s = JsNumber.Finite (inject_Z n).
Proof.
  intros Hval Heq Hn.
  rewrite (parseFloat_decimal_value s q Hval), (of_Q_proper _ _ Heq).
  apply of_Q_integer; exact Hn.
Qed.

(** *** Amounts are compared and added as binary64 numbers *)

(** A payment that covers a positive invoice amount exactly also covers
    it after rounding. *)
Lemma amount_covers_exact (a b : string) (qa qb : Q) :
  JsNumber.decimal_value a = Some qa ->
  JsNumber.decimal_value b = Some qb ->
  (0 < qb)%Q -> (qb <= qa)%Q ->
  PushChainIndexer.amount_covers a b = true.
Proof.
  intros Ha Hb Hpos Hle; unfold PushChainIndexer.amount_covers.
  rewrite (parseFloat_decimal_value a qa Ha),
          (parseFloat_decimal_value b qb Hb).
  apply of_Q_mono; assumption.
Qed.

Lemma amount_covers_integers (a b : string) (qa qb : Q) (na nb : Z) :
  JsNumber.decimal_value a = Some qa ->
  JsNumber.decimal_value b = Some qb ->
  qa == inject_Z na -> qb == inject_Z nb ->
  0 <= na < 2 ^ 53 -> 0 <= nb < 2 ^ 53 ->
  PushChainIndexer.amount_covers a b = (nb <=? na).
Proof.
  intros Ha Hb Hqa Hqb Hna Hnb; unfold PushChainIndexer.amount_covers.
  rewrite (parseFloat_integer a qa na Ha Hqa Hna),
          (parseFloat_integer b qb nb Hb Hqb Hnb).
  unfold JsNumber.ge, Qle_bool, inject_Z; simpl.
  rewrite !Z.mul_1_r; reflexivity.
Qed.

Lemma totalFee_integers (a b : string) (qa qb : Q) (na nb : Z) :
  JsNumber.decimal_value a = Some qa ->
  JsNumber.decimal_value b = Some qb ->
  qa == inject_Z na -> qb == inject_Z nb ->
  0 <= na -> 0 <= nb -> na + nb < 2 ^ 53 ->
  PushChainIndexer.totalFee a b
  = JsNumber.toString (JsNumber.Finite (inject_Z (na + nb))).
Proof.
  intros Ha Hb Hqa Hqb Hna Hnb Hsum; unfold PushChainIndexer.totalFee.
  rewrite (parseFloat_integer a qa na Ha Hqa ltac:(lia)),
          (parseFloat_integer b qb nb Hb Hqb ltac:(lia)).
  unfold JsNumber.add.
  rewrite (of_Q_proper (inject_Z na + inject_Z nb) (inject_Z (na + nb))).
  - rewrite of_Q_integer by lia; reflexivity.
  - rewrite inject_Z_plus; reflexivity.
Qed.

(** C8, as found in the code.  The threshold comparison and the fee
    total are taken on the binary64 roundings of the decimal values of
    the strings (parseFloat).  Rounding keeps the order, so the
    comparison holds whenever the payment covers a positive invoice
    amount exactly; comparison and total coincide with exact decimal
    arithmetic when the values are non-negative integers below 2^53
    (and, for the total, when the sum is below 2^53 as well). *)
Theorem amounts_are_binary64 :
  forall (a b : string) (qa qb : Q),
    JsNumber.decimal_value a = Some qa ->
    JsNumber.decimal_value b = Some qb ->
    (PushChainIndexer.amount_covers a b
     = JsNumber.ge (JsNumber.of_Q qa) (JsNumber.of_Q qb)
     /\ PushChainIndexer.totalFee a b
        = JsNumber.toString
            (JsNumber.add (JsNumber.of_Q qa) (JsNumber.of_Q qb)))
    /\ ((0 < qb)%Q -> (qb <= qa)%Q ->
        PushChainIndexer.amount_covers a b = true)
    /\ forall na nb : Z,
        qa == inject_Z na -> qb == inject_Z nb ->
        0 <= na < 2 ^ 53 -> 0 <= nb < 2 ^ 53 ->
        PushChainIndexer.amount_covers a b = (nb <=? na)
        /\ (na + nb < 2 ^ 53 ->
            PushChainIndexer.totalFee a b
            = JsNumber.toString (JsNumber.Finite (inject_Z (na + nb)))).
Proof.
  intros a b qa qb Ha Hb; split; [|split].
  - unfold PushChainIndexer.amount_covers, PushChainIndexer.totalFee.
    rewrite (parseFloat_decimal_value a qa Ha),
            (parseFloat_decimal_value b qb Hb); split; reflexivity.
  - apply (amount_covers_exact a b qa qb Ha Hb).
  - intros na nb Hqa Hqb Hna Hnb; split.
    + apply (amount_covers_integers a b qa qb); assumption.
    + intros Hsum; apply (totalFee_integers a b qa qb); try assumption; lia.
Qed.

Lemma amounts_are_binary64_witness :
  PushChainIndexer.amount_covers "100" "100.00000000" = true
  /\ PushChainIndexer.amount_covers "100.5" "100.25" = true
  /\ PushChainIndexer.totalFee "3" "4.00000000" = "7".
Proof.
  destruct (amounts_are_binary64 "100" "100.00000000"
              (inject_Z 100) (10000000000 # 100000000) eq_refl eq_refl)
    as (_ & _ & Hexact).
  destruct (amounts_are_binary64 "100.5" "100.25"
              (1005 # 10) (10025 # 100) eq_refl eq_refl)
    as (_ & Hcovers & _).
  destruct (amounts_are_binary64 "3" "4.00000000"
              (inject_Z 3) (400000000 # 100000000) eq_refl eq_refl)
    as (_ & _ & Hfee).
  split; [|split].
  - apply (proj1 (Hexact 100 100 ltac:(reflexivity) ltac:(reflexivity)
                    ltac:(lia) ltac:(lia))).
  - apply Hcovers; reflexivity || (unfold Qle; simpl; lia).
  - apply (proj2 (Hfee 3 4 ltac:(reflexivity) ltac:(reflexivity)
                    ltac:(lia) ltac:(lia))).
    lia.
Defined.

(** C8 as stated fails.  The payment 134217728 is below the invoice
    amount 134217728.00000001, yet both round to the binary64 2^27 and
    the comparison holds; and the fee total of 9007199254740992 and 1 is
    stored as 9007199254740992, not as their sum 9007199254740993. *)
Lemma binary64_loses_amount_digits :
  (JsNumber.decimal_value "134217728" = Some (inject_Z 134217728)
   /\ JsNumber.decimal_value "134217728.00000001"
      = Some (13421772800000001 # 100000000)
   /\ (inject_Z 134217728 < 13421772800000001 # 100000000)%Q
   /\ PushChainIndexer.amount_covers "134217728" "134217728.00000001" = true)
  /\
  (JsNumber.decimal_value "9007199254740992"
   = Some (inject_Z 9007199254740992)
   /\ JsNumber.decimal_value "1" = Some (inject_Z 1)
   /\ PushChainIndexer.totalFee "9007199254740992" "1" = "9007199254740992"
   /\ 9007199254740992 + 1 = 9007199254740993).
Proof. vm_compute; repeat split. Qed.

(** *** The paid threshold *)

Lemma amount_covers_equal (a b : string) (qa qb : Q) :
  JsNumber.decimal_value a = Some qa ->
  JsNumber.decimal_value b = Some qb ->
  qa == qb ->
  PushChainIndexer.amount_covers a b = true.
Proof.
  intros Ha Hb Heq; unfold PushChainIndexer.amount_covers.
  rewrite (parseFloat_decimal_value a qa Ha),
          (parseFloat_decimal_value b qb Hb), (of_Q_proper qa qb Heq).
  apply ge_refl, of_Q_not_NaN.
Qed.

Lemma find_invoice_id (id : string) (db : Db) (invoice : Invoice) :
  find_invoice id db = Some invoice -> inv_id invoice = id.
Proof.
  unfold find_invoice; intros Hfind.
  apply find_some in Hfind as [_ Heq]; apply String.eqb_eq; exact Heq.
Qed.

(** C3, as found in the code, for the Push Chain watcher.  A
    PaymentReceived event that passes the receipt lookup, is not yet
    recorded and names an existing invoice always gets its Payment row;
    the invoice is rewritten to paid exactly when
    parseFloat(amount) >= parseFloat(invoice.amount), in particular when
    the two strings denote the same decimal value or the payment covers
    a positive invoice amount, and it is left as it is otherwise, in
    particular when both are integers below 2^53 and the payment is the
    smaller one. *)
Theorem push_payment_threshold :
  forall (cfg : PushChainConfig) (prov : Provider) (now : Z)
         (e e' : PushChainIndexer.PaymentEvent) (db : Db) (invoice : Invoice),
    PushChainIndexer.fill_gas prov e = Some e' ->
    payment_rows "push-chain" (PushChainIndexer.txHash e) db = [] ->
    find_invoice (PushChainIndexer.invoiceId e) db = Some invoice ->
    let db' := PushChainIndexer.processPaymentEvent cfg prov now e db in
    let covers :=
      PushChainIndexer.amount_covers (PushChainIndexer.amount e)
        (inv_amount invoice) in
    payments db' = payments db ++ [PushChainIndexer.payment_row now e']
    /\ (covers = true ->
        find_invoice (PushChainIndexer.invoiceId e) db'
        = Some (set_paid now invoice))
    /\ (covers = false -> invoices db' = invoices db)
    /\ (forall qa qi : Q,
          JsNumber.decimal_value (PushChainIndexer.amount e) = Some qa ->
          JsNumber.decimal_value (inv_amount invoice) = Some qi ->
          (qa == qi -> covers = true)
          /\ ((0 < qi)%Q -> (qi <= qa)%Q -> covers = true)
          /\ (forall na ni : Z,
                qa == inject_Z na -> qi == inject_Z ni ->
                0 <= na < ni -> ni < 2 ^ 53 -> covers = false)).
Proof.
  intros cfg prov now e e' db invoice Hgas Hnew Hinv db' covers.
  destruct (push_payment_effect cfg prov now e db)
    as [Hsame|(e1 & invoice1 & Hgas1 & _ & Hinv1 & Hpay & _ & Hinvs)].
  - exfalso; revert Hsame.
    destruct (push_fill_gas_keeps prov e e' Hgas) as (Hid & Hhash & Hamt).
    unfold PushChainIndexer.processPaymentEvent.
    rewrite Hgas, Hid, Hhash, Hamt,
            (proj2 (push_lookup_is_keyed _ db) Hnew), Hinv.
    intros Habs; apply (f_equal transactions) in Habs; revert Habs.
    destruct (PushChainIndexer.amount_covers _ _); simpl;
      intros Habs; apply (f_equal (@List.length Transaction)) in Habs;
      rewrite List.length_app in Habs; simpl in Habs; lia.
  - rewrite Hgas in Hgas1; inversion Hgas1; subst e1.
    rewrite Hinv in Hinv1; inversion Hinv1; subst invoice1.
    fold db' in Hpay, Hinvs; fold covers in Hinvs.
    split; [exact Hpay|].
    split; [|split].
    + intros Hcov; rewrite Hcov in Hinvs.
      unfold find_invoice in *; rewrite Hinvs.
      fold (find_invoice (PushChainIndexer.invoiceId e)
              (update_invoice_paid (PushChainIndexer.invoiceId e) now db)).
      rewrite find_invoice_update; unfold find_invoice; rewrite Hinv; simpl.
      fold (find_invoice (PushChainIndexer.invoiceId e) db) in Hinv.
      rewrite (find_invoice_id _ _ _ Hinv), String.eqb_refl; reflexivity.
    + intros Hcov; rewrite Hcov in Hinvs; exact Hinvs.
    + intros qa qi Hqa Hqi; split; [|split].
      * apply (amount_covers_equal _ _ qa qi Hqa Hqi).
      * apply (amount_covers_exact _ _ qa qi Hqa Hqi).
      * intros na ni Hna Hni Hlt Hbound.
        unfold covers.
        rewrite (amount_covers_integers _ _ qa qi na ni Hqa Hqi Hna Hni)
          by lia.
        apply Z.leb_gt; lia.
Qed.

Lemma push_payment_threshold_witness :
  let db' :=
    PushChainIndexer.processPaymentEvent Scenario.cfg Scenario.quiet 1
      (Scenario.push_payment "0xabc" "100") (Scenario.store "100.00000000") in
  payments db'
  = [PushChainIndexer.payment_row 1 (Scenario.push_payment "0xabc" "100")]
  /\ find_invoice Scenario.invoice_id db'
     = Some (set_paid 1 (Scenario.invoice "100.00000000")).
Proof.
  destruct (push_payment_threshold Scenario.cfg Scenario.quiet 1
              (Scenario.push_payment "0xabc" "100")
              (Scenario.push_payment "0xabc" "100")
              (Scenario.store "100.00000000")
              (Scenario.invoice "100.00000000")
              eq_refl eq_refl eq_refl) as (Hrow & Hpaid & _ & _).
  split; [exact Hrow | apply Hpaid; vm_compute; reflexivity].
Defined.

(** C3 as stated fails.  On the Push Chain watcher the payment 134217728
    against the invoice amount 134217728.00000001 is strictly less and
    still turns the invoice to paid; on the Ethereum watcher the payment
    of exactly the invoice amount is recorded and the invoice stays
    pending. *)
Lemma threshold_misses :
  (let db' :=
     PushChainIndexer.processPaymentEvent Scenario.cfg Scenario.quiet 1
       (Scenario.push_payment "0xabc" "134217728")
       (Scenario.store "134217728.00000001") in
   JsNumber.decimal_value "134217728" = Some (inject_Z 134217728)
   /\ JsNumber.decimal_value "134217728.00000001"
      = Some (13421772800000001 # 100000000)
   /\ (inject_Z 134217728 < 13421772800000001 # 100000000)%Q
   /\ List.length (payment_rows "push-chain" "0xabc" db') = 1%nat
   /\ map inv_status (invoices db') = [inv_paid])
  /\
  (let db' :=
     EthereumIndexer.processDirectPaymentEvent 1 Scenario.quiet 1
       (Scenario.ethereum_event 1 "0xabc" "100")
       (Scenario.store "100.00000000") in
   List.length (payment_rows "ethereum" "0xabc" db') = 1%nat
   /\ map inv_status (invoices db') = [inv_pending]).
Proof. vm_compute; repeat split. Qed.

(** *** Invoice status *)

Lemma find_invoice_same_invoices (id : string) (db db' : Db) :
  invoices db' = invoices db -> find_invoice id db' = find_invoice id db.
Proof. unfold find_invoice; intros H; rewrite H; reflexivity. Qed.

(** A delivery changes the invoices only when the Push Chain processor
    records a new payment that covers the invoice amount. *)
Lemma deliver_invoices (cfg : PushChainConfig) (d : Delivery) (db : Db) :
  invoices (deliver cfg d db) = invoices db
  \/ exists prov now e e' invoice,
       d = PushPayment prov now e
       /\ PushChainIndexer.fill_gas prov e = Some e'
       /\ find_invoice (PushChainIndexer.invoiceId e) db = Some invoice
       /\ PushChainIndexer.amount_covers (PushChainIndexer.amount e)
            (inv_amount invoice) = true
       /\ payments (deliver cfg d db)
          = payments db ++ [PushChainIndexer.payment_row now e']
       /\ invoices (deliver cfg d db)
          = invoices
              (update_invoice_paid (PushChainIndexer.invoiceId e) now db).
Proof.
  destruct d as [prov now e|now e|now e|this prov now e|this prov now e];
    simpl; try (left; reflexivity).
  - destruct (push_payment_effect cfg prov now e db)
      as [Hsame|(e' & invoice & Hgas & _ & Hinv & Hpay & _ & Hinvs)].
    + left; rewrite Hsame; reflexivity.
    + destruct (PushChainIndexer.amount_covers _ _) eqn:Hcov.
      * right; exists prov, now, e, e', invoice; repeat split; assumption.
      * left; exact Hinvs.
  - left; apply record_payment_keeps_invoices.
  - left; apply record_payment_keeps_invoices.
Qed.

Lemma paid_survives_delivery (cfg : PushChainConfig) (d : Delivery) (db : Db)
  (id : string) (invoice : Invoice) :
  find_invoice id db = Some invoice -> inv_status invoice = inv_paid ->
  exists invoice',
    find_invoice id (deliver cfg d db) = Some invoice'
    /\ inv_status invoice' = inv_paid.
Proof.
  intros Hfind Hpaid.
  destruct (deliver_invoices cfg d db)
    as [Hsame|(prov & now & e & e' & i & _ & _ & _ & _ & _ & Hinvs)].
  - exists invoice; split; [|exact Hpaid].
    rewrite (find_invoice_same_invoices id db _ Hsame); exact Hfind.
  - rewrite (find_invoice_same_invoices id _ _ Hinvs), find_invoice_update,
            Hfind; simpl.
    eexists; split; [reflexivity|].
    destruct (String.eqb _ _); [reflexivity | exact Hpaid].
Qed.

(** C4, as found in the code.  Over any sequence of deliveries a paid
    invoice stays paid; and a delivery changes an invoice only when the
    Push Chain processor records a new payment whose amount compares >=
    the invoice amount (parseFloat on both). *)
Theorem paid_is_kept_and_needs_a_covering_payment :
  forall cfg : PushChainConfig,
    (forall (ds : list Delivery) (db : Db) (id : string) (invoice : Invoice),
        find_invoice id db = Some invoice ->
        inv_status invoice = inv_paid ->
        exists invoice',
          find_invoice id (deliver_all cfg ds db) = Some invoice'
          /\ inv_status invoice' = inv_paid)
    /\
    (forall (d : Delivery) (db : Db),
        invoices (deliver cfg d db) <> invoices db ->
        exists prov now e e' invoice,
          d = PushPayment prov now e
          /\ PushChainIndexer.fill_gas prov e = Some e'
          /\ find_invoice (PushChainIndexer.invoiceId e) db = Some invoice
          /\ PushChainIndexer.amount_covers (PushChainIndexer.amount e)
               (inv_amount invoice) = true
          /\ payments (deliver cfg d db)
             = payments db ++ [PushChainIndexer.payment_row now e']).
Proof.
  intros cfg; split.
  - induction ds as [|d ds IH]; intros db id invoice Hfind Hpaid.
    + exists invoice; split; assumption.
    + destruct (paid_survives_delivery cfg d db id invoice Hfind Hpaid)
        as (invoice1 & Hfind1 & Hpaid1).
      exact (IH (deliver cfg d db) id invoice1 Hfind1 Hpaid1).
  - intros d db Hchanged.
    destruct (deliver_invoices cfg d db)
      as [Hsame|(prov & now & e & e' & i & Hd & Hgas & Hinv & Hcov & Hpay & _)].
    + contradiction.
    + exists prov, now, e, e', i; repeat split; assumption.
Qed.

Lemma paid_is_kept_witness :
  let paid :=
    PushChainIndexer.processPaymentEvent Scenario.cfg Scenario.quiet 1
      (Scenario.push_payment "0xa" "100") (Scenario.store "100.00000000") in
  let later :=
    [PushPayment Scenario.quiet 2 (Scenario.push_payment "0xb" "1");
     EthereumDirect 1 Scenario.quiet 3
       (Scenario.ethereum_event 1 "0xc" "1")] in
  exists invoice',
    find_invoice Scenario.invoice_id (deliver_all Scenario.cfg later paid)
    = Some invoice'
    /\ inv_status invoice' = inv_paid.
Proof.
  apply (proj1 (paid_is_kept_and_needs_a_covering_payment Scenario.cfg)
           [PushPayment Scenario.quiet 2 (Scenario.push_payment "0xb" "1");
            EthereumDirect 1 Scenario.quiet 3
              (Scenario.ethereum_event 1 "0xc" "1")]
           _ Scenario.invoice_id
           (set_paid 1 (Scenario.invoice "100.00000000"))).
  - vm_compute; reflexivity.
  - reflexivity.
Defined.

(** C4 as stated fails.  A second covering payment of an invoice that is
    already paid rewrites it (paidAt goes from 1 to 2); and the payment
    134217728, strictly below the invoice amount 134217728.00000001,
    triggers the transition. *)
Lemma paid_invoice_is_written_again :
  (let db1 :=
     PushChainIndexer.processPaymentEvent Scenario.cfg Scenario.quiet 1
       (Scenario.push_payment "0xa" "100") (Scenario.store "100.00000000") in
   let db2 :=
     PushChainIndexer.processPaymentEvent Scenario.cfg Scenario.quiet 2
       (Scenario.push_payment "0xb" "100") db1 in
   map inv_status (invoices db1) = [inv_paid]
   /\ map inv_paidAt (invoices db1) = [Some 1]
   /\ map inv_paidAt (invoices db2) = [Some 2])
  /\
  (let db' :=
     PushChainIndexer.processPaymentEvent Scenario.cfg Scenario.quiet 1
       (Scenario.push_payment "0xc" "134217728")
       (Scenario.store "134217728.00000001") in
   (inject_Z 134217728 < 13421772800000001 # 100000000)%Q
   /\ JsNumber.decimal_value "134217728" = Some (inject_Z 134217728)
   /\ JsNumber.decimal_value "134217728.00000001"
      = Some (13421772800000001 # 100000000)
   /\ map inv_status (invoices (Scenario.store "134217728.00000001"))
      = [inv_pending]
   /\ map inv_status (invoices db') = [inv_paid]).
Proof. vm_compute; repeat split. Qed.

(** *** The backfill cursor *)

(** The batch loop of the Ethereum tick has fuel to spare: with
    latestBlock - i + 1 passes allowed it has come to its end. *)
Lemma batches_enough (this : Z) (prov : Provider) (now latestBlock : Z) :
  forall (fuel : nat) (i : Z) (db : Db) (extra : nat),
    latestBlock - i + 1 <= Z.of_nat fuel ->
    EthereumIndexer.batches (fuel + extra) this prov now i latestBlock db
    = EthereumIndexer.batches fuel this prov now i latestBlock db.
Proof.
  induction fuel as [|fuel IH]; intros i db extra Hfuel.
  - simpl; destruct extra as [|extra]; simpl; [reflexivity|].
    destruct (Z.leb_spec i latestBlock); [lia | reflexivity].
  - simpl; destruct (Z.leb_spec i latestBlock); [|reflexivity].
    apply IH; lia.
Qed.

Lemma push_tick_cursor (cfg : PushChainConfig) (prov : Provider) (now : Z)
  (w : PushChainIndexer.Watcher) (db : Db) :
  PushChainIndexer.lastProcessedBlock w
  <= PushChainIndexer.lastProcessedBlock
       (fst (PushChainIndexer.processBlocks cfg prov now w db)).
Proof.
  unfold PushChainIndexer.processBlocks.
  destruct (negb (PushChainIndexer.isRunning w)); simpl; [lia|].
  destruct (getBlockNumber prov) as [latest|]; simpl; [|lia].
  destruct (Z.gtb_spec latest (PushChainIndexer.lastProcessedBlock w));
    simpl; [|lia].
  destruct (PushChainIndexer.processBlockRange _ _ _ _ _ _); simpl; lia.
Qed.

Lemma ethereum_tick_cursor (prov : Provider) (now : Z)
  (w : EthereumIndexer.Watcher) (db : Db) :
  EthereumIndexer.lastProcessedBlock w
  <= EthereumIndexer.lastProcessedBlock
       (fst (EthereumIndexer.processBlocks prov now w db)).
Proof.
  unfold EthereumIndexer.processBlocks.
  destruct (negb (EthereumIndexer.isRunning w)); simpl; [lia|].
  destruct (getBlockNumber prov) as [latest|]; simpl; [|lia].
  destruct (Z.gtb_spec latest (EthereumIndexer.lastProcessedBlock w));
    simpl; lia.
Qed.

Lemma push_ticks_cursor (cfg : PushChainConfig) (ticks : list (Provider * Z)) :
  forall (w : PushChainIndexer.Watcher) (db : Db),
    PushChainIndexer.lastProcessedBlock w
    <= PushChainIndexer.lastProcessedBlock (fst (push_ticks cfg ticks w db)).
Proof.
  induction ticks as [|[prov now] ticks IH]; intros w db.
  - simpl; lia.
  - unfold push_ticks in *; simpl.
    pose proof (push_tick_cursor cfg prov now w db) as Hstep.
    destruct (PushChainIndexer.processBlocks cfg prov now w db) as [w1 db1].
    specialize (IH w1 db1); simpl in *; lia.
Qed.

Lemma ethereum_ticks_cursor (ticks : list (Provider * Z)) :
  forall (w : EthereumIndexer.Watcher) (db : Db),
    EthereumIndexer.lastProcessedBlock w
    <= EthereumIndexer.lastProcessedBlock (fst (ethereum_ticks ticks w db)).
Proof.
  induction ticks as [|[prov now] ticks IH]; intros w db.
  - simpl; lia.
  - unfold ethereum_ticks in *; simpl.
    pose proof (ethereum_tick_cursor prov now w db) as Hstep.
    destruct (EthereumIndexer.processBlocks prov now w db) as [w1 db1].
    specialize (IH w1 db1); simpl in *; lia.
Qed.

Lemma for_each_completes {A : Type} (step : A -> Db -> PushChainIndexer.Outcome)
  (events : list A) :
  Forall (fun a => forall db,
              exists db', step a db = PushChainIndexer.Completed db')
         events ->
  forall db, exists db', PushChainIndexer.for_each step events db
                      = PushChainIndexer.Completed db'.
Proof.
  induction 1 as [|a events Ha _ IH]; intros db; simpl.
  - exists db; reflexivity.
  - destruct (Ha db) as [db1 Hstep]; rewrite Hstep; apply IH.
Qed.

(** With the three range queries answered by decoded logs the range is
    processed to its end, whatever the receipt lookups do. *)
Lemma push_range_completes (cfg : PushChainConfig) (prov : Provider)
  (now fromBlock toBlock : Z) (db : Db)
  (paymentEvents : list (Log PaymentReceivedArgs))
  (withdrawalEvents : list (Log WithdrawalExecutedArgs))
  (feeEvents : list (Log FeeCollectedArgs)) :
  queryPaymentReceived prov fromBlock toBlock = Resolved paymentEvents ->
  queryWithdrawalExecuted prov fromBlock toBlock = Resolved withdrawalEvents ->
  queryFeeCollected prov fromBlock toBlock = Resolved feeEvents ->
  Forall (fun l => log_args l <> None) paymentEvents ->
  Forall (fun l => log_args l <> None) withdrawalEvents ->
  Forall (fun l => log_args l <> None) feeEvents ->
  exists db',
    PushChainIndexer.processBlockRange cfg prov now fromBlock toBlock db
    = PushChainIndexer.Completed db'.
Proof.
  intros Hp Hw Hf Dp Dw Df.
  unfold PushChainIndexer.processBlockRange; rewrite Hp, Hw, Hf.
  destruct (for_each_completes
              (PushChainIndexer.processPaymentEventFromLog cfg prov now)
              paymentEvents) with (db := db) as [db1 H1].
  { eapply Forall_impl; [|exact Dp]; intros l Hl db0; cbv beta in Hl.
    unfold PushChainIndexer.processPaymentEventFromLog.
    destruct (log_args l); [eexists; reflexivity | congruence]. }
  rewrite H1.
  destruct (for_each_completes
              (PushChainIndexer.processWithdrawalEventFromLog cfg now)
              withdrawalEvents) with (db := db1) as [db2 H2].
  { eapply Forall_impl; [|exact Dw]; intros l Hl db0; cbv beta in Hl.
    unfold PushChainIndexer.processWithdrawalEventFromLog.
    destruct (log_args l); [eexists; reflexivity | congruence]. }
  rewrite H2.
  apply for_each_completes.
  eapply Forall_impl; [|exact Df]; intros l Hl db0; cbv beta in Hl.
  unfold PushChainIndexer.processFeeEventFromLog.
  destruct (log_args l); [eexists; reflexivity | congruence].
Qed.

(** C5, as found in the code.  Over any sequence of backfill ticks the
    cursor of a watcher never decreases.  A tick whose block-height query
    is rejected changes neither the watcher nor the store; on the Push
    Chain watcher the same holds for a tick in which one of the three
    range queries is rejected, so that range is asked for again by the
    next tick.  Receipt and transaction lookups are made per event inside
    the processor: whether they are rejected or not, a Push Chain tick
    whose range queries return decoded logs moves the cursor to the
    height it read. *)
Theorem cursor_moves_forward_only :
  forall cfg : PushChainConfig,
    (forall ticks w db,
        PushChainIndexer.lastProcessedBlock w
        <= PushChainIndexer.lastProcessedBlock
             (fst (push_ticks cfg ticks w db)))
    /\ (forall ticks w db,
           EthereumIndexer.lastProcessedBlock w
           <= EthereumIndexer.lastProcessedBlock
                (fst (ethereum_ticks ticks w db)))
    /\ (forall prov now db,
           getBlockNumber prov = Rejected ->
           (forall w, PushChainIndexer.processBlocks cfg prov now w db
                      = (w, db))
           /\ (forall w, EthereumIndexer.processBlocks prov now w db
                         = (w, db)))
    /\ (forall prov now w db latestBlock,
           getBlockNumber prov = Resolved latestBlock ->
           let fromBlock := PushChainIndexer.lastProcessedBlock w + 1 in
           queryPaymentReceived prov fromBlock latestBlock = Rejected
           \/ queryWithdrawalExecuted prov fromBlock latestBlock = Rejected
           \/ queryFeeCollected prov fromBlock latestBlock = Rejected ->
           PushChainIndexer.processBlocks cfg prov now w db = (w, db))
    /\ (forall prov now w db latestBlock paymentEvents withdrawalEvents
               feeEvents,
           PushChainIndexer.isRunning w = true ->
           getBlockNumber prov = Resolved latestBlock ->
           PushChainIndexer.lastProcessedBlock w < latestBlock ->
           let fromBlock := PushChainIndexer.lastProcessedBlock w + 1 in
           queryPaymentReceived prov fromBlock latestBlock
           = Resolved paymentEvents ->
           queryWithdrawalExecuted prov fromBlock latestBlock
           = Resolved withdrawalEvents ->
           queryFeeCollected prov fromBlock latestBlock
           = Resolved feeEvents ->
           Forall (fun l => log_args l <> None) paymentEvents ->
           Forall (fun l => log_args l <> None) withdrawalEvents ->
           Forall (fun l => log_args l <> None) feeEvents ->
           PushChainIndexer.lastProcessedBlock
             (fst (PushChainIndexer.processBlocks cfg prov now w db))
           = latestBlock).
Proof.
  intros cfg; split; [|split; [|split; [|split]]].
  - intros ticks w db; apply push_ticks_cursor.
  - intros ticks w db; apply ethereum_ticks_cursor.
  - intros prov now db Hdown; split; intros w.
    + unfold PushChainIndexer.processBlocks; rewrite Hdown.
      destruct (negb _); reflexivity.
    + unfold EthereumIndexer.processBlocks; rewrite Hdown.
      destruct (negb _); reflexivity.
  - intros prov now w db latest Hup fromBlock Hdown.
    unfold PushChainIndexer.processBlocks; rewrite Hup.
    destruct (negb _); [reflexivity|].
    destruct (latest >? _); [|reflexivity].
    unfold PushChainIndexer.processBlockRange; fold fromBlock.
    destruct Hdown as [Hq|[Hq|Hq]].
    + rewrite Hq; reflexivity.
    + rewrite Hq; destruct (queryPaymentReceived _ _ _); reflexivity.
    + rewrite Hq; destruct (queryPaymentReceived _ _ _);
        [destruct (queryWithdrawalExecuted _ _ _)|]; reflexivity.
  - intros prov now w db latest pl wl fl Hrun Hup Hnew fromBlock
           Hp Hw Hf Dp Dw Df.
    unfold PushChainIndexer.processBlocks; rewrite Hrun, Hup; simpl.
    destruct (Z.gtb_spec latest (PushChainIndexer.lastProcessedBlock w));
      [|lia].
    destruct (push_range_completes cfg prov now fromBlock latest db
                pl wl fl Hp Hw Hf Dp Dw Df) as [db' Hdone].
    fold fromBlock; rewrite Hdone; reflexivity.
Qed.

Lemma cursor_moves_forward_only_witness :
  let w := {| PushChainIndexer.isRunning := true;
              PushChainIndexer.lastProcessedBlock := 5 |} in
  PushChainIndexer.processBlocks Scenario.cfg Scenario.queries_down 1 w
    (Scenario.store "100.00000000")
  = (w, Scenario.store "100.00000000")
  /\ PushChainIndexer.processBlocks Scenario.cfg Scenario.unreachable 1 w
       (Scenario.store "100.00000000")
     = (w, Scenario.store "100.00000000")
  /\ PushChainIndexer.lastProcessedBlock
       (fst (PushChainIndexer.processBlocks Scenario.cfg
               Scenario.receipts_down 1 w (Scenario.store "100.00000000")))
     = 10.
Proof.
  destruct (cursor_moves_forward_only Scenario.cfg)
    as (_ & _ & Hheight & Hrange & Hdone).
  split; [|split].
  - apply (Hrange Scenario.queries_down 1 _ _ 10 eq_refl).
    left; reflexivity.
  - apply (proj1 (Hheight Scenario.unreachable 1
                    (Scenario.store "100.00000000") eq_refl)).
  - apply (Hdone Scenario.receipts_down 1 _ _ 10 [Scenario.payment_log]
             [] []).
    + reflexivity.
    + reflexivity.
    + simpl; lia.
    + reflexivity.
    + reflexivity.
    + reflexivity.
    + repeat constructor; simpl; discriminate.
    + constructor.
    + constructor.
Defined.

(** C5 as stated fails.  A Push Chain tick at height 10 finds the payment
    log of block 7; the receipt lookup for it is rejected, the processor
    drops the event, and the cursor still goes from 5 to 10: the payment
    is in no later range. *)
Lemma rejected_receipt_lookup_does_not_hold_the_cursor :
  let w := {| PushChainIndexer.isRunning := true;
              PushChainIndexer.lastProcessedBlock := 5 |} in
  getTransactionReceipt Scenario.receipts_down "0xabc" = Rejected
  /\ PushChainIndexer.processBlocks Scenario.cfg Scenario.receipts_down 1 w
       (Scenario.store "100.00000000")
     = ({| PushChainIndexer.isRunning := true;
           PushChainIndexer.lastProcessedBlock := 10 |},
        Scenario.store "100.00000000").
Proof. split; reflexivity. Qed.

(** The tick of the Ethereum watcher with every range query rejected:
    processBlockRange swallows the rejections and the cursor goes from 5
    to 10 over ranges that were never read. *)
Example ethereum_tick_passes_over_failed_ranges :
  let w := {| EthereumIndexer.isRunning := true;
              EthereumIndexer.lastProcessedBlock := 5;
              EthereumIndexer.this_chainId := 1 |} in
  EthereumIndexer.processBlocks Scenario.queries_down 1 w
    (Scenario.store "100.00000000")
  = ({| EthereumIndexer.isRunning := true;
        EthereumIndexer.lastProcessedBlock := 10;
        EthereumIndexer.this_chainId := 1 |},
     Scenario.store "100.00000000").
Proof. reflexivity. Qed.

(** *** Decimal strings of integers *)

Lemma take_digits_of_uint (d : Decimal.uint) :
  forall acc cnt,
    JsNumber.take_digits (NilEmpty.string_of_uint d) acc cnt
    = (digits_value d acc, cnt + Z.of_nat (Decimal.nb_digits d), "").
Proof.
  induction d; intros acc cnt; simpl NilEmpty.string_of_uint;
    simpl Decimal.nb_digits;
    try (cbn [JsNumber.take_digits]; 
         change (JsNumber.is_digit _) with true; cbv iota;
         rewrite IHd; f_equal; [f_equal; lia]).
  - simpl. f_equal; f_equal; lia.
Qed.

Lemma digits_value_acc (d : Decimal.uint) :
  forall acc : positive,
    digits_value d (Z.pos acc) = Z.pos (Pos.of_uint_acc d acc).
Proof.
  induction d; intros acc; cbn [digits_value Pos.of_uint_acc];
    try reflexivity; rewrite <- IHd; f_equal;
    rewrite ?Pos2Z.inj_add, ?Pos2Z.inj_mul; lia.
Qed.

Lemma digits_value_zero (d : Decimal.uint) :
  digits_value d 0 = Z.of_N (Pos.of_uint d).
Proof.
  induction d; cbn [digits_value Pos.of_uint]; try reflexivity;
    try exact IHd; apply (digits_value_acc d).
Qed.

Lemma nb_digits_to_uint (p : positive) :
  (0 < Decimal.nb_digits (Pos.to_uint p))%nat.
Proof.
  destruct (Pos.to_uint p) eqn:E; simpl; try lia.
  exfalso.
  pose proof (DecimalPos.Unsigned.of_to p) as H.
  rewrite E in H; discriminate H.
Qed.

(** The decimal string of a non-negative integer starts with a digit
    and reads back as that integer. *)
Lemma take_digits_show (n : Z) :
  0 <= n ->
  exists cnt, 0 < cnt
    /\ JsNumber.take_digits (JsNumber.show_Z n) 0 0 = (n, cnt, "").
Proof.
  intros Hn; unfold JsNumber.show_Z.
  destruct n as [|p|p]; [| |lia].
  - exists 1; split; [lia | reflexivity].
  - simpl Z.to_int; simpl NilZero.string_of_int.
    pose proof (nb_digits_to_uint p) as Hnb.
    assert (Hs : NilZero.string_of_uint (Pos.to_uint p)
                 = NilEmpty.string_of_uint (Pos.to_uint p)).
    { destruct (Pos.to_uint p); simpl in *; try reflexivity; lia. }
    rewrite Hs, take_digits_of_uint, digits_value_zero,
            DecimalPos.Unsigned.of_to.
    eexists; split; [|reflexivity]. lia.
Qed.

Lemma show_starts_with_digit (n : Z) :
  0 <= n ->
  exists c r, JsNumber.show_Z n = String c r /\ JsNumber.is_digit c = true.
Proof.
  intros Hn; unfold JsNumber.show_Z.
  destruct n as [|p|p]; [| |lia].
  - exists "0"%char, ""; split; reflexivity.
  - simpl Z.to_int; simpl NilZero.string_of_int.
    pose proof (nb_digits_to_uint p) as Hnb.
    destruct (Pos.to_uint p); simpl in *; try lia;
      eexists; eexists; split; reflexivity.
Qed.

Lemma decimal_value_show (n : Z) :
  0 <= n ->
  JsNumber.decimal_value (bigint_toString n) = Some (inject_Z n).
Proof.
  intros Hn; unfold bigint_toString.
  destruct (show_starts_with_digit n Hn) as (c & r & Hs & Hc).
  destruct (take_digits_show n Hn) as (cnt & Hcnt & Htake).
  unfold JsNumber.decimal_value, JsNumber.unsigned_literal.
  assert (Hwhite : JsNumber.skip_white (JsNumber.show_Z n)
                   = JsNumber.show_Z n).
  { rewrite Hs; simpl.
    replace (JsNumber.is_white c) with false; [reflexivity|].
    unfold JsNumber.is_digit, JsNumber.is_white in *.
    destruct (N_of_ascii c) as [|q]; [discriminate|].
    apply andb_prop in Hc as [H1 H2].
    apply N.leb_le in H1; apply N.leb_le in H2.
    symmetry; repeat (apply orb_false_intro); apply N.eqb_neq; lia. }
  rewrite Hwhite.
  assert (Hsign : JsNumber.signed (JsNumber.show_Z n)
                  = (false, JsNumber.show_Z n)).
  { rewrite Hs; unfold JsNumber.signed.
    assert (Ascii.eqb c "-" = false /\ Ascii.eqb c "+" = false) as [E1 E2].
    { split; apply Ascii.eqb_neq; intros ->; discriminate Hc. }
    rewrite E1, E2; reflexivity. }
  rewrite Hsign.
  assert (Hinf : prefix "Infinity" (JsNumber.show_Z n) = false).
  { rewrite Hs; cbn [prefix].
    destruct (Ascii.ascii_dec "I" c) as [<-|Hne]; [discriminate Hc|].
    reflexivity. }
  rewrite Hinf, Htake; simpl.
  replace (cnt =? 0) with false by (symmetry; apply Z.eqb_neq; lia).
  unfold JsNumber.scale10; simpl.
  rewrite Z.mul_1_r; reflexivity.
Qed.

Lemma to_int_not_nil (n : Z) :
  Z.to_int n <> Decimal.Pos Decimal.Nil /\ Z.to_int n <> Decimal.Neg Decimal.Nil.
Proof.
  destruct n as [|p|p]; simpl; split; try discriminate;
    intros H; inversion H as [E];
    pose proof (nb_digits_to_uint p) as Hnb; rewrite E in Hnb;
    simpl in Hnb; lia.
Qed.

Lemma show_Z_injective (a b : Z) :
  JsNumber.show_Z a = JsNumber.show_Z b -> a = b.
Proof.
  unfold JsNumber.show_Z; intros H.
  destruct (to_int_not_nil a) as [Ha1 Ha2].
  destruct (to_int_not_nil b) as [Hb1 Hb2].
  pose proof (NilZero.isi (Z.to_int a) Ha1 Ha2) as Ia.
  pose proof (NilZero.isi (Z.to_int b) Hb1 Hb2) as Ib.
  rewrite H, Ib in Ia; inversion Ia as [E].
  rewrite <- (DecimalZ.of_to a), <- (DecimalZ.of_to b), E; reflexivity.
Qed.

Lemma chain_name_push (chain : Z) :
  EthereumIndexer.getChainName chain = "push-chain" <-> chain = 42101.
Proof.
  unfold EthereumIndexer.getChainName; split.
  - destruct (Z.eqb_spec chain 1); [discriminate|].
    destruct (Z.eqb_spec chain 11155111); [discriminate|].
    destruct (Z.eqb_spec chain 137); [discriminate|].
    destruct (Z.eqb_spec chain 80001); [discriminate|].
    destruct (Z.eqb_spec chain 42101); [auto|].
    simpl; discriminate.
  - intros ->; reflexivity.
Qed.

(** X3.  Distinct chain ids have distinct chain names, "push-chain" is the
    name of 42101 only, and the table of the manager is that of the
    Ethereum indexer. *)
Theorem chain_names_are_distinct :
  (forall a b : Z,
      EthereumIndexer.getChainName a = EthereumIndexer.getChainName b ->
      a = b)
  /\ (forall chain : Z,
         EthereumIndexer.getChainName chain = "push-chain" <-> chain = 42101)
  /\ (forall chain : Z,
         IndexerManager.getChainName chain
         = EthereumIndexer.getChainName chain).
Proof.
  split; [|split; [exact chain_name_push | reflexivity]].
  intros a b; unfold EthereumIndexer.getChainName.
  destruct (Z.eqb_spec a 1); destruct (Z.eqb_spec b 1); try lia;
  destruct (Z.eqb_spec a 11155111); destruct (Z.eqb_spec b 11155111);
    try lia;
  destruct (Z.eqb_spec a 137); destruct (Z.eqb_spec b 137); try lia;
  destruct (Z.eqb_spec a 80001); destruct (Z.eqb_spec b 80001); try lia;
  destruct (Z.eqb_spec a 42101); destruct (Z.eqb_spec b 42101); try lia;
  simpl; try discriminate.
  intros H; inversion H as [E]; apply show_Z_injective; exact E.
Qed.

(** X1.  The decimal string built from a uint amount of a log
    (amount.toString()) denotes that amount; parseFloat of it is the
    binary64 rounding of the amount, and the amount itself below 2^53. *)
Theorem log_amount_reads_back :
  forall n : Z,
    0 <= n ->
    JsNumber.decimal_value (bigint_toString n) = Some (inject_Z n)
    /\ JsNumber.parseFloat (bigint_toString n) = JsNumber.of_Q (inject_Z n)
    /\ (n < 2 ^ 53 ->
        JsNumber.parseFloat (bigint_toString n)
        = JsNumber.Finite (inject_Z n)).
Proof.
  intros n Hn.
  pose proof (decimal_value_show n Hn) as Hval.
  split; [exact Hval|]; split.
  - apply parseFloat_decimal_value; exact Hval.
  - intros Hlt.
    apply (parseFloat_integer _ (inject_Z n) n Hval); [reflexivity | lia].
Qed.

Lemma log_amount_reads_back_witness :
  JsNumber.parseFloat (bigint_toString 1000000000000000)
  = JsNumber.Finite (inject_Z 1000000000000000).
Proof.
  apply (proj2 (proj2 (log_amount_reads_back 1000000000000000 ltac:(lia)))).
  reflexivity.
Defined.

(** *** A payment log against the invoice amount *)

Lemma push_payment_recorded (cfg : PushChainConfig) (prov : Provider)
  (now : Z) (e e' : PushChainIndexer.PaymentEvent) (db : Db)
  (invoice : Invoice) :
  PushChainIndexer.fill_gas prov e = Some e' ->
  payment_rows "push-chain" (PushChainIndexer.txHash e) db = [] ->
  find_invoice (PushChainIndexer.invoiceId e) db = Some invoice ->
  let db' := PushChainIndexer.processPaymentEvent cfg prov now e db in
  payments db' = payments db ++ [PushChainIndexer.payment_row now e']
  /\ transactions db'
     = transactions db
       ++ [PushChainIndexer.payment_transaction_row cfg now invoice e']
  /\ invoices db'
     = if PushChainIndexer.amount_covers (PushChainIndexer.amount e)
            (inv_amount invoice)
       then invoices
              (update_invoice_paid (PushChainIndexer.invoiceId e) now db)
       else invoices db.
Proof.
  intros Hgas Hnew Hinv db'; subst db'.
  destruct (push_fill_gas_keeps prov e e' Hgas) as (Hid & Hhash & Hamt).
  unfold PushChainIndexer.processPaymentEvent.
  rewrite Hgas, Hid, Hhash, Hamt,
          (proj2 (push_lookup_is_keyed _ db) Hnew), Hinv.
  destruct (PushChainIndexer.amount_covers _ _); repeat split; reflexivity.
Qed.

Lemma find_invoice_set_paid (id : string) (now : Z) (db : Db)
  (invoice : Invoice) :
  find_invoice id db = Some invoice ->
  find_invoice id (update_invoice_paid id now db)
  = Some (set_paid now invoice).
Proof.
  intros Hfind; rewrite find_invoice_update, Hfind; simpl.
  rewrite (find_invoice_id _ _ _ Hfind), String.eqb_refl; reflexivity.
Qed.

(** X2.  A decoded PaymentReceived log with a new transaction hash for
    an existing invoice, whose gas lookups do not throw, whether it
    comes through the listener or through the backfill: its payment is
    recorded once; the invoice is set to paid whenever the uint amount
    of the log is at least the (positive) decimal amount of the invoice,
    and is left as it is when the invoice amount is an integer below
    2^53 that the log amount stays under. *)
Theorem payment_log_threshold :
  forall (cfg : PushChainConfig) (prov : Provider) (now : Z)
         (event : Log PaymentReceivedArgs) (a : PaymentReceivedArgs)
         (db : Db) (invoice : Invoice) (qi : Q),
    log_args event = Some a ->
    0 <= pr_amount a ->
    PushChainIndexer.fill_gas prov
      (PushChainIndexer.paymentEvent_of_log event a) <> None ->
    payment_rows "push-chain" (log_transactionHash event) db = [] ->
    find_invoice (pr_invoiceId a) db = Some invoice ->
    JsNumber.decimal_value (inv_amount invoice) = Some qi ->
    let db' :=
      PushChainIndexer.outcome_db
        (PushChainIndexer.processPaymentEventFromLog cfg prov now event db) in
    PushChainIndexer.onPaymentReceived cfg prov now a event db = db'
    /\ List.length
         (payment_rows "push-chain" (log_transactionHash event) db') = 1%nat
    /\ ((0 < qi)%Q -> (qi <= inject_Z (pr_amount a))%Q ->
        find_invoice (pr_invoiceId a) db' = Some (set_paid now invoice))
    /\ (forall m : Z,
          qi == inject_Z m -> pr_amount a < m < 2 ^ 53 ->
          invoices db' = invoices db).
Proof.
  intros cfg prov now event a db invoice qi Hargs Hpos Hgas Hnew Hinv Hqi db'.
  assert (Hdb' : db' = PushChainIndexer.processPaymentEvent cfg prov now
                         (PushChainIndexer.paymentEvent_of_log event a) db).
  { unfold db', PushChainIndexer.processPaymentEventFromLog.
    rewrite Hargs; reflexivity. }
  split; [symmetry; exact Hdb'|].
  set (e := PushChainIndexer.paymentEvent_of_log event a) in *.
  destruct (PushChainIndexer.fill_gas prov e) as [e'|] eqn:Hfill;
    [clear Hgas | contradiction].
  destruct (push_payment_recorded cfg prov now e e' db invoice Hfill Hnew Hinv)
    as (Hpay & _ & Hinvs).
  rewrite <- Hdb' in Hpay, Hinvs.
  pose proof (decimal_value_show (pr_amount a) Hpos) as Hamt.
  destruct (push_fill_gas_keeps prov e e' Hfill) as (_ & Hhash & _).
  change (PushChainIndexer.amount e) with (bigint_toString (pr_amount a))
    in Hinvs.
  change (PushChainIndexer.invoiceId e) with (pr_invoiceId a) in Hinvs.
  split; [|split].
  - unfold payment_rows in *; rewrite Hpay, filter_app, Hnew; simpl.
    unfold payment_keyed; simpl.
    change (PushChainIndexer.txHash e) with (log_transactionHash event)
      in Hhash.
    rewrite Hhash, String.eqb_refl; reflexivity.
  - intros Hqpos Hle.
    rewrite (amount_covers_exact _ _ _ qi Hamt Hqi Hqpos Hle) in Hinvs.
    rewrite (find_invoice_same_invoices _ _ _ Hinvs).
    apply (find_invoice_set_paid _ now db invoice Hinv).
  - intros m Hm Hlt.
    rewrite (amount_covers_integers _ _ _ qi (pr_amount a) m Hamt Hqi
               ltac:(reflexivity) Hm) in Hinvs by lia.
    replace (m <=? pr_amount a) with false in Hinvs
      by (symmetry; apply Z.leb_gt; lia).
    exact Hinvs.
Qed.

Lemma payment_log_threshold_witness :
  let db' :=
    PushChainIndexer.onPaymentReceived Scenario.cfg Scenario.quiet 1
      {| pr_invoiceId := Scenario.invoice_id; pr_payer := "0xPayer";
         pr_amount := 100; pr_currency := "USDC" |}
      Scenario.payment_log (Scenario.store "99.50000000") in
  find_invoice Scenario.invoice_id db'
  = Some (set_paid 1 (Scenario.invoice "99.50000000")).
Proof.
  pose proof (payment_log_threshold Scenario.cfg Scenario.quiet 1
                Scenario.payment_log
                {| pr_invoiceId := Scenario.invoice_id; pr_payer := "0xPayer";
                   pr_amount := 100; pr_currency := "USDC" |}
                (Scenario.store "99.50000000")
                (Scenario.invoice "99.50000000") (9950000000 # 100000000)
                eq_refl ltac:(simpl; lia) ltac:(simpl; discriminate)
                eq_refl eq_refl eq_refl) as (Hsame & _ & Hpaid & _).
  cbv zeta in *; rewrite Hsame.
  apply Hpaid; [reflexivity | unfold Qle; simpl; lia].
Defined.

(** *** The watchers of the manager *)

Lemma get_of_table (f : Z -> EthereumIndexer.Watcher) (l : list Z)
  (chain : Z) :
  IndexerManager.get chain (map (fun c => (c, f c)) l)
  = if existsb (Z.eqb chain) l then Some (f chain) else None.
Proof.
  induction l as [|c l IH]; simpl; [reflexivity|].
  rewrite (Z.eqb_sym chain c).
  destruct (Z.eqb_spec c chain) as [->|Hne]; simpl; [reflexivity | exact IH].
Qed.

Lemma initializeEthereumIndexers_table (env : IndexerManager.Env) :
  IndexerManager.initializeEthereumIndexers env
  = map (fun c => (c, EthereumIndexer.create c))
        (filter (fun c => IndexerManager.truthy (gateway_contract env c))
                [1; 11155111; 137; 80001]).
Proof.
  destruct env as [e s p m].
  unfold IndexerManager.initializeEthereumIndexers,
         IndexerManager.indexerConfigs, gateway_contract; simpl.
  destruct e as [e|]; [destruct (String.eqb e EmptyString)|];
    destruct s as [s|]; [destruct (String.eqb s EmptyString)| | | | |];
    destruct p as [p|]; destruct m as [m|]; simpl;
    repeat match goal with
           | |- context [String.eqb ?x EmptyString] =>
               destruct (String.eqb x EmptyString); simpl
           end; reflexivity.
Qed.

Lemma create_well_keyed (env : IndexerManager.Env) :
  well_keyed (IndexerManager.create env).
Proof.
  unfold well_keyed, watchers, IndexerManager.create;
    cbn [IndexerManager.ethereumIndexers].
  rewrite initializeEthereumIndexers_table.
  set (on := fun c => IndexerManager.truthy (gateway_contract env c)).
  set (table := [1; 11155111; 137; 80001]).
  assert (Htable : forall c, In c table ->
                     c = 1 \/ c = 11155111 \/ c = 137 \/ c = 80001).
  { intros c; simpl; intuition. }
  assert (Hnodup : NoDup table).
  { repeat constructor; simpl; intuition lia. }
  clearbody table.
  rewrite map_map; simpl; split.
  - apply Forall_forall; intros kc Hin.
    apply in_map_iff in Hin as (c & <- & Hin); simpl.
    split; [reflexivity|].
    apply filter_In in Hin as [Hin _].
    apply Htable in Hin; lia.
  - rewrite map_map; simpl; rewrite map_id.
    apply NoDup_filter, Hnodup.
Qed.

(** X4.  The constructor gives the manager one Ethereum watcher for each
    of the chains 1, 11155111, 137, 80001 whose gateway contract variable
    is set and not empty, in that order and no other; each is stopped, at
    cursor 0, under its own chain id; 42101 is never among the keys. *)
Theorem constructor_configures_set_chains :
  forall env : IndexerManager.Env,
    let m := IndexerManager.create env in
    map fst (IndexerManager.ethereumIndexers m)
    = filter (fun c => IndexerManager.truthy (gateway_contract env c))
             [1; 11155111; 137; 80001]
    /\ (forall chain : Z,
           IndexerManager.get chain (IndexerManager.ethereumIndexers m)
           = if IndexerManager.truthy (gateway_contract env chain)
             then Some (EthereumIndexer.create chain) else None)
    /\ well_keyed m
    /\ IndexerManager.pushChainIndexer m = PushChainIndexer.initial
    /\ IndexerManager.isRunning m = false.
Proof.
  intros env m; subst m.
  pose proof (create_well_keyed env) as Hkeyed; revert Hkeyed.
  generalize (well_keyed (IndexerManager.create env)); intros keyed Hkeyed.
  unfold IndexerManager.create;
    cbn [IndexerManager.ethereumIndexers IndexerManager.pushChainIndexer
         IndexerManager.isRunning].
  rewrite initializeEthereumIndexers_table.
  set (on := fun c => IndexerManager.truthy (gateway_contract env c)).
  set (table := [1; 11155111; 137; 80001]).
  assert (Htable : forall c, In c table <->
                     c = 1 \/ c = 11155111 \/ c = 137 \/ c = 80001).
  { intros c; simpl; intuition. }
  clearbody table.
  split; [|split; [|split; [|split; reflexivity]]].
  - rewrite map_map; simpl; apply map_id.
  - intros chain; rewrite get_of_table.
    destruct (existsb (Z.eqb chain) (filter on table)) eqn:Hex.
    + apply existsb_exists in Hex as (c & Hin & Heq).
      apply Z.eqb_eq in Heq; subst c.
      apply filter_In in Hin as [_ Hon]; unfold on in Hon.
      rewrite Hon; reflexivity.
    + destruct (IndexerManager.truthy (gateway_contract env chain)) eqn:Hon;
        [|reflexivity].
      exfalso.
      assert (Hin : In chain table).
      { apply Htable; unfold gateway_contract in Hon.
        destruct (Z.eqb_spec chain 1); [auto|].
        destruct (Z.eqb_spec chain 11155111); [auto|].
        destruct (Z.eqb_spec chain 137); [auto|].
        destruct (Z.eqb_spec chain 80001); [auto|].
        discriminate Hon. }
      assert (Hex' : existsb (Z.eqb chain) (filter on table) = true).
      { apply existsb_exists; exists chain; split; [|apply Z.eqb_refl].
        apply filter_In; split; assumption. }
      rewrite Hex in Hex'; discriminate.
  - exact Hkeyed.
Qed.

Lemma watcher_entry_set (chain : Z) (w w0 : EthereumIndexer.Watcher)
  (l : IndexerManager.IndexerMap) :
  IndexerManager.get chain l = Some w0 ->
  EthereumIndexer.this_chainId w = EthereumIndexer.this_chainId w0 ->
  map (fun entry : Z * EthereumIndexer.Watcher =>
         (fst entry, EthereumIndexer.this_chainId (snd entry)))
      (IndexerManager.set chain w l)
  = map (fun entry : Z * EthereumIndexer.Watcher =>
           (fst entry, EthereumIndexer.this_chainId (snd entry))) l.
Proof.
  intros Hget Hid; induction l as [|[c w'] l IH]; simpl in *; [discriminate|].
  destruct (c =? chain); simpl.
  - inversion Hget; subst w'; rewrite Hid; reflexivity.
  - rewrite (IH Hget); reflexivity.
Qed.

Lemma start_keeps_chainId (prov : Provider) (w : EthereumIndexer.Watcher) :
  EthereumIndexer.this_chainId (fst (EthereumIndexer.start prov w))
  = EthereumIndexer.this_chainId w.
Proof.
  unfold EthereumIndexer.start.
  destruct (EthereumIndexer.isRunning w); [reflexivity|].
  destruct (getBlockNumber prov); reflexivity.
Qed.

Lemma stop_keeps_chainId (w : EthereumIndexer.Watcher) :
  EthereumIndexer.this_chainId (EthereumIndexer.stop w)
  = EthereumIndexer.this_chainId w.
Proof.
  unfold EthereumIndexer.stop; destruct (negb _); reflexivity.
Qed.

Lemma tick_keeps_chainId (prov : Provider) (now : Z)
  (w : EthereumIndexer.Watcher) (db : Db) :
  EthereumIndexer.this_chainId
    (fst (EthereumIndexer.processBlocks prov now w db))
  = EthereumIndexer.this_chainId w.
Proof.
  unfold EthereumIndexer.processBlocks.
  destruct (negb _); [reflexivity|].
  destruct (getBlockNumber prov) as [latest|]; [|reflexivity].
  destruct (latest >? _); reflexivity.
Qed.

Lemma startAll_keeps_watchers (net : IndexerManager.Network)
  (m : IndexerManager.Manager) :
  watchers (IndexerManager.startAll net m) = watchers m.
Proof.
  unfold watchers, IndexerManager.startAll.
  destruct (IndexerManager.isRunning m); [reflexivity|]; simpl.
  rewrite map_map; apply map_ext; intros [c w]; simpl.
  rewrite start_keeps_chainId; reflexivity.
Qed.

Lemma stopAll_keeps_watchers (m : IndexerManager.Manager) :
  watchers (IndexerManager.stopAll m) = watchers m.
Proof.
  unfold watchers, IndexerManager.stopAll.
  destruct (negb _); [reflexivity|]; simpl.
  rewrite map_map; apply map_ext; intros [c w]; simpl.
  rewrite stop_keeps_chainId; reflexivity.
Qed.

Lemma call_keeps_watchers (c : IndexerManager.Call)
  (m : IndexerManager.Manager) :
  watchers (IndexerManager.call c m) = watchers m.
Proof.
  destruct c as [net| |net|net chain|chain]; simpl.
  - apply startAll_keeps_watchers.
  - apply stopAll_keeps_watchers.
  - unfold IndexerManager.restartAll.
    rewrite startAll_keeps_watchers; apply stopAll_keeps_watchers.
  - unfold IndexerManager.startIndexer.
    destruct (chain =? 42101).
    + destruct (PushChainIndexer.start _ _); reflexivity.
    + destruct (IndexerManager.get chain _) as [indexer|] eqn:Hget;
        [|reflexivity].
      pose proof (start_keeps_chainId
                    (IndexerManager.ethereum_provider net chain) indexer)
        as Hid.
      destruct (EthereumIndexer.start _ indexer) as [w reply]; simpl in *.
      unfold watchers; simpl.
      apply (watcher_entry_set chain w indexer _ Hget Hid).
  - unfold IndexerManager.stopIndexer.
    destruct (chain =? 42101); [reflexivity|].
    destruct (IndexerManager.get chain _) as [indexer|] eqn:Hget;
      [|reflexivity].
    unfold watchers; simpl.
    apply (watcher_entry_set chain _ indexer _ Hget
             (stop_keeps_chainId indexer)).
Qed.

Lemma step_keeps_watchers (cfg : PushChainConfig) (a : Activity)
  (s : System) :
  watchers (manager (step cfg a s)) = watchers (manager s).
Proof.
  destruct a as [c|prov now|chain prov now|d]; simpl.
  - apply call_keeps_watchers.
  - destruct (PushChainIndexer.processBlocks _ _ _ _ _); reflexivity.
  - destruct (IndexerManager.get chain _) as [indexer|] eqn:Hget;
      [|reflexivity].
    pose proof (tick_keeps_chainId prov now indexer (store s)) as Hid.
    destruct (EthereumIndexer.processBlocks _ _ indexer _) as [w db];
      simpl in *.
    unfold watchers; simpl.
    apply (watcher_entry_set chain w indexer _ Hget Hid).
  - destruct (listening _ _); reflexivity.
Qed.

Lemma run_keeps_watchers (cfg : PushChainConfig)
  (activities : list Activity) (s : System) :
  watchers (manager (run cfg activities s)) = watchers (manager s).
Proof.
  revert s; induction activities as [|a activities IH]; intros s;
    [reflexivity|].
  unfold run in *; simpl; rewrite IH; apply step_keeps_watchers.
Qed.

Lemma watchers_keys (m m' : IndexerManager.Manager) :
  watchers m' = watchers m ->
  IndexerManager.configuredChains m' = IndexerManager.configuredChains m.
Proof.
  intros Hw; unfold IndexerManager.configuredChains; f_equal.
  pose proof (f_equal (map fst) Hw) as Hk.
  unfold watchers in Hk; rewrite !map_map in Hk; exact Hk.
Qed.

Lemma run_keeps_well_keyed (cfg : PushChainConfig)
  (activities : list Activity) (env : IndexerManager.Env) (db : Db) :
  well_keyed (manager (run cfg activities (boot env db))).
Proof.
  unfold well_keyed; rewrite run_keeps_watchers.
  apply (create_well_keyed env).
Qed.

(** X5.  Nothing that happens to the running system adds, removes or
    re-keys a watcher: after any calls on the manager, backfill ticks and
    pushed logs, the Ethereum watchers are the same chain ids under the
    same keys, in the same order; so the configured chains of a booted
    system are those its environment set, for good. *)
Theorem watchers_are_fixed :
  forall (cfg : PushChainConfig) (activities : list Activity) (s : System),
    watchers (manager (run cfg activities s)) = watchers (manager s)
    /\ IndexerManager.configuredChains (manager (run cfg activities s))
       = IndexerManager.configuredChains (manager s)
    /\ (well_keyed (manager s) ->
        well_keyed (manager (run cfg activities s))).
Proof.
  intros cfg activities s; split; [apply run_keeps_watchers|]; split.
  - apply watchers_keys, run_keeps_watchers.
  - unfold well_keyed; rewrite run_keeps_watchers; auto.
Qed.

Lemma watchers_are_fixed_witness :
  let s := run Scenario.cfg
             [Manage (IndexerManager.StartAll
                        (Scenario.network Scenario.quiet));
              EthereumTick 1 Scenario.receipts_down 3;
              Manage (IndexerManager.StopIndexer 1);
              Manage (IndexerManager.RestartAll
                        (Scenario.network Scenario.unreachable))]
             (boot Scenario.env Scenario.empty_store) in
  IndexerManager.configuredChains (manager s) = [42101; 1]
  /\ well_keyed (manager s).
Proof.
  destruct (watchers_are_fixed Scenario.cfg
              [Manage (IndexerManager.StartAll
                         (Scenario.network Scenario.quiet));
               EthereumTick 1 Scenario.receipts_down 3;
               Manage (IndexerManager.StopIndexer 1);
               Manage (IndexerManager.RestartAll
                         (Scenario.network Scenario.unreachable))]
              (boot Scenario.env Scenario.empty_store))
    as (_ & Hchains & Hkeyed).
  split; [exact Hchains|].
  apply Hkeyed, create_well_keyed.
Defined.

(** *** getSupportedChains *)

Lemma string_order_total (a b : string) :
  String.ltb a b = false -> String.leb b a = true.
Proof.
  unfold String.ltb, String.leb; rewrite (String.compare_antisym a b).
  destruct (String.compare b a); simpl; congruence.
Qed.

Lemma string_order_weak (a b : string) :
  String.ltb a b = true -> String.leb a b = true.
Proof.
  unfold String.ltb, String.leb; destruct (String.compare a b); congruence.
Qed.

Lemma sort_insert_permutation (x : Z) (l : list Z) :
  Permutation (IndexerManager.sort_insert x l) (x :: l).
Proof.
  induction l as [|y l IH]; simpl; [apply Permutation_refl|].
  destruct (String.ltb _ _); [apply Permutation_refl|].
  eapply Permutation_trans; [apply perm_skip, IH | apply perm_swap].
Qed.

Lemma sort_insert_sorted (x : Z) (l : list Z) :
  Sorted string_le l -> Sorted string_le (IndexerManager.sort_insert x l).
Proof.
  induction l as [|y l IH]; intros Hs; simpl.
  - repeat constructor.
  - destruct (String.ltb (JsNumber.show_Z x) (JsNumber.show_Z y)) eqn:Hlt.
    + constructor; [exact Hs|].
      constructor; apply string_order_weak, Hlt.
    + inversion Hs as [|y' l' Hs' Hhd]; subst.
      constructor; [apply IH, Hs'|].
      destruct l as [|z l]; simpl.
      * constructor; apply string_order_total, Hlt.
      * destruct (String.ltb (JsNumber.show_Z x) (JsNumber.show_Z z)).
        -- constructor; apply string_order_total, Hlt.
        -- inversion Hhd; subst; constructor; assumption.
Qed.

Lemma array_sort_acc (l acc : list Z) :
  Sorted string_le acc ->
  Permutation
    (fold_left (fun sorted x => IndexerManager.sort_insert x sorted) l acc)
    (acc ++ l)
  /\ Sorted string_le
       (fold_left (fun sorted x => IndexerManager.sort_insert x sorted) l acc).
Proof.
  revert acc; induction l as [|x l IH]; intros acc Hs; simpl.
  - rewrite app_nil_r; split; [apply Permutation_refl | exact Hs].
  - destruct (IH _ (sort_insert_sorted x acc Hs)) as [Hp Hs']; split;
      [|exact Hs'].
    eapply Permutation_trans; [exact Hp|].
    eapply Permutation_trans;
      [apply Permutation_app_tail, sort_insert_permutation|].
    simpl; apply Permutation_middle.
Qed.

(** X6.  getSupportedChains returns the configured chain ids, 42101 among
    them, each as often as configured, in the order of their decimal
    strings (the default order of Array.prototype.sort), which is not the
    order of the numbers: for a manager as constructed, and after anything
    that happens to the running system, it is the sublist of
    1, 11155111, 137, 42101, 80001 of the chains whose contract is set. *)
Theorem supported_chains_in_string_order :
  (forall m : IndexerManager.Manager,
      Permutation (IndexerManager.getSupportedChains m)
                  (IndexerManager.configuredChains m)
      /\ Sorted string_le (IndexerManager.getSupportedChains m))
  /\ (forall (cfg : PushChainConfig) (activities : list Activity)
             (env : IndexerManager.Env) (db : Db),
         IndexerManager.getSupportedChains
           (manager (run cfg activities (boot env db)))
         = filter (fun c => (c =? 42101)
                            || IndexerManager.truthy (gateway_contract env c))
                  [1; 11155111; 137; 42101; 80001]).
Proof.
  split.
  - intros m; unfold IndexerManager.getSupportedChains,
                     IndexerManager.array_sort.
    apply (array_sort_acc (IndexerManager.configuredChains m) []).
    constructor.
  - intros cfg activities env db.
    unfold IndexerManager.getSupportedChains.
    rewrite (watchers_keys _ _
               (run_keeps_watchers cfg activities (boot env db))).
    unfold boot, IndexerManager.configuredChains, IndexerManager.create;
      cbn [manager IndexerManager.ethereumIndexers].
    rewrite initializeEthereumIndexers_table, map_map; simpl map.
    rewrite map_id.
    unfold filter.
    change (1 =? 42101) with false; change (11155111 =? 42101) with false;
      change (137 =? 42101) with false; change (80001 =? 42101) with false;
      change (42101 =? 42101) with true.
    cbn [orb].
    destruct (IndexerManager.truthy (gateway_contract env 1));
      destruct (IndexerManager.truthy (gateway_contract env 11155111));
      destruct (IndexerManager.truthy (gateway_contract env 137));
      destruct (IndexerManager.truthy (gateway_contract env 80001));
      destruct (IndexerManager.truthy (gateway_contract env 42101));
      vm_compute; reflexivity.
Qed.

(** *** getStatus, isIndexerRunning, getManagerStatus *)

Lemma get_of_entry (k : Z) (w : EthereumIndexer.Watcher)
  (l : IndexerManager.IndexerMap) :
  NoDup (map fst l) -> In (k, w) l -> IndexerManager.get k l = Some w.
Proof.
  induction l as [|[c w'] l IH]; simpl; intros Hnd Hin; [contradiction|].
  inversion Hnd as [|c' l' Hnotin Hnd']; subst.
  destruct Hin as [Heq|Hin].
  - inversion Heq; subst; rewrite Z.eqb_refl; reflexivity.
  - destruct (Z.eqb_spec c k) as [->|Hne]; [|apply IH; assumption].
    exfalso; apply Hnotin.
    apply in_map_iff; exists (k, w); split; [reflexivity | exact Hin].
Qed.

Lemma get_is_entry (k : Z) (w : EthereumIndexer.Watcher)
  (l : IndexerManager.IndexerMap) :
  IndexerManager.get k l = Some w -> In (k, w) l.
Proof.
  induction l as [|[c w'] l IH]; simpl; intros Hget; [discriminate|].
  destruct (Z.eqb_spec c k) as [->|Hne].
  - inversion Hget; subst; left; reflexivity.
  - right; apply IH, Hget.
Qed.

Lemma get_none_not_key (k : Z) (l : IndexerManager.IndexerMap) :
  IndexerManager.get k l = None <-> ~ In k (map fst l).
Proof.
  induction l as [|[c w'] l IH]; simpl; [tauto|].
  destruct (Z.eqb_spec c k) as [->|Hne].
  - split; [discriminate | intros H; exfalso; apply H; left; reflexivity].
  - rewrite IH; tauto.
Qed.

Lemma well_keyed_entry (m : IndexerManager.Manager) (k : Z)
  (w : EthereumIndexer.Watcher) :
  well_keyed m -> In (k, w) (IndexerManager.ethereumIndexers m) ->
  EthereumIndexer.this_chainId w = k /\ k <> 42101
  /\ IndexerManager.get k (IndexerManager.ethereumIndexers m) = Some w.
Proof.
  intros [Hall Hnd] Hin.
  unfold watchers in *; rewrite map_map in Hnd; simpl in Hnd.
  rewrite Forall_forall in Hall.
  specialize (Hall (k, EthereumIndexer.this_chainId w)).
  simpl in Hall; destruct Hall as [Hid Hne].
  { apply in_map_iff; exists (k, w); split; [reflexivity | exact Hin]. }
  repeat split; [exact Hid | exact Hne |].
  apply get_of_entry; assumption.
Qed.

(** The entry getStatus makes for an Ethereum watcher. *)
Lemma getStatus_entries (net : IndexerManager.Network) (message : string)
  (m : IndexerManager.Manager) (s : IndexerManager.IndexerStatus) :
  In s (tl (IndexerManager.getStatus net message m)) <->
  exists k w,
    In (k, w) (IndexerManager.ethereumIndexers m)
    /\ s = {| IndexerManager.s_chainId := EthereumIndexer.this_chainId w;
              IndexerManager.s_chainName :=
                IndexerManager.getChainName (EthereumIndexer.this_chainId w);
              IndexerManager.s_isRunning := EthereumIndexer.isRunning w;
              IndexerManager.s_lastProcessedBlock :=
                EthereumIndexer.lastProcessedBlock w;
              IndexerManager.s_error := None |}.
Proof.
  unfold IndexerManager.getStatus; cbn [tl]; rewrite in_map_iff; split.
  - intros ([k w] & <- & Hin); exists k, w; split; [exact Hin | reflexivity].
  - intros (k & w & Hin & ->); exists (k, w); split; [reflexivity | exact Hin].
Qed.

(** X7.  getStatus never throws and reports on exactly the configured
    chains, Push Chain first: after anything that happens to a booted
    system its entries carry the chain ids of getSupportedChains before
    the sort, each with the name getChainName gives that id; an Ethereum
    entry carries the flag and the cursor of the watcher stored under its
    chain id and no error; when the Push Chain height query is rejected
    the Push Chain entry reads stopped, at block 0, with the error
    message, whatever the watcher's state. *)
Theorem status_reports_configured_chains :
  forall (cfg : PushChainConfig) (activities : list Activity)
         (env : IndexerManager.Env) (db : Db)
         (net : IndexerManager.Network) (message : string),
    let m := manager (run cfg activities (boot env db)) in
    let statuses := IndexerManager.getStatus net message m in
    map IndexerManager.s_chainId statuses = IndexerManager.configuredChains m
    /\ Forall (fun s => IndexerManager.s_chainName s
                        = IndexerManager.getChainName
                            (IndexerManager.s_chainId s)) statuses
    /\ (forall s, In s (tl statuses) ->
          exists w,
            IndexerManager.get (IndexerManager.s_chainId s)
              (IndexerManager.ethereumIndexers m) = Some w
            /\ IndexerManager.s_isRunning s = EthereumIndexer.isRunning w
            /\ IndexerManager.s_lastProcessedBlock s
               = EthereumIndexer.lastProcessedBlock w
            /\ IndexerManager.s_error s = None)
    /\ (getBlockNumber (IndexerManager.push_provider net) = Rejected ->
        hd_error statuses
        = Some {| IndexerManager.s_chainId := 42101;
                  IndexerManager.s_chainName := "push-chain";
                  IndexerManager.s_isRunning := false;
                  IndexerManager.s_lastProcessedBlock := 0;
                  IndexerManager.s_error := Some message |}).
Proof.
  intros cfg activities env db net message m statuses.
  pose proof (run_keeps_well_keyed cfg activities env db) as Hkeyed.
  fold m in Hkeyed.
  assert (Hentry : forall s, In s (tl statuses) ->
            exists w,
              In (IndexerManager.s_chainId s, w)
                 (IndexerManager.ethereumIndexers m)
              /\ IndexerManager.get (IndexerManager.s_chainId s)
                   (IndexerManager.ethereumIndexers m) = Some w
              /\ IndexerManager.s_chainName s
                 = IndexerManager.getChainName (IndexerManager.s_chainId s)
              /\ IndexerManager.s_isRunning s = EthereumIndexer.isRunning w
              /\ IndexerManager.s_lastProcessedBlock s
                 = EthereumIndexer.lastProcessedBlock w
              /\ IndexerManager.s_error s = None).
  { intros s Hin.
    apply getStatus_entries in Hin as (k & w & Hin & ->).
    destruct (well_keyed_entry m k w Hkeyed Hin) as (Hid & _ & Hget).
    cbn [IndexerManager.s_chainId IndexerManager.s_chainName
         IndexerManager.s_isRunning IndexerManager.s_lastProcessedBlock
         IndexerManager.s_error].
    rewrite Hid; exists w; repeat split; assumption. }
  split; [|split; [|split]].
  - subst statuses; unfold IndexerManager.getStatus,
                           IndexerManager.configuredChains.
    cbn [map]; f_equal.
    + destruct (PushChainIndexer.getStatus _ _); reflexivity.
    + rewrite map_map; apply map_ext_in; intros [k w] Hin; simpl.
      apply (well_keyed_entry m k w Hkeyed Hin).
  - assert (Hhd : exists s0, statuses = s0 :: tl statuses
                    /\ IndexerManager.s_chainName s0
                       = IndexerManager.getChainName
                           (IndexerManager.s_chainId s0)).
    { subst statuses; unfold IndexerManager.getStatus.
      destruct (PushChainIndexer.getStatus _ _); eexists; split;
        reflexivity. }
    destruct Hhd as (s0 & Heq & Hname); rewrite Heq.
    constructor; [exact Hname|].
    apply Forall_forall; intros s Hin.
    destruct (Hentry s Hin) as (w & _ & _ & Hn & _); exact Hn.
  - intros s Hin.
    destruct (Hentry s Hin) as (w & _ & Hget & _ & Hr & Hb & He).
    exists w; repeat split; assumption.
  - intros Hrej; subst statuses; unfold IndexerManager.getStatus,
                                   PushChainIndexer.getStatus.
    rewrite Hrej; reflexivity.
Qed.

Lemma status_reports_configured_chains_witness :
  let m := manager
             (run Scenario.cfg
                [Manage (IndexerManager.StartAll
                           (Scenario.network Scenario.quiet))]
                (boot Scenario.env Scenario.empty_store)) in
  getBlockNumber
    (IndexerManager.push_provider (Scenario.network Scenario.unreachable))
  = Rejected
  /\ PushChainIndexer.isRunning (IndexerManager.pushChainIndexer m) = true
  /\ hd_error
       (IndexerManager.getStatus (Scenario.network Scenario.unreachable)
          "timeout" m)
     = Some {| IndexerManager.s_chainId := 42101;
               IndexerManager.s_chainName := "push-chain";
               IndexerManager.s_isRunning := false;
               IndexerManager.s_lastProcessedBlock := 0;
               IndexerManager.s_error := Some "timeout" |}.
Proof.
  split; [reflexivity|]; split; [reflexivity|].
  apply (status_reports_configured_chains Scenario.cfg
           [Manage (IndexerManager.StartAll
                      (Scenario.network Scenario.quiet))]
           Scenario.env Scenario.empty_store
           (Scenario.network Scenario.unreachable) "timeout").
  reflexivity.
Defined.

(** X8.  isIndexerRunning agrees with getStatus on every configured
    chain whose entry carries no error, on any booted system; for Push
    Chain with a rejected height query it throws where getStatus reports
    an error entry; for a chain that is not configured it returns false
    and does not throw (startIndexer and stopIndexer throw for it). *)
Theorem isIndexerRunning_agrees_with_status :
  forall (cfg : PushChainConfig) (activities : list Activity)
         (env : IndexerManager.Env) (db : Db)
         (net : IndexerManager.Network) (message : string),
    let m := manager (run cfg activities (boot env db)) in
    (forall s, In s (IndexerManager.getStatus net message m) ->
       IndexerManager.s_error s = None ->
       IndexerManager.isIndexerRunning net (IndexerManager.s_chainId s) m
       = IndexerManager.Returns (IndexerManager.s_isRunning s))
    /\ (getBlockNumber (IndexerManager.push_provider net) = Rejected ->
        IndexerManager.isIndexerRunning net 42101 m
        = IndexerManager.Throws IndexerManager.ProviderError)
    /\ (forall chain,
          ~ In chain (IndexerManager.configuredChains m) ->
          IndexerManager.isIndexerRunning net chain m
          = IndexerManager.Returns false
          /\ snd (IndexerManager.startIndexer net chain m)
             = IndexerManager.Raised (IndexerManager.UnknownChain chain)
          /\ snd (IndexerManager.stopIndexer chain m)
             = IndexerManager.Raised (IndexerManager.UnknownChain chain)).
Proof.
  intros cfg activities env db net message m.
  pose proof (run_keeps_well_keyed cfg activities env db) as Hkeyed.
  fold m in Hkeyed.
  split; [|split].
  - intros s Hin Herr.
    assert (Hcases :
              (PushChainIndexer.getStatus (IndexerManager.push_provider net)
                 (IndexerManager.pushChainIndexer m) <> None
               /\ IndexerManager.isIndexerRunning net
                    (IndexerManager.s_chainId s) m
                  = IndexerManager.Returns (IndexerManager.s_isRunning s))
              \/ In s (tl (IndexerManager.getStatus net message m))).
    { unfold IndexerManager.getStatus in Hin; destruct Hin as [Hhd|Htl];
        [left | right; exact Htl].
      unfold IndexerManager.isIndexerRunning.
      destruct (PushChainIndexer.getStatus _ _); subst s; simpl in *;
        [split; [discriminate | reflexivity] | discriminate Herr]. }
    destruct Hcases as [[_ Hrun]|Htl]; [exact Hrun|].
    apply getStatus_entries in Htl as (k & w & Hk & ->).
    destruct (well_keyed_entry m k w Hkeyed Hk) as (Hid & Hne & Hget).
    cbn [IndexerManager.s_chainId IndexerManager.s_isRunning].
    rewrite Hid; unfold IndexerManager.isIndexerRunning.
    apply Z.eqb_neq in Hne; rewrite Hne, Hget; reflexivity.
  - intros Hrej; unfold IndexerManager.isIndexerRunning,
                        PushChainIndexer.getStatus.
    rewrite Hrej; reflexivity.
  - intros chain Hnot.
    unfold IndexerManager.configuredChains in Hnot; simpl in Hnot.
    assert (Hne : (chain =? 42101) = false)
      by (apply Z.eqb_neq; intros ->; apply Hnot; left; reflexivity).
    assert (Hget : IndexerManager.get chain
                     (IndexerManager.ethereumIndexers m) = None)
      by (apply get_none_not_key; tauto).
    unfold IndexerManager.isIndexerRunning, IndexerManager.startIndexer,
           IndexerManager.stopIndexer.
    rewrite Hne, Hget; repeat split; reflexivity.
Qed.

Lemma isIndexerRunning_agrees_with_status_witness :
  let m := manager (boot Scenario.env Scenario.empty_store) in
  ~ In 137 (IndexerManager.configuredChains m)
  /\ IndexerManager.isIndexerRunning (Scenario.network Scenario.quiet) 137 m
     = IndexerManager.Returns false.
Proof.
  assert (Hnot : ~ In 137 (IndexerManager.configuredChains
                            (manager (boot Scenario.env
                                        Scenario.empty_store)))).
  { vm_compute; intros [H|[H|[]]]; discriminate H. }
  split; [exact Hnot|].
  apply (isIndexerRunning_agrees_with_status Scenario.cfg []
           Scenario.env Scenario.empty_store
           (Scenario.network Scenario.quiet) EmptyString), Hnot.
Defined.

Lemma filter_all {A : Type} (f : A -> bool) (l : list A) :
  (forall x, In x l -> f x = true) -> filter f l = l.
Proof.
  induction l as [|x l IH]; simpl; intros H; [reflexivity|].
  rewrite (H x (or_introl eq_refl)), IH; [reflexivity|].
  intros y Hy; apply H; right; exact Hy.
Qed.

Lemma filter_none {A : Type} (f : A -> bool) (l : list A) :
  (forall x, In x l -> f x = false) -> filter f l = [].
Proof.
  induction l as [|x l IH]; simpl; intros H; [reflexivity|].
  rewrite (H x (or_introl eq_refl)); apply IH.
  intros y Hy; apply H; right; exact Hy.
Qed.

Lemma filter_of_map {A B : Type} (p : B -> bool) (g : A -> B)
  (f : A -> bool) (l : list A) :
  (forall x, p (g x) = f x) ->
  filter p (map g l) = map g (filter f l).
Proof.
  intros H; induction l as [|x l IH]; simpl; [reflexivity|].
  rewrite H; destruct (f x); simpl; rewrite IH; reflexivity.
Qed.

Lemma push_start_runs (prov : Provider) (w : PushChainIndexer.Watcher) :
  PushChainIndexer.isRunning (fst (PushChainIndexer.start prov w))
  = match getBlockNumber prov with
    | Resolved _ => true
    | Rejected => PushChainIndexer.isRunning w
    end.
Proof.
  unfold PushChainIndexer.start.
  destruct (PushChainIndexer.isRunning w) eqn:Hr;
    destruct (getBlockNumber prov); simpl; congruence.
Qed.

Lemma ethereum_start_runs (prov : Provider) (w : EthereumIndexer.Watcher) :
  EthereumIndexer.isRunning (fst (EthereumIndexer.start prov w))
  = match getBlockNumber prov with
    | Resolved _ => true
    | Rejected => EthereumIndexer.isRunning w
    end.
Proof.
  unfold EthereumIndexer.start.
  destruct (EthereumIndexer.isRunning w) eqn:Hr;
    destruct (getBlockNumber prov); simpl; congruence.
Qed.

Lemma push_stop_stops (w : PushChainIndexer.Watcher) :
  PushChainIndexer.isRunning (PushChainIndexer.stop w) = false.
Proof.
  unfold PushChainIndexer.stop.
  destruct (PushChainIndexer.isRunning w) eqn:Hr; simpl; congruence.
Qed.

Lemma ethereum_stop_stops (w : EthereumIndexer.Watcher) :
  EthereumIndexer.isRunning (EthereumIndexer.stop w) = false.
Proof.
  unfold EthereumIndexer.stop.
  destruct (EthereumIndexer.isRunning w) eqn:Hr; simpl; congruence.
Qed.

(** The number of running entries of getStatus: the Push Chain watcher
    counts when its height query resolves and it runs, an Ethereum
    watcher when it runs. *)
Lemma runningIndexers_count (net : IndexerManager.Network)
  (message : string) (m : IndexerManager.Manager) :
  IndexerManager.ms_runningIndexers
    (IndexerManager.getManagerStatus net message m)
  = ((if match getBlockNumber (IndexerManager.push_provider net) with
         | Resolved _ =>
             PushChainIndexer.isRunning (IndexerManager.pushChainIndexer m)
         | Rejected => false
         end then 1 else 0)
     + List.length
         (filter (fun entry : Z * EthereumIndexer.Watcher =>
                    EthereumIndexer.isRunning (snd entry))
                 (IndexerManager.ethereumIndexers m)))%nat.
Proof.
  unfold IndexerManager.getManagerStatus, IndexerManager.getStatus,
         PushChainIndexer.getStatus;
    cbn [IndexerManager.ms_runningIndexers].
  destruct (getBlockNumber (IndexerManager.push_provider net));
    cbn [filter IndexerManager.s_isRunning
         PushChainIndexer.status_isRunning];
    [destruct (PushChainIndexer.isRunning _)|];
    cbn [List.length];
    rewrite (filter_of_map _ _
               (fun entry : Z * EthereumIndexer.Watcher =>
                  EthereumIndexer.isRunning (snd entry))), length_map;
    intros; reflexivity.
Qed.

(** X9.  getManagerStatus counts one indexer for Push Chain and one for
    each configured Ethereum chain, and never more running ones than
    that.  After startAll on a manager that was not running, with every
    height query answered, all of them run; after stopAll on a running
    manager none does.  The manager's own flag is not derived from the
    watchers: startAll sets it even if every start() failed, so the
    status then reads running with no running indexer. *)
Theorem manager_status_counts :
  forall (net : IndexerManager.Network) (message : string)
         (m : IndexerManager.Manager),
    let total := S (List.length (IndexerManager.ethereumIndexers m)) in
    (IndexerManager.ms_totalIndexers
       (IndexerManager.getManagerStatus net message m) = total
     /\ (IndexerManager.ms_runningIndexers
           (IndexerManager.getManagerStatus net message m) <= total)%nat)
    /\ (IndexerManager.isRunning m = false ->
        (forall prov,
            prov = IndexerManager.push_provider net
            \/ (exists chain, prov = IndexerManager.ethereum_provider net chain)
            -> getBlockNumber prov <> Rejected) ->
        IndexerManager.getManagerStatus net message
          (IndexerManager.startAll net m)
        = {| IndexerManager.ms_isRunning := true;
             IndexerManager.ms_totalIndexers := total;
             IndexerManager.ms_runningIndexers := total |})
    /\ (IndexerManager.isRunning m = true ->
        IndexerManager.getManagerStatus net message
          (IndexerManager.stopAll m)
        = {| IndexerManager.ms_isRunning := false;
             IndexerManager.ms_totalIndexers := total;
             IndexerManager.ms_runningIndexers := 0 |})
    /\ (forall (env : IndexerManager.Env) (down : IndexerManager.Network),
          (forall prov,
              prov = IndexerManager.push_provider down
              \/ (exists chain,
                     prov = IndexerManager.ethereum_provider down chain)
              -> getBlockNumber prov = Rejected) ->
          let failed :=
            IndexerManager.getManagerStatus net message
              (IndexerManager.startAll down (IndexerManager.create env)) in
          IndexerManager.ms_isRunning failed = true
          /\ IndexerManager.ms_runningIndexers failed = 0%nat).
Proof.
  intros net message m total.
  assert (Htotal : forall m',
             IndexerManager.ms_totalIndexers
               (IndexerManager.getManagerStatus net message m')
             = S (List.length (IndexerManager.ethereumIndexers m'))).
  { intros m'; unfold IndexerManager.getManagerStatus,
                      IndexerManager.getStatus; simpl.
    rewrite length_map; reflexivity. }
  assert (Hsplit : forall s : IndexerManager.ManagerStatus,
             s = {| IndexerManager.ms_isRunning :=
                      IndexerManager.ms_isRunning s;
                    IndexerManager.ms_totalIndexers :=
                      IndexerManager.ms_totalIndexers s;
                    IndexerManager.ms_runningIndexers :=
                      IndexerManager.ms_runningIndexers s |})
    by (intros []; reflexivity).
  split; [|split; [|split]].
  - split; [apply Htotal|].
    rewrite runningIndexers_count; subst total.
    pose proof (filter_length_le
                  (fun entry : Z * EthereumIndexer.Watcher =>
                     EthereumIndexer.isRunning (snd entry))
                  (IndexerManager.ethereumIndexers m)) as Hle.
    destruct (match getBlockNumber _ with Resolved _ => _ | Rejected => _ end);
      simpl; lia.
  - intros Hoff Hup.
    rewrite (Hsplit (IndexerManager.getManagerStatus _ _ _)).
    rewrite Htotal, runningIndexers_count.
    unfold IndexerManager.startAll; rewrite Hoff;
      cbn [IndexerManager.ethereumIndexers IndexerManager.pushChainIndexer
           IndexerManager.getManagerStatus IndexerManager.ms_isRunning
           IndexerManager.isRunning].
    rewrite push_start_runs, length_map.
    rewrite filter_all.
    + rewrite length_map.
      pose proof (Hup _ (or_introl eq_refl)) as Hpush.
      destruct (getBlockNumber (IndexerManager.push_provider net));
        [reflexivity | contradiction Hpush; reflexivity].
    + intros entry Hin.
      apply in_map_iff in Hin as ([k w] & <- & _); simpl.
      rewrite ethereum_start_runs.
      pose proof (Hup _ (or_intror (ex_intro _ k eq_refl))) as Hk.
      destruct (getBlockNumber (IndexerManager.ethereum_provider net k));
        [reflexivity | contradiction Hk; reflexivity].
  - intros Hon.
    rewrite (Hsplit (IndexerManager.getManagerStatus _ _ _)).
    rewrite Htotal, runningIndexers_count.
    unfold IndexerManager.stopAll; rewrite Hon;
      cbn [negb IndexerManager.ethereumIndexers
           IndexerManager.pushChainIndexer IndexerManager.getManagerStatus
           IndexerManager.ms_isRunning IndexerManager.isRunning].
    rewrite push_stop_stops, length_map, filter_none.
    + destruct (getBlockNumber _); reflexivity.
    + intros entry Hin.
      apply in_map_iff in Hin as ([k w] & <- & _); simpl.
      apply ethereum_stop_stops.
  - intros env down Hdown failed; subst failed; split; [reflexivity|].
    rewrite runningIndexers_count.
    unfold IndexerManager.startAll, IndexerManager.create;
      cbn [IndexerManager.ethereumIndexers IndexerManager.pushChainIndexer
           IndexerManager.isRunning].
    rewrite push_start_runs, (Hdown _ (or_introl eq_refl)), filter_none.
    + destruct (getBlockNumber _); reflexivity.
    + intros entry Hin.
      apply in_map_iff in Hin as ([k w] & <- & Hin); simpl.
      rewrite ethereum_start_runs,
        (Hdown _ (or_intror (ex_intro _ k eq_refl))).
      rewrite initializeEthereumIndexers_table in Hin.
      apply in_map_iff in Hin as (c & Heq & _).
      inversion Heq; reflexivity.
Qed.

Lemma manager_status_counts_witness :
  IndexerManager.getManagerStatus (Scenario.network Scenario.quiet)
    EmptyString
    (IndexerManager.startAll (Scenario.network Scenario.quiet)
       (IndexerManager.create Scenario.env))
  = {| IndexerManager.ms_isRunning := true;
       IndexerManager.ms_totalIndexers := 2;
       IndexerManager.ms_runningIndexers := 2 |}
  /\ IndexerManager.getManagerStatus (Scenario.network Scenario.quiet)
       EmptyString
       (IndexerManager.stopAll
          (IndexerManager.startAll (Scenario.network Scenario.quiet)
             (IndexerManager.create Scenario.env)))
     = {| IndexerManager.ms_isRunning := false;
          IndexerManager.ms_totalIndexers := 2;
          IndexerManager.ms_runningIndexers := 0 |}
  /\ IndexerManager.ms_runningIndexers
       (IndexerManager.getManagerStatus (Scenario.network Scenario.quiet)
          EmptyString
          (IndexerManager.startAll (Scenario.network Scenario.unreachable)
             (IndexerManager.create Scenario.env))) = 0%nat.
Proof.
  split; [|split].
  - apply (proj1 (proj2
             (manager_status_counts (Scenario.network Scenario.quiet)
                EmptyString (IndexerManager.create Scenario.env))));
      [reflexivity|].
    intros prov [->|[chain ->]]; discriminate.
  - apply (proj1 (proj2 (proj2
             (manager_status_counts (Scenario.network Scenario.quiet)
                EmptyString
                (IndexerManager.startAll (Scenario.network Scenario.quiet)
                   (IndexerManager.create Scenario.env)))))).
    reflexivity.
  - apply (proj2 (proj2 (proj2
             (manager_status_counts (Scenario.network Scenario.quiet)
                EmptyString (IndexerManager.create Scenario.env))))
             Scenario.env (Scenario.network Scenario.unreachable)).
    intros prov [->|[chain ->]]; reflexivity.
Defined.

(** *** Starting, stopping and restarting *)

Lemma set_same (chain : Z) (w : EthereumIndexer.Watcher)
  (l : IndexerManager.IndexerMap) :
  IndexerManager.get chain l = Some w -> IndexerManager.set chain w l = l.
Proof.
  induction l as [|[c w'] l IH]; simpl; [discriminate|].
  destruct (c =? chain); intros Hget.
  - inversion Hget; reflexivity.
  - rewrite (IH Hget); reflexivity.
Qed.

Lemma push_restart (prov : Provider) (w : PushChainIndexer.Watcher) :
  PushChainIndexer.start prov (PushChainIndexer.stop w)
  = match getBlockNumber prov with
    | Resolved h =>
        ({| PushChainIndexer.isRunning := true;
            PushChainIndexer.lastProcessedBlock := Z.max 0 (h - 100) |},
         PushChainIndexer.Returned)
    | Rejected =>
        ({| PushChainIndexer.isRunning := false;
            PushChainIndexer.lastProcessedBlock :=
              PushChainIndexer.lastProcessedBlock w |},
         PushChainIndexer.Thrown)
    end.
Proof.
  unfold PushChainIndexer.start, PushChainIndexer.stop.
  destruct w as [[] cursor]; simpl; destruct (getBlockNumber prov);
    reflexivity.
Qed.

Lemma ethereum_restart (prov : Provider) (w : EthereumIndexer.Watcher) :
  EthereumIndexer.start prov (EthereumIndexer.stop w)
  = match getBlockNumber prov with
    | Resolved h =>
        ({| EthereumIndexer.isRunning := true;
            EthereumIndexer.lastProcessedBlock := Z.max 0 (h - 100);
            EthereumIndexer.this_chainId := EthereumIndexer.this_chainId w |},
         EthereumIndexer.Returned)
    | Rejected =>
        ({| EthereumIndexer.isRunning := false;
            EthereumIndexer.lastProcessedBlock :=
              EthereumIndexer.lastProcessedBlock w;
            EthereumIndexer.this_chainId := EthereumIndexer.this_chainId w |},
         EthereumIndexer.Thrown)
    end.
Proof.
  unfold EthereumIndexer.start, EthereumIndexer.stop.
  destruct w as [[] cursor this]; simpl; destruct (getBlockNumber prov);
    reflexivity.
Qed.

(** X10.  A restart does not resume at the cursor: start() after stop()
    sets lastProcessedBlock to max(0, height - 100) whatever it was, be
    it far below (1200 at height 5000) or above (4990) that block.  If
    the height query is rejected the watcher stays stopped at its old
    cursor and start() throws.  restartAll on a running manager whose
    providers answer does this to every watcher. *)
Theorem restart_rewinds_cursor :
  (forall (prov : Provider) (h : Z),
      getBlockNumber prov = Resolved h ->
      (forall w : PushChainIndexer.Watcher,
          PushChainIndexer.start prov (PushChainIndexer.stop w)
          = ({| PushChainIndexer.isRunning := true;
                PushChainIndexer.lastProcessedBlock := Z.max 0 (h - 100) |},
             PushChainIndexer.Returned))
      /\ (forall w : EthereumIndexer.Watcher,
             EthereumIndexer.start prov (EthereumIndexer.stop w)
             = ({| EthereumIndexer.isRunning := true;
                   EthereumIndexer.lastProcessedBlock := Z.max 0 (h - 100);
                   EthereumIndexer.this_chainId :=
                     EthereumIndexer.this_chainId w |},
                EthereumIndexer.Returned)))
  /\ (forall prov : Provider,
         getBlockNumber prov = Rejected ->
         (forall w : PushChainIndexer.Watcher,
             PushChainIndexer.start prov (PushChainIndexer.stop w)
             = ({| PushChainIndexer.isRunning := false;
                   PushChainIndexer.lastProcessedBlock :=
                     PushChainIndexer.lastProcessedBlock w |},
                PushChainIndexer.Thrown))
         /\ (forall w : EthereumIndexer.Watcher,
                EthereumIndexer.start prov (EthereumIndexer.stop w)
                = ({| EthereumIndexer.isRunning := false;
                      EthereumIndexer.lastProcessedBlock :=
                        EthereumIndexer.lastProcessedBlock w;
                      EthereumIndexer.this_chainId :=
                        EthereumIndexer.this_chainId w |},
                   EthereumIndexer.Thrown)))
  /\ (forall (net : IndexerManager.Network) (m : IndexerManager.Manager)
             (h : Z) (heights : Z -> Z),
         IndexerManager.isRunning m = true ->
         getBlockNumber (IndexerManager.push_provider net) = Resolved h ->
         (forall chain,
             getBlockNumber (IndexerManager.ethereum_provider net chain)
             = Resolved (heights chain)) ->
         IndexerManager.restartAll net m
         = {| IndexerManager.pushChainIndexer :=
                {| PushChainIndexer.isRunning := true;
                   PushChainIndexer.lastProcessedBlock :=
                     Z.max 0 (h - 100) |};
              IndexerManager.ethereumIndexers :=
                map (fun entry : Z * EthereumIndexer.Watcher =>
                       (fst entry,
                        {| EthereumIndexer.isRunning := true;
                           EthereumIndexer.lastProcessedBlock :=
                             Z.max 0 (heights (fst entry) - 100);
                           EthereumIndexer.this_chainId :=
                             EthereumIndexer.this_chainId (snd entry) |}))
                    (IndexerManager.ethereumIndexers m);
              IndexerManager.isRunning := true |}).
Proof.
  split; [|split].
  - intros prov h Hh; split; intros w;
      [rewrite push_restart | rewrite ethereum_restart]; rewrite Hh;
      reflexivity.
  - intros prov Hh; split; intros w;
      [rewrite push_restart | rewrite ethereum_restart]; rewrite Hh;
      reflexivity.
  - intros net m h heights Hon Hpush Heth.
    unfold IndexerManager.restartAll, IndexerManager.stopAll; rewrite Hon.
    unfold IndexerManager.startAll;
      cbn [negb IndexerManager.isRunning IndexerManager.pushChainIndexer
           IndexerManager.ethereumIndexers].
    rewrite push_restart, Hpush, map_map; cbn [fst]; f_equal.
    apply map_ext; intros [k w]; cbn [fst snd].
    rewrite ethereum_restart, Heth; reflexivity.
Qed.

Lemma restart_rewinds_cursor_witness :
  let prov := {| getBlockNumber := Resolved 5000;
                 getTransactionReceipt := fun _ => Resolved None;
                 getTransaction := fun _ => Resolved None;
                 queryPaymentReceived := fun _ _ => Resolved [];
                 queryWithdrawalExecuted := fun _ _ => Resolved [];
                 queryFeeCollected := fun _ _ => Resolved [];
                 queryCrossChainPaymentInitiated := fun _ _ => Resolved [] |} in
  PushChainIndexer.lastProcessedBlock
    (fst (PushChainIndexer.start prov
            (PushChainIndexer.stop
               {| PushChainIndexer.isRunning := true;
                  PushChainIndexer.lastProcessedBlock := 1200 |}))) = 4900
  /\ PushChainIndexer.lastProcessedBlock
       (fst (PushChainIndexer.start prov
               (PushChainIndexer.stop
                  {| PushChainIndexer.isRunning := true;
                     PushChainIndexer.lastProcessedBlock := 4990 |}))) = 4900.
Proof.
  intros prov; split.
  - rewrite (proj1 (proj1 restart_rewinds_cursor prov 5000 eq_refl));
      reflexivity.
  - rewrite (proj1 (proj1 restart_rewinds_cursor prov 5000 eq_refl));
      reflexivity.
Defined.

(** A tick, or a pushed log, finds a stopped system as it leaves it. *)
Lemma stopped_step (cfg : PushChainConfig) (a : Activity) (s : System) :
  PushChainIndexer.isRunning (IndexerManager.pushChainIndexer (manager s))
  = false ->
  Forall (fun entry : Z * EthereumIndexer.Watcher =>
            EthereumIndexer.isRunning (snd entry) = false)
         (IndexerManager.ethereumIndexers (manager s)) ->
  match a with Manage _ => False | _ => True end ->
  step cfg a s = s.
Proof.
  intros Hpush Heth Ha; destruct s as [[push eth flag] db]; simpl in *.
  destruct a as [c|prov now|chain prov now|d]; simpl; [contradiction| | |].
  - unfold PushChainIndexer.processBlocks; rewrite Hpush; simpl.
    destruct push; reflexivity.
  - destruct (IndexerManager.get chain eth) as [w|] eqn:Hget; [|reflexivity].
    assert (Hw : EthereumIndexer.isRunning w = false).
    { rewrite Forall_forall in Heth.
      apply (Heth (chain, w)), get_is_entry, Hget. }
    unfold EthereumIndexer.processBlocks; rewrite Hw; simpl.
    rewrite (set_same chain w eth Hget); reflexivity.
  - unfold listening; simpl.
    destruct (delivery_watcher d) as [this|].
    + destruct (IndexerManager.get this eth) as [w|] eqn:Hget;
        [|reflexivity].
      assert (Hw : EthereumIndexer.isRunning w = false).
      { rewrite Forall_forall in Heth.
        apply (Heth (this, w)), get_is_entry, Hget. }
      rewrite Hw; reflexivity.
    + rewrite Hpush; reflexivity.
Qed.

Lemma stopped_run (cfg : PushChainConfig) (activities : list Activity)
  (s : System) :
  PushChainIndexer.isRunning (IndexerManager.pushChainIndexer (manager s))
  = false ->
  Forall (fun entry : Z * EthereumIndexer.Watcher =>
            EthereumIndexer.isRunning (snd entry) = false)
         (IndexerManager.ethereumIndexers (manager s)) ->
  Forall (fun a => match a with Manage _ => False | _ => True end)
         activities ->
  run cfg activities s = s.
Proof.
  intros Hpush Heth Hacts; induction Hacts as [|a activities Ha _ IH];
    [reflexivity|].
  unfold run in *; simpl.
  rewrite (stopped_step cfg a s Hpush Heth Ha); exact IH.
Qed.

(** X11.  While every watcher is stopped nothing is indexed: backfill
    closures that still fire return at once, and listeners are gone, so
    the watchers, their cursors and the store stay as they are.  This is
    the state of a system before its first start, and after stopAll on a
    running manager. *)
Theorem stopped_system_indexes_nothing :
  forall (cfg : PushChainConfig) (activities : list Activity),
    Forall (fun a => match a with Manage _ => False | _ => True end)
           activities ->
    (forall s : System,
        PushChainIndexer.isRunning
          (IndexerManager.pushChainIndexer (manager s)) = false ->
        Forall (fun entry : Z * EthereumIndexer.Watcher =>
                  EthereumIndexer.isRunning (snd entry) = false)
               (IndexerManager.ethereumIndexers (manager s)) ->
        run cfg activities s = s)
    /\ (forall (env : IndexerManager.Env) (db : Db),
           run cfg activities (boot env db) = boot env db)
    /\ (forall s : System,
           IndexerManager.isRunning (manager s) = true ->
           run cfg (Manage IndexerManager.StopAll :: activities) s
           = {| manager := IndexerManager.stopAll (manager s);
                store := store s |}).
Proof.
  intros cfg activities Hacts; split; [|split].
  - intros s Hpush Heth; apply stopped_run; assumption.
  - intros env db; apply stopped_run; [reflexivity | | exact Hacts].
    unfold boot, IndexerManager.create; simpl.
    rewrite initializeEthereumIndexers_table.
    apply Forall_forall; intros entry Hin.
    apply in_map_iff in Hin as (c & <- & _); reflexivity.
  - intros s Hon.
    change (run cfg (Manage IndexerManager.StopAll :: activities) s)
      with (run cfg activities
              {| manager := IndexerManager.stopAll (manager s);
                 store := store s |}).
    apply stopped_run; [| | exact Hacts];
      unfold IndexerManager.stopAll; rewrite Hon; simpl.
    + apply push_stop_stops.
    + apply Forall_forall; intros entry Hin.
      apply in_map_iff in Hin as ([k w] & <- & _); simpl.
      apply ethereum_stop_stops.
Qed.

Lemma stopped_system_indexes_nothing_witness :
  let activities :=
    [PushTick Scenario.quiet 7;
     Pushed (PushPayment Scenario.quiet 8
               (Scenario.push_payment "0xabc" "100"));
     EthereumTick 1 Scenario.quiet 9] in
  run Scenario.cfg activities
    (boot Scenario.env (Scenario.store "100.00000000"))
  = boot Scenario.env (Scenario.store "100.00000000").
Proof.
  apply (stopped_system_indexes_nothing Scenario.cfg
           [PushTick Scenario.quiet 7;
            Pushed (PushPayment Scenario.quiet 8
               (Scenario.push_payment "0xabc" "100"));
            EthereumTick 1 Scenario.quiet 9]).
  repeat constructor.
Defined.

(** *** The cursors of a running system *)

Lemma push_start_cursor (prov : Provider) (w : PushChainIndexer.Watcher) :
  0 <= PushChainIndexer.lastProcessedBlock w ->
  0 <= PushChainIndexer.lastProcessedBlock
         (fst (PushChainIndexer.start prov w)).
Proof.
  unfold PushChainIndexer.start.
  destruct (PushChainIndexer.isRunning w); [auto|].
  destruct (getBlockNumber prov); simpl; lia.
Qed.

Lemma ethereum_start_cursor (prov : Provider) (w : EthereumIndexer.Watcher) :
  0 <= EthereumIndexer.lastProcessedBlock w ->
  0 <= EthereumIndexer.lastProcessedBlock
         (fst (EthereumIndexer.start prov w)).
Proof.
  unfold EthereumIndexer.start.
  destruct (EthereumIndexer.isRunning w); [auto|].
  destruct (getBlockNumber prov); simpl; lia.
Qed.

Lemma push_stop_cursor (w : PushChainIndexer.Watcher) :
  PushChainIndexer.lastProcessedBlock (PushChainIndexer.stop w)
  = PushChainIndexer.lastProcessedBlock w.
Proof. unfold PushChainIndexer.stop; destruct (negb _); reflexivity. Qed.

Lemma ethereum_stop_cursor (w : EthereumIndexer.Watcher) :
  EthereumIndexer.lastProcessedBlock (EthereumIndexer.stop w)
  = EthereumIndexer.lastProcessedBlock w.
Proof. unfold EthereumIndexer.stop; destruct (negb _); reflexivity. Qed.

Lemma set_forall (P : Z * EthereumIndexer.Watcher -> Prop) (chain : Z)
  (w w0 : EthereumIndexer.Watcher) (l : IndexerManager.IndexerMap) :
  IndexerManager.get chain l = Some w0 ->
  (forall c, P (c, w0) -> P (c, w)) ->
  Forall P l -> Forall P (IndexerManager.set chain w l).
Proof.
  intros Hget Hstep Hall; induction Hall as [|[c w'] l Hc Hl IH];
    simpl in *; [discriminate|].
  destruct (c =? chain).
  - inversion Hget; subst w'; constructor; [apply Hstep, Hc | exact Hl].
  - constructor; [exact Hc | apply IH, Hget].
Qed.

Lemma call_keeps_cursors (c : IndexerManager.Call)
  (m : IndexerManager.Manager) :
  0 <= PushChainIndexer.lastProcessedBlock
         (IndexerManager.pushChainIndexer m) ->
  Forall (fun entry : Z * EthereumIndexer.Watcher =>
            0 <= EthereumIndexer.lastProcessedBlock (snd entry))
         (IndexerManager.ethereumIndexers m) ->
  0 <= PushChainIndexer.lastProcessedBlock
         (IndexerManager.pushChainIndexer (IndexerManager.call c m))
  /\ Forall (fun entry : Z * EthereumIndexer.Watcher =>
               0 <= EthereumIndexer.lastProcessedBlock (snd entry))
            (IndexerManager.ethereumIndexers (IndexerManager.call c m)).
Proof.
  assert (Hstart : forall net m,
             0 <= PushChainIndexer.lastProcessedBlock
                    (IndexerManager.pushChainIndexer m) ->
             Forall (fun entry : Z * EthereumIndexer.Watcher =>
                       0 <= EthereumIndexer.lastProcessedBlock (snd entry))
                    (IndexerManager.ethereumIndexers m) ->
             0 <= PushChainIndexer.lastProcessedBlock
                    (IndexerManager.pushChainIndexer
                       (IndexerManager.startAll net m))
             /\ Forall (fun entry : Z * EthereumIndexer.Watcher =>
                          0 <= EthereumIndexer.lastProcessedBlock (snd entry))
                       (IndexerManager.ethereumIndexers
                          (IndexerManager.startAll net m))).
  { intros net m0 Hp He; unfold IndexerManager.startAll.
    destruct (IndexerManager.isRunning m0); [split; assumption|]; simpl.
    split; [apply push_start_cursor, Hp|].
    apply Forall_map; eapply Forall_impl; [|exact He].
    intros [k w] Hw; simpl in *; apply ethereum_start_cursor, Hw. }
  assert (Hstop : forall m,
             0 <= PushChainIndexer.lastProcessedBlock
                    (IndexerManager.pushChainIndexer m) ->
             Forall (fun entry : Z * EthereumIndexer.Watcher =>
                       0 <= EthereumIndexer.lastProcessedBlock (snd entry))
                    (IndexerManager.ethereumIndexers m) ->
             0 <= PushChainIndexer.lastProcessedBlock
                    (IndexerManager.pushChainIndexer
                       (IndexerManager.stopAll m))
             /\ Forall (fun entry : Z * EthereumIndexer.Watcher =>
                          0 <= EthereumIndexer.lastProcessedBlock (snd entry))
                       (IndexerManager.ethereumIndexers
                          (IndexerManager.stopAll m))).
  { intros m0 Hp He; unfold IndexerManager.stopAll.
    destruct (negb _); [split; assumption|]; simpl.
    split; [rewrite push_stop_cursor; exact Hp|].
    apply Forall_map; eapply Forall_impl; [|exact He].
    intros [k w] Hw; simpl in *; rewrite ethereum_stop_cursor; exact Hw. }
  intros Hp He; destruct c as [net| |net|net chain|chain]; simpl.
  - apply Hstart; assumption.
  - apply Hstop; assumption.
  - unfold IndexerManager.restartAll.
    destruct (Hstop m Hp He); apply Hstart; assumption.
  - unfold IndexerManager.startIndexer.
    destruct (chain =? 42101).
    + pose proof (push_start_cursor (IndexerManager.push_provider net)
                    _ Hp) as Hp'.
      destruct (PushChainIndexer.start _ _); simpl in *; split; assumption.
    + destruct (IndexerManager.get chain _) as [indexer|] eqn:Hget;
        [|split; assumption].
      pose proof (ethereum_start_cursor
                    (IndexerManager.ethereum_provider net chain) indexer)
        as Hw.
      destruct (EthereumIndexer.start _ indexer) as [w reply]; simpl in *.
      split; [exact Hp|].
      apply (set_forall _ chain w indexer _ Hget); [|exact He].
      intros c; simpl; exact Hw.
  - unfold IndexerManager.stopIndexer.
    destruct (chain =? 42101); simpl.
    + split; [rewrite push_stop_cursor; exact Hp | exact He].
    + destruct (IndexerManager.get chain _) as [indexer|] eqn:Hget;
        [|split; assumption].
      simpl; split; [exact Hp|].
      apply (set_forall _ chain _ indexer _ Hget); [|exact He].
      intros c; simpl; rewrite ethereum_stop_cursor; auto.
Qed.

Lemma step_keeps_cursors (cfg : PushChainConfig) (a : Activity)
  (s : System) :
  0 <= PushChainIndexer.lastProcessedBlock
         (IndexerManager.pushChainIndexer (manager s)) ->
  Forall (fun entry : Z * EthereumIndexer.Watcher =>
            0 <= EthereumIndexer.lastProcessedBlock (snd entry))
         (IndexerManager.ethereumIndexers (manager s)) ->
  0 <= PushChainIndexer.lastProcessedBlock
         (IndexerManager.pushChainIndexer (manager (step cfg a s)))
  /\ Forall (fun entry : Z * EthereumIndexer.Watcher =>
               0 <= EthereumIndexer.lastProcessedBlock (snd entry))
            (IndexerManager.ethereumIndexers (manager (step cfg a s))).
Proof.
  intros Hp He; destruct a as [c|prov now|chain prov now|d]; simpl.
  - apply call_keeps_cursors; assumption.
  - pose proof (push_tick_cursor cfg prov now
                  (IndexerManager.pushChainIndexer (manager s)) (store s))
      as Hle.
    destruct (PushChainIndexer.processBlocks _ _ _ _ _); simpl in *.
    split; [lia | exact He].
  - destruct (IndexerManager.get chain _) as [indexer|] eqn:Hget;
      [|split; assumption].
    pose proof (ethereum_tick_cursor prov now indexer (store s)) as Hle.
    destruct (EthereumIndexer.processBlocks _ _ indexer _) as [w db];
      simpl in *.
    split; [exact Hp|].
    apply (set_forall _ chain w indexer _ Hget); [|exact He].
    intros c; simpl; lia.
  - destruct (listening _ _); split; assumption.
Qed.

(** X12.  No cursor of a booted system is ever negative, whatever the
    providers answer (a negative height included) and in whatever order
    calls, ticks and pushed logs come. *)
Theorem cursors_are_never_negative :
  forall (cfg : PushChainConfig) (activities : list Activity)
         (env : IndexerManager.Env) (db : Db),
    let m := manager (run cfg activities (boot env db)) in
    0 <= PushChainIndexer.lastProcessedBlock
           (IndexerManager.pushChainIndexer m)
    /\ Forall (fun entry : Z * EthereumIndexer.Watcher =>
                 0 <= EthereumIndexer.lastProcessedBlock (snd entry))
              (IndexerManager.ethereumIndexers m).
Proof.
  intros cfg activities env db.
  assert (Hinv : forall s,
             0 <= PushChainIndexer.lastProcessedBlock
                    (IndexerManager.pushChainIndexer (manager s)) ->
             Forall (fun entry : Z * EthereumIndexer.Watcher =>
                       0 <= EthereumIndexer.lastProcessedBlock (snd entry))
                    (IndexerManager.ethereumIndexers (manager s)) ->
             0 <= PushChainIndexer.lastProcessedBlock
                    (IndexerManager.pushChainIndexer
                       (manager (run cfg activities s)))
             /\ Forall (fun entry : Z * EthereumIndexer.Watcher =>
                          0 <= EthereumIndexer.lastProcessedBlock (snd entry))
                       (IndexerManager.ethereumIndexers
                          (manager (run cfg activities s)))).
  { induction activities as [|a activities IH]; intros s Hp He;
      [split; assumption|].
    unfold run in *; simpl.
    destruct (step_keeps_cursors cfg a s Hp He) as [Hp' He'].
    apply IH; assumption. }
  apply Hinv.
  - simpl; lia.
  - unfold boot, IndexerManager.create; simpl.
    rewrite initializeEthereumIndexers_table.
    apply Forall_forall; intros entry Hin.
    apply in_map_iff in Hin as (c & <- & _); simpl; lia.
Qed.

(** *** The batches of an Ethereum backfill tick *)

Lemma blocks_empty (fromBlock toBlock : Z) :
  toBlock < fromBlock -> blocks fromBlock toBlock = [].
Proof.
  intros H; unfold blocks.
  replace (Z.to_nat (toBlock - fromBlock + 1)) with 0%nat by lia.
  reflexivity.
Qed.

Lemma blocks_shift (len : nat) :
  forall (n m : nat) (a b : Z),
    a + Z.of_nat n = b + Z.of_nat m ->
    map (fun k => a + Z.of_nat k) (seq n len)
    = map (fun k => b + Z.of_nat k) (seq m len).
Proof.
  induction len as [|len IH]; intros n m a b H; simpl; [reflexivity|].
  f_equal; [exact H | apply IH; lia].
Qed.

Lemma blocks_split (fromBlock middle toBlock : Z) :
  fromBlock <= middle + 1 -> middle <= toBlock ->
  blocks fromBlock middle ++ blocks (middle + 1) toBlock
  = blocks fromBlock toBlock.
Proof.
  intros Hlo Hhi; unfold blocks.
  replace (Z.to_nat (toBlock - fromBlock + 1))
    with (Z.to_nat (middle - fromBlock + 1)
          + Z.to_nat (toBlock - (middle + 1) + 1))%nat by lia.
  rewrite seq_app, map_app; f_equal.
  apply blocks_shift; lia.
Qed.

Lemma batches_windows (this : Z) (prov : Provider) (now latestBlock : Z) :
  forall (fuel : nat) (i : Z) (db : Db),
    EthereumIndexer.batches fuel this prov now i latestBlock db
    = fold_left
        (fun acc window =>
           EthereumIndexer.processBlockRange this prov now
             (fst window) (snd window) acc)
        (EthereumIndexer.batch_windows fuel i latestBlock) db.
Proof.
  induction fuel as [|fuel IH]; intros i db; simpl; [reflexivity|].
  destruct (i <=? latestBlock); simpl; [apply IH | reflexivity].
Qed.

Lemma batch_windows_cover (latestBlock : Z) :
  forall (fuel : nat) (i : Z),
    latestBlock - i + 1 <= Z.of_nat fuel ->
    List.concat (map (fun window => blocks (fst window) (snd window))
                (EthereumIndexer.batch_windows fuel i latestBlock))
    = blocks i latestBlock.
Proof.
  induction fuel as [|fuel IH]; intros i Hfuel; simpl.
  - rewrite blocks_empty; [reflexivity | lia].
  - destruct (Z.leb_spec i latestBlock) as [Hle|Hgt]; simpl.
    + rewrite IH by lia.
      destruct (Z.le_gt_cases latestBlock (i + 10 - 1)) as [Hlast|Hmore].
      * rewrite Z.min_r by lia.
        rewrite (blocks_empty (i + 10)), app_nil_r by lia; reflexivity.
      * rewrite Z.min_l by lia.
        rewrite <- (blocks_split i (i + 10 - 1) latestBlock) by lia.
        do 2 f_equal; lia.
    + rewrite blocks_empty; [reflexivity | lia].
Qed.

Lemma batch_windows_sizes (latestBlock : Z) :
  forall (fuel : nat) (i : Z),
    Forall (fun window : Z * Z =>
              i <= fst window <= snd window
              /\ snd window <= latestBlock
              /\ snd window - fst window < 10)
           (EthereumIndexer.batch_windows fuel i latestBlock).
Proof.
  induction fuel as [|fuel IH]; intros i; simpl; [constructor|].
  destruct (Z.leb_spec i latestBlock) as [Hle|Hgt]; [|constructor].
  constructor; [simpl; lia|].
  eapply Forall_impl; [|apply (IH (i + 10))].
  intros [a b]; simpl; lia.
Qed.

(** The logs of a range reach the processors as deliveries: all the
    CrossChainPaymentInitiated logs first, then the PaymentReceived
    ones; a rejected query leaves the range out. *)
Lemma fold_left_deliveries {A : Type} (cfg : PushChainConfig)
  (one : A -> list Delivery) (apply : Db -> A -> Db) (logs : list A) :
  (forall acc l, apply acc l = deliver_all cfg (one l) acc) ->
  forall db, fold_left apply logs db = deliver_all cfg (flat_map one logs) db.
Proof.
  intros Hone; induction logs as [|l logs IH]; intros db; simpl;
    [reflexivity|].
  unfold deliver_all in *; rewrite fold_left_app, <- Hone; apply IH.
Qed.

Lemma ethereum_range_deliveries (cfg : PushChainConfig) (this : Z)
  (prov : Provider) (now fromBlock toBlock : Z) (db : Db) :
  EthereumIndexer.processBlockRange this prov now fromBlock toBlock db
  = match queryCrossChainPaymentInitiated prov fromBlock toBlock,
          queryPaymentReceived prov fromBlock toBlock with
    | Resolved crossChainEvents, Resolved directPaymentEvents =>
        deliver_all cfg
          (ethereum_cross_chain_deliveries this prov now crossChainEvents
           ++ ethereum_direct_deliveries this prov now directPaymentEvents)
          db
    | _, _ => db
    end.
Proof.
  unfold EthereumIndexer.processBlockRange.
  destruct (queryCrossChainPaymentInitiated prov fromBlock toBlock)
    as [crossChainEvents|]; [|reflexivity].
  destruct (queryPaymentReceived prov fromBlock toBlock)
    as [directPaymentEvents|]; [|reflexivity].
  pose proof (fold_left_deliveries cfg
                (fun event : Log CrossChainPaymentInitiatedArgs =>
                   match log_args event with
                   | Some a =>
                       [EthereumCrossChain this prov now
                          (EthereumIndexer.crossChainEvent_of_log this
                             event a)]
                   | None => []
                   end)
                (fun acc event =>
                   match log_args event with
                   | Some a =>
                       EthereumIndexer.processCrossChainPaymentEvent this
                         prov now
                         (EthereumIndexer.crossChainEvent_of_log this event a)
                         acc
                   | None => acc
                   end) crossChainEvents) as Hcross.
  pose proof (fold_left_deliveries cfg
                (fun event : Log PaymentReceivedArgs =>
                   match log_args event with
                   | Some a =>
                       [EthereumDirect this prov now
                          (EthereumIndexer.directEvent_of_log this event a)]
                   | None => []
                   end)
                (fun acc event =>
                   match log_args event with
                   | Some a =>
                       EthereumIndexer.processDirectPaymentEvent this
                         prov now
                         (EthereumIndexer.directEvent_of_log this event a)
                         acc
                   | None => acc
                   end) directPaymentEvents) as Hdirect.
  unfold ethereum_cross_chain_deliveries, ethereum_direct_deliveries.
  unfold deliver_all in *; rewrite fold_left_app.
  rewrite Hcross, Hdirect;
    [reflexivity | |]; intros acc l; destruct (log_args l); reflexivity.
Qed.

(** X13.  A backfill tick of a running Ethereum watcher that reads a
    height above its cursor hands processBlockRange consecutive windows
    of at most ten blocks that together are exactly the blocks
    cursor + 1 .. height, each block once and in order, and then sets
    the cursor to the height.  Each window delivers its decoded
    CrossChainPaymentInitiated logs and then its decoded PaymentReceived
    logs to the processors; a window with a rejected query delivers
    nothing and does not stop the tick. *)
Theorem ethereum_tick_batches :
  forall (cfg : PushChainConfig) (prov : Provider) (now latestBlock : Z)
         (w : EthereumIndexer.Watcher) (db : Db),
    EthereumIndexer.isRunning w = true ->
    getBlockNumber prov = Resolved latestBlock ->
    EthereumIndexer.lastProcessedBlock w < latestBlock ->
    let windows :=
      EthereumIndexer.batch_windows
        (Z.to_nat (latestBlock - EthereumIndexer.lastProcessedBlock w))
        (EthereumIndexer.lastProcessedBlock w + 1) latestBlock in
    let window_deliveries (window : Z * Z) : list Delivery :=
      match queryCrossChainPaymentInitiated prov (fst window) (snd window),
            queryPaymentReceived prov (fst window) (snd window) with
      | Resolved crossChainEvents, Resolved directPaymentEvents =>
          ethereum_cross_chain_deliveries (EthereumIndexer.this_chainId w)
            prov now crossChainEvents
          ++ ethereum_direct_deliveries (EthereumIndexer.this_chainId w)
               prov now directPaymentEvents
      | _, _ => []
      end in
    EthereumIndexer.processBlocks prov now w db
    = ({| EthereumIndexer.isRunning := true;
          EthereumIndexer.lastProcessedBlock := latestBlock;
          EthereumIndexer.this_chainId := EthereumIndexer.this_chainId w |},
       deliver_all cfg (flat_map window_deliveries windows) db)
    /\ List.concat (map (fun window => blocks (fst window) (snd window)) windows)
       = blocks (EthereumIndexer.lastProcessedBlock w + 1) latestBlock
    /\ Forall (fun window : Z * Z =>
                 fst window <= snd window
                 /\ snd window - fst window < 10) windows.
Proof.
  intros cfg prov now latestBlock w db Hrun Hheight Hbelow windows
         window_deliveries.
  split; [|split].
  - unfold EthereumIndexer.processBlocks.
    rewrite Hrun, Hheight; simpl negb; cbv iota.
    destruct (Z.gtb_spec latestBlock (EthereumIndexer.lastProcessedBlock w))
      as [_|Hno]; [|lia].
    cbv zeta; rewrite batches_windows; fold windows; f_equal.
    apply fold_left_deliveries; intros acc window.
    rewrite (ethereum_range_deliveries cfg); subst window_deliveries;
      cbv beta.
    destruct (queryCrossChainPaymentInitiated prov _ _);
      [destruct (queryPaymentReceived prov _ _)|]; reflexivity.
  - apply batch_windows_cover; lia.
  - eapply Forall_impl; [|apply batch_windows_sizes].
    intros [a b]; simpl; lia.
Qed.

Lemma ethereum_tick_batches_witness :
  let prov := {| getBlockNumber := Resolved 25;
                 getTransactionReceipt := fun _ => Resolved None;
                 getTransaction := fun _ => Resolved None;
                 queryPaymentReceived := fun _ _ => Resolved [];
                 queryWithdrawalExecuted := fun _ _ => Resolved [];
                 queryFeeCollected := fun _ _ => Resolved [];
                 queryCrossChainPaymentInitiated := fun _ _ => Rejected |} in
  let w := {| EthereumIndexer.isRunning := true;
              EthereumIndexer.lastProcessedBlock := 0;
              EthereumIndexer.this_chainId := 1 |} in
  EthereumIndexer.processBlocks prov 3 w (Scenario.store "100.00000000")
  = ({| EthereumIndexer.isRunning := true;
        EthereumIndexer.lastProcessedBlock := 25;
        EthereumIndexer.this_chainId := 1 |}, Scenario.store "100.00000000")
  /\ EthereumIndexer.batch_windows 25 1 25 = [(1, 10); (11, 20); (21, 25)].
Proof.
  intros prov w.
  destruct (ethereum_tick_batches Scenario.cfg prov 3 25 w
              (Scenario.store "100.00000000") eq_refl eq_refl)
    as (Htick & _ & _); [reflexivity|].
  split; [rewrite Htick|]; reflexivity.
Defined.

(** *** The ranges of a Push Chain backfill tick *)

Lemma for_each_decoded {A : Type} (cfg : PushChainConfig)
  (step : A -> Db -> PushChainIndexer.Outcome) (one : A -> option Delivery) :
  (forall l db,
      step l db = match one l with
                  | Some d => PushChainIndexer.Completed (deliver cfg d db)
                  | None => PushChainIndexer.Threw db
                  end) ->
  forall (logs : list A) (db : Db),
    Forall (fun l => one l <> None) logs ->
    PushChainIndexer.for_each step logs db
    = PushChainIndexer.Completed
        (deliver_all cfg
           (flat_map (fun l => match one l with
                               | Some d => [d]
                               | None => []
                               end) logs) db).
Proof.
  intros Hstep logs db Hall; revert db.
  induction Hall as [|l logs Hl _ IH]; intros db; simpl; [reflexivity|].
  rewrite Hstep; destruct (one l) as [d|]; [|congruence].
  rewrite IH; reflexivity.
Qed.

Lemma for_each_undecoded {A : Type} (cfg : PushChainConfig)
  (step : A -> Db -> PushChainIndexer.Outcome) (one : A -> option Delivery) :
  (forall l db,
      step l db = match one l with
                  | Some d => PushChainIndexer.Completed (deliver cfg d db)
                  | None => PushChainIndexer.Threw db
                  end) ->
  forall (before : list A) (bad : A) (after : list A) (db : Db),
    Forall (fun l => one l <> None) before ->
    one bad = None ->
    PushChainIndexer.for_each step (before ++ bad :: after) db
    = PushChainIndexer.Threw
        (deliver_all cfg
           (flat_map (fun l => match one l with
                               | Some d => [d]
                               | None => []
                               end) before) db).
Proof.
  intros Hstep before bad after db Hall Hbad; revert db.
  induction Hall as [|l logs Hl _ IH]; intros db; simpl.
  - rewrite Hstep, Hbad; reflexivity.
  - rewrite Hstep; destruct (one l) as [d|]; [|congruence].
    rewrite IH; reflexivity.
Qed.

Lemma push_payments_loop (cfg : PushChainConfig) (prov : Provider) (now : Z)
  (logs : list (Log PaymentReceivedArgs)) (db : Db) :
  Forall (fun l => log_args l <> None) logs ->
  PushChainIndexer.for_each
    (PushChainIndexer.processPaymentEventFromLog cfg prov now) logs db
  = PushChainIndexer.Completed
      (deliver_all cfg (push_payment_deliveries prov now logs) db).
Proof.
  intros Hall.
  rewrite (for_each_decoded cfg _
             (fun l => option_map
                         (fun a => PushPayment prov now
                                     (PushChainIndexer.paymentEvent_of_log
                                        l a))
                         (log_args l))).
  - do 2 f_equal; apply flat_map_ext; intros l; destruct (log_args l);
      reflexivity.
  - intros l db0; unfold PushChainIndexer.processPaymentEventFromLog.
    destruct (log_args l); reflexivity.
  - eapply Forall_impl; [|exact Hall]; intros l Hl; cbv beta in Hl.
    destruct (log_args l); [discriminate | congruence].
Qed.

Lemma push_withdrawals_loop (cfg : PushChainConfig) (now : Z)
  (logs : list (Log WithdrawalExecutedArgs)) (db : Db) :
  Forall (fun l => log_args l <> None) logs ->
  PushChainIndexer.for_each
    (PushChainIndexer.processWithdrawalEventFromLog cfg now) logs db
  = PushChainIndexer.Completed
      (deliver_all cfg (push_withdrawal_deliveries now logs) db).
Proof.
  intros Hall.
  rewrite (for_each_decoded cfg _
             (fun l => option_map
                         (fun a => PushWithdrawal now
                                     (PushChainIndexer.withdrawalEvent_of_log
                                        l a))
                         (log_args l))).
  - do 2 f_equal; apply flat_map_ext; intros l; destruct (log_args l);
      reflexivity.
  - intros l db0; unfold PushChainIndexer.processWithdrawalEventFromLog.
    destruct (log_args l); reflexivity.
  - eapply Forall_impl; [|exact Hall]; intros l Hl; cbv beta in Hl.
    destruct (log_args l); [discriminate | congruence].
Qed.

Lemma push_fees_loop (cfg : PushChainConfig) (now : Z)
  (logs : list (Log FeeCollectedArgs)) (db : Db) :
  Forall (fun l => log_args l <> None) logs ->
  PushChainIndexer.for_each
    (PushChainIndexer.processFeeEventFromLog now) logs db
  = PushChainIndexer.Completed
      (deliver_all cfg (push_fee_deliveries now logs) db).
Proof.
  intros Hall.
  rewrite (for_each_decoded cfg _
             (fun l => option_map
                         (fun a => PushFee now
                                     (PushChainIndexer.feeEvent_of_log l a))
                         (log_args l))).
  - do 2 f_equal; apply flat_map_ext; intros l; destruct (log_args l);
      reflexivity.
  - intros l db0; unfold PushChainIndexer.processFeeEventFromLog.
    destruct (log_args l); reflexivity.
  - eapply Forall_impl; [|exact Hall]; intros l Hl; cbv beta in Hl.
    destruct (log_args l); [discriminate | congruence].
Qed.

Lemma push_withdrawals_loop_throws (cfg : PushChainConfig) (now : Z)
  (before : list (Log WithdrawalExecutedArgs))
  (bad : Log WithdrawalExecutedArgs)
  (after : list (Log WithdrawalExecutedArgs)) (db : Db) :
  Forall (fun l => log_args l <> None) before ->
  log_args bad = None ->
  PushChainIndexer.for_each
    (PushChainIndexer.processWithdrawalEventFromLog cfg now)
    (before ++ bad :: after) db
  = PushChainIndexer.Threw
      (deliver_all cfg (push_withdrawal_deliveries now before) db).
Proof.
  intros Hall Hbad.
  rewrite (for_each_undecoded cfg _
             (fun l => option_map
                         (fun a => PushWithdrawal now
                                     (PushChainIndexer.withdrawalEvent_of_log
                                        l a))
                         (log_args l))).
  - do 2 f_equal; apply flat_map_ext; intros l; destruct (log_args l);
      reflexivity.
  - intros l db0; unfold PushChainIndexer.processWithdrawalEventFromLog.
    destruct (log_args l); reflexivity.
  - eapply Forall_impl; [|exact Hall]; intros l Hl; cbv beta in Hl.
    destruct (log_args l); [discriminate | congruence].
  - rewrite Hbad; reflexivity.
Qed.

Lemma deliver_all_app (cfg : PushChainConfig) (ds ds' : list Delivery)
  (db : Db) :
  deliver_all cfg (ds ++ ds') db = deliver_all cfg ds' (deliver_all cfg ds db).
Proof. unfold deliver_all; apply fold_left_app. Qed.

(** X14.  A backfill tick of the running Push Chain watcher that reads a
    height above its cursor asks for the three kinds of logs of the range
    cursor + 1 .. height; when the answers are decoded logs it delivers
    all PaymentReceived events, then all WithdrawalExecuted events, then
    all FeeCollected events (by kind, not by block), each in the order of
    its answer, and sets the cursor to the height. *)
Theorem push_tick_delivers_by_kind :
  forall (cfg : PushChainConfig) (prov : Provider) (now latestBlock : Z)
         (w : PushChainIndexer.Watcher) (db : Db)
         (paymentEvents : list (Log PaymentReceivedArgs))
         (withdrawalEvents : list (Log WithdrawalExecutedArgs))
         (feeEvents : list (Log FeeCollectedArgs)),
    PushChainIndexer.isRunning w = true ->
    getBlockNumber prov = Resolved latestBlock ->
    PushChainIndexer.lastProcessedBlock w < latestBlock ->
    queryPaymentReceived prov (PushChainIndexer.lastProcessedBlock w + 1)
      latestBlock = Resolved paymentEvents ->
    queryWithdrawalExecuted prov (PushChainIndexer.lastProcessedBlock w + 1)
      latestBlock = Resolved withdrawalEvents ->
    queryFeeCollected prov (PushChainIndexer.lastProcessedBlock w + 1)
      latestBlock = Resolved feeEvents ->
    Forall (fun l => log_args l <> None) paymentEvents ->
    Forall (fun l => log_args l <> None) withdrawalEvents ->
    Forall (fun l => log_args l <> None) feeEvents ->
    PushChainIndexer.processBlocks cfg prov now w db
    = ({| PushChainIndexer.isRunning := true;
          PushChainIndexer.lastProcessedBlock := latestBlock |},
       deliver_all cfg
         (push_payment_deliveries prov now paymentEvents
          ++ push_withdrawal_deliveries now withdrawalEvents
          ++ push_fee_deliveries now feeEvents) db).
Proof.
  intros cfg prov now latestBlock w db paymentEvents withdrawalEvents
         feeEvents Hrun Hheight Hbelow Hp Hw Hf Dp Dw Df.
  unfold PushChainIndexer.processBlocks, PushChainIndexer.processBlockRange.
  rewrite Hrun, Hheight; simpl negb; cbv iota.
  destruct (Z.gtb_spec latestBlock (PushChainIndexer.lastProcessedBlock w))
    as [_|Hno]; [|lia].
  rewrite Hp, Hw, Hf.
  rewrite (push_payments_loop cfg prov now paymentEvents db Dp).
  rewrite (push_withdrawals_loop cfg now withdrawalEvents _ Dw).
  rewrite (push_fees_loop cfg now feeEvents _ Df).
  rewrite !deliver_all_app; reflexivity.
Qed.

(** X15.  When a WithdrawalExecuted log of the range comes without
    decoded arguments the tick throws there: the payments of the range
    and the withdrawals before that log stay recorded, the withdrawals
    after it and all fee events are not delivered, and the cursor is not
    moved, so the next tick asks for the same range again. *)
Theorem push_tick_stops_at_undecoded_log :
  forall (cfg : PushChainConfig) (prov : Provider) (now latestBlock : Z)
         (w : PushChainIndexer.Watcher) (db : Db)
         (paymentEvents : list (Log PaymentReceivedArgs))
         (before : list (Log WithdrawalExecutedArgs))
         (bad : Log WithdrawalExecutedArgs)
         (after : list (Log WithdrawalExecutedArgs))
         (feeEvents : list (Log FeeCollectedArgs)),
    PushChainIndexer.isRunning w = true ->
    getBlockNumber prov = Resolved latestBlock ->
    PushChainIndexer.lastProcessedBlock w < latestBlock ->
    queryPaymentReceived prov (PushChainIndexer.lastProcessedBlock w + 1)
      latestBlock = Resolved paymentEvents ->
    queryWithdrawalExecuted prov (PushChainIndexer.lastProcessedBlock w + 1)
      latestBlock = Resolved (before ++ bad :: after) ->
    queryFeeCollected prov (PushChainIndexer.lastProcessedBlock w + 1)
      latestBlock = Resolved feeEvents ->
    Forall (fun l => log_args l <> None) paymentEvents ->
    Forall (fun l => log_args l <> None) before ->
    log_args bad = None ->
    PushChainIndexer.processBlocks cfg prov now w db
    = (w,
       deliver_all cfg
         (push_payment_deliveries prov now paymentEvents
          ++ push_withdrawal_deliveries now before) db).
Proof.
  intros cfg prov now latestBlock w db paymentEvents before bad after
         feeEvents Hrun Hheight Hbelow Hp Hw Hf Dp Dw Hbad.
  unfold PushChainIndexer.processBlocks, PushChainIndexer.processBlockRange.
  rewrite Hrun, Hheight; simpl negb; cbv iota.
  destruct (Z.gtb_spec latestBlock (PushChainIndexer.lastProcessedBlock w))
    as [_|Hno]; [|lia].
  rewrite Hp, Hw, Hf.
  rewrite (push_payments_loop cfg prov now paymentEvents db Dp).
  rewrite (push_withdrawals_loop_throws cfg now before bad after _ Dw Hbad).
  rewrite deliver_all_app; reflexivity.
Qed.

Lemma push_tick_delivers_by_kind_witness :
  let withdrawal_log :=
    {| log_args := Some {| we_appId := Scenario.app_id;
                           we_recipient := "0xRecipient";
                           we_amount := 5; we_currency := "USDC" |};
       log_transactionHash := "0xdef";
       log_blockNumber := 3;
       log_blockHash := "0xb3" |} in
  let fee_log :=
    {| log_args := Some {| fc_appId := Scenario.app_id;
                           fc_platformFee := 3; fc_networkFee := 4;
                           fc_currency := "USDC" |};
       log_transactionHash := "0xfee";
       log_blockNumber := 2;
       log_blockHash := "0xb2" |} in
  let prov := {| getBlockNumber := Resolved 10;
                 getTransactionReceipt := fun _ => Resolved None;
                 getTransaction := fun _ => Resolved None;
                 queryPaymentReceived :=
                   fun _ _ => Resolved [Scenario.payment_log];
                 queryWithdrawalExecuted :=
                   fun _ _ => Resolved [withdrawal_log];
                 queryFeeCollected := fun _ _ => Resolved [fee_log];
                 queryCrossChainPaymentInitiated := fun _ _ => Resolved [] |} in
  let tick :=
    PushChainIndexer.processBlocks Scenario.cfg prov 5
      {| PushChainIndexer.isRunning := true;
         PushChainIndexer.lastProcessedBlock := 0 |}
      (Scenario.store "100.00000000") in
  PushChainIndexer.lastProcessedBlock (fst tick) = 10
  /\ map tx_blockNumber (transactions (snd tick)) = [7; 3; 2]
  /\ map tx_type (transactions (snd tick))
     = [ty_payment; ty_withdrawal; ty_fee].
Proof.
  intros withdrawal_log fee_log prov tick; subst tick.
  rewrite (push_tick_delivers_by_kind Scenario.cfg prov 5 10
             {| PushChainIndexer.isRunning := true;
                PushChainIndexer.lastProcessedBlock := 0 |}
             (Scenario.store "100.00000000")
             [Scenario.payment_log] [withdrawal_log] [fee_log]
             eq_refl eq_refl eq_refl eq_refl eq_refl eq_refl).
  - vm_compute; repeat split; reflexivity.
  - repeat constructor; discriminate.
  - repeat constructor; discriminate.
  - repeat constructor; discriminate.
Defined.

Lemma push_tick_stops_at_undecoded_log_witness :
  let withdrawal_log :=
    {| log_args := Some {| we_appId := Scenario.app_id;
                           we_recipient := "0xRecipient";
                           we_amount := 5; we_currency := "USDC" |};
       log_transactionHash := "0xdef";
       log_blockNumber := 3;
       log_blockHash := "0xb3" |} in
  let undecoded : Log WithdrawalExecutedArgs :=
    {| log_args := None;
       log_transactionHash := "0xbad";
       log_blockNumber := 4;
       log_blockHash := "0xb4" |} in
  let fee_log :=
    {| log_args := Some {| fc_appId := Scenario.app_id;
                           fc_platformFee := 3; fc_networkFee := 4;
                           fc_currency := "USDC" |};
       log_transactionHash := "0xfee";
       log_blockNumber := 2;
       log_blockHash := "0xb2" |} in
  let prov := {| getBlockNumber := Resolved 10;
                 getTransactionReceipt := fun _ => Resolved None;
                 getTransaction := fun _ => Resolved None;
                 queryPaymentReceived :=
                   fun _ _ => Resolved [Scenario.payment_log];
                 queryWithdrawalExecuted :=
                   fun _ _ => Resolved [withdrawal_log; undecoded;
                                        withdrawal_log];
                 queryFeeCollected := fun _ _ => Resolved [fee_log];
                 queryCrossChainPaymentInitiated := fun _ _ => Resolved [] |} in
  let tick :=
    PushChainIndexer.processBlocks Scenario.cfg prov 5
      {| PushChainIndexer.isRunning := true;
         PushChainIndexer.lastProcessedBlock := 0 |}
      (Scenario.store "100.00000000") in
  PushChainIndexer.lastProcessedBlock (fst tick) = 0
  /\ map tx_type (transactions (snd tick)) = [ty_payment; ty_withdrawal].
Proof.
  intros withdrawal_log undecoded fee_log prov tick; subst tick.
  rewrite (push_tick_stops_at_undecoded_log Scenario.cfg prov 5 10
             {| PushChainIndexer.isRunning := true;
                PushChainIndexer.lastProcessedBlock := 0 |}
             (Scenario.store "100.00000000")
             [Scenario.payment_log] [withdrawal_log] undecoded
             [withdrawal_log] [fee_log]
             eq_refl eq_refl eq_refl eq_refl eq_refl eq_refl).
  - vm_compute; repeat split; reflexivity.
  - repeat constructor; discriminate.
  - repeat constructor; discriminate.
  - reflexivity.
Defined.

(** *** What the processors do to the store *)

Lemma filter_nil_weaken {A : Type} (f g : A -> bool) (l : list A) :
  filter f l = [] -> (forall a, g a = true -> f a = true) ->
  filter g l = [].
Proof.
  intros Hnil Hsub; induction l as [|a l IH]; simpl in *; [reflexivity|].
  destruct (f a) eqn:Hf; [discriminate|].
  destruct (g a) eqn:Hg; [rewrite (Hsub a Hg) in Hf; discriminate|].
  apply IH, Hnil.
Qed.

(** One delivery either adds no payment and only ledger rows that are not
    of type payment, or it is a first recording: one payment row and one
    ledger row of type payment under the same chain and hash, where no
    payment row of that invoice had that chain and hash (on Push Chain, no
    payment row at all had that hash). *)
Lemma deliver_rows (cfg : PushChainConfig) (d : Delivery) (db : Db) :
  (payments (deliver cfg d db) = payments db
   /\ exists ts,
        transactions (deliver cfg d db) = transactions db ++ ts
        /\ Forall (fun t => tx_type t <> ty_payment) ts)
  \/ exists p t,
       payments (deliver cfg d db) = payments db ++ [p]
       /\ transactions (deliver cfg d db) = transactions db ++ [t]
       /\ tx_type t = ty_payment
       /\ tx_chain t = pay_externalChain p
       /\ tx_txHash t = pay_txHash p
       /\ filter (fun q => String.eqb (pay_invoiceId q) (pay_invoiceId p))
                 (payment_rows (pay_externalChain p) (pay_txHash p) db) = []
       /\ match delivery_watcher d with
          | None =>
              pay_externalChain p = "push-chain"
              /\ payment_rows "push-chain" (pay_txHash p) db = []
          | Some this =>
              pay_externalChain p = EthereumIndexer.getChainName this
          end.
Proof.
  assert (Hethereum : forall this prov now tag key e,
             (payments (EthereumIndexer.record_payment this prov now tag key
                          e db) = payments db
              /\ exists ts,
                   transactions (EthereumIndexer.record_payment this prov now
                                   tag key e db) = transactions db ++ ts
                   /\ Forall (fun t => tx_type t <> ty_payment) ts)
             \/ exists p t,
                  payments (EthereumIndexer.record_payment this prov now tag
                              key e db) = payments db ++ [p]
                  /\ transactions (EthereumIndexer.record_payment this prov
                                     now tag key e db)
                     = transactions db ++ [t]
                  /\ tx_type t = ty_payment
                  /\ tx_chain t = pay_externalChain p
                  /\ tx_txHash t = pay_txHash p
                  /\ filter (fun q => String.eqb (pay_invoiceId q)
                                        (pay_invoiceId p))
                            (payment_rows (pay_externalChain p)
                               (pay_txHash p) db) = []
                  /\ pay_externalChain p = EthereumIndexer.getChainName this).
  { intros this prov now tag key e; unfold EthereumIndexer.record_payment.
    destruct (EthereumIndexer.fill_gas prov e) as [e'|];
      [|left; split; [reflexivity|]; exists []; rewrite app_nil_r;
        split; [reflexivity | constructor]].
    destruct (find_invoice _ db) as [invoice|];
      [|left; split; [reflexivity|]; exists []; rewrite app_nil_r;
        split; [reflexivity | constructor]].
    destruct (find _ (payments db)) eqn:Hfind;
      [left; split; [reflexivity|]; exists []; rewrite app_nil_r;
       split; [reflexivity | constructor]|].
    right; eexists; eexists; repeat split; try reflexivity.
    cbn [pay_invoiceId pay_externalChain pay_txHash
         EthereumIndexer.payment_row].
    apply find_none_iff_filter_nil in Hfind.
    unfold payment_rows; rewrite filter_filter.
    apply (filter_nil_weaken _ _ _ Hfind); intros q Hq.
    unfold payment_keyed in Hq.
    apply andb_true_iff in Hq as [Hkey Hid].
    apply andb_true_iff in Hkey as [_ Hhash].
    rewrite Hid, Hhash; reflexivity. }
  destruct d as [prov now e|now e|now e|this prov now e|this prov now e];
    cbn [deliver delivery_watcher].
  - destruct (push_payment_effect cfg prov now e db)
      as [Hsame|(e' & invoice & Hgas & Hrows & Hinv & Hpay & Htx & _)].
    + left; rewrite Hsame; split; [reflexivity|].
      exists []; rewrite app_nil_r; split; [reflexivity | constructor].
    + destruct (push_fill_gas_keeps prov e e' Hgas) as (_ & Hhash & _).
      right; exists (PushChainIndexer.payment_row now e'),
               (PushChainIndexer.payment_transaction_row cfg now invoice e').
      cbn [pay_invoiceId pay_externalChain pay_txHash
           PushChainIndexer.payment_row].
      rewrite Hhash, Hrows.
      repeat split; try assumption; reflexivity.
  - left; split; [reflexivity|].
    exists [PushChainIndexer.withdrawal_row cfg now e];
      split; [reflexivity|].
    repeat constructor; discriminate.
  - left; split; [reflexivity|].
    exists [PushChainIndexer.fee_row now e]; split; [reflexivity|].
    repeat constructor; discriminate.
  - apply Hethereum.
  - apply Hethereum.
Qed.

Lemma deliver_all_related (cfg : PushChainConfig) (ok : Delivery -> Prop)
  (R : Db -> Db -> Prop) :
  (forall db, R db db) ->
  (forall a b c, R a b -> R b c -> R a c) ->
  (forall d db, ok d -> R db (deliver cfg d db)) ->
  forall (ds : list Delivery) (db : Db),
    Forall ok ds -> R db (deliver_all cfg ds db).
Proof.
  intros Hrefl Htrans Hstep ds db Hall; revert db.
  induction Hall as [|d ds Hd _ IH]; intros db; [apply Hrefl|].
  unfold deliver_all in *; simpl.
  eapply Htrans; [apply Hstep, Hd | apply IH].
Qed.

(** *** The store of the running system *)

Lemma for_each_some_deliveries {A : Type} (cfg : PushChainConfig)
  (step : A -> Db -> PushChainIndexer.Outcome) (one : A -> option Delivery)
  (ok : Delivery -> Prop) :
  (forall l db,
      step l db = match one l with
                  | Some d => PushChainIndexer.Completed (deliver cfg d db)
                  | None => PushChainIndexer.Threw db
                  end) ->
  (forall l d, one l = Some d -> ok d) ->
  forall (logs : list A) (db : Db),
    exists ds,
      PushChainIndexer.outcome_db (PushChainIndexer.for_each step logs db)
      = deliver_all cfg ds db
      /\ Forall ok ds.
Proof.
  intros Hstep Hok; induction logs as [|l logs IH]; intros db; simpl.
  - exists []; split; [reflexivity | constructor].
  - rewrite Hstep; destruct (one l) as [d|] eqn:Hone.
    + destruct (IH (deliver cfg d db)) as (ds & Hds & Hall).
      exists (d :: ds); split; [exact Hds|].
      constructor; [apply (Hok l), Hone | exact Hall].
    + exists []; split; [reflexivity | constructor].
Qed.

Lemma push_tick_store (cfg : PushChainConfig) (prov : Provider) (now : Z)
  (w : PushChainIndexer.Watcher) (db : Db) :
  exists ds,
    snd (PushChainIndexer.processBlocks cfg prov now w db)
    = deliver_all cfg ds db
    /\ Forall (fun d => delivery_watcher d = None) ds.
Proof.
  assert (Hnone : exists ds,
             db = deliver_all cfg ds db
             /\ Forall (fun d => delivery_watcher d = None) ds)
    by (exists []; split; [reflexivity | constructor]).
  unfold PushChainIndexer.processBlocks.
  destruct (negb _); [exact Hnone|].
  destruct (getBlockNumber prov) as [latestBlock|]; [|exact Hnone].
  destruct (latestBlock >? _); [|exact Hnone].
  assert (Hrange : exists ds,
             PushChainIndexer.outcome_db
               (PushChainIndexer.processBlockRange cfg prov now
                  (PushChainIndexer.lastProcessedBlock w + 1) latestBlock db)
             = deliver_all cfg ds db
             /\ Forall (fun d => delivery_watcher d = None) ds).
  { unfold PushChainIndexer.processBlockRange.
    destruct (queryPaymentReceived prov _ _) as [ps|]; [|exact Hnone].
    destruct (queryWithdrawalExecuted prov _ _) as [ws|]; [|exact Hnone].
    destruct (queryFeeCollected prov _ _) as [fs|]; [|exact Hnone].
    destruct (for_each_some_deliveries cfg
                (PushChainIndexer.processPaymentEventFromLog cfg prov now)
                (fun l => option_map
                            (fun a =>
                               PushPayment prov now
                                 (PushChainIndexer.paymentEvent_of_log l a))
                            (log_args l))
                (fun d => delivery_watcher d = None)) with (logs := ps)
                                                           (db := db)
      as (ds1 & H1 & A1).
    { intros l db0; unfold PushChainIndexer.processPaymentEventFromLog.
      destruct (log_args l); reflexivity. }
    { intros l d; destruct (log_args l); simpl; intros H; inversion H;
        reflexivity. }
    destruct (PushChainIndexer.for_each
                (PushChainIndexer.processPaymentEventFromLog cfg prov now)
                ps db) as [db1|db1]; simpl in H1;
      [|exists ds1; split; assumption].
    destruct (for_each_some_deliveries cfg
                (PushChainIndexer.processWithdrawalEventFromLog cfg now)
                (fun l => option_map
                            (fun a =>
                               PushWithdrawal now
                                 (PushChainIndexer.withdrawalEvent_of_log
                                    l a))
                            (log_args l))
                (fun d => delivery_watcher d = None)) with (logs := ws)
                                                           (db := db1)
      as (ds2 & H2 & A2).
    { intros l db0; unfold PushChainIndexer.processWithdrawalEventFromLog.
      destruct (log_args l); reflexivity. }
    { intros l d; destruct (log_args l); simpl; intros H; inversion H;
        reflexivity. }
    destruct (PushChainIndexer.for_each
                (PushChainIndexer.processWithdrawalEventFromLog cfg now)
                ws db1) as [db2|db2]; simpl in H2.
    2:{ exists (ds1 ++ ds2); rewrite deliver_all_app, <- H1; split;
          [exact H2 | apply Forall_app; split; assumption]. }
    destruct (for_each_some_deliveries cfg
                (PushChainIndexer.processFeeEventFromLog now)
                (fun l => option_map
                            (fun a =>
                               PushFee now
                                 (PushChainIndexer.feeEvent_of_log l a))
                            (log_args l))
                (fun d => delivery_watcher d = None)) with (logs := fs)
                                                           (db := db2)
      as (ds3 & H3 & A3).
    { intros l db0; unfold PushChainIndexer.processFeeEventFromLog.
      destruct (log_args l); reflexivity. }
    { intros l d; destruct (log_args l); simpl; intros H; inversion H;
        reflexivity. }
    exists (ds1 ++ ds2 ++ ds3).
    rewrite !deliver_all_app, <- H1, <- H2; split; [exact H3|].
    repeat (apply Forall_app; split); assumption. }
  destruct Hrange as (ds & Hds & Hall).
  destruct (PushChainIndexer.processBlockRange _ _ _ _ _ _); simpl in *;
    exists ds; split; assumption.
Qed.

Lemma ethereum_tick_store (cfg : PushChainConfig) (prov : Provider)
  (now : Z) (w : EthereumIndexer.Watcher) (db : Db) :
  exists ds,
    snd (EthereumIndexer.processBlocks prov now w db) = deliver_all cfg ds db
    /\ Forall (fun d => delivery_watcher d
                        = Some (EthereumIndexer.this_chainId w)) ds.
Proof.
  assert (Hnone : exists ds,
             db = deliver_all cfg ds db
             /\ Forall (fun d => delivery_watcher d
                                 = Some (EthereumIndexer.this_chainId w)) ds)
    by (exists []; split; [reflexivity | constructor]).
  unfold EthereumIndexer.processBlocks.
  destruct (negb _); [exact Hnone|].
  destruct (getBlockNumber prov) as [latestBlock|]; [|exact Hnone].
  destruct (latestBlock >? _); [|exact Hnone].
  cbv zeta; cbn [snd]; rewrite batches_windows.
  generalize (EthereumIndexer.batch_windows
                (Z.to_nat (latestBlock - EthereumIndexer.lastProcessedBlock w))
                (EthereumIndexer.lastProcessedBlock w + 1) latestBlock).
  intros windows; clear Hnone; revert db.
  induction windows as [|[a b] windows IH]; intros db; simpl.
  - exists []; split; [reflexivity | constructor].
  - destruct (IH (EthereumIndexer.processBlockRange
                    (EthereumIndexer.this_chainId w) prov now a b db))
      as (ds & Hds & Hall).
    rewrite Hds, (ethereum_range_deliveries cfg); cbn [fst snd].
    destruct (queryCrossChainPaymentInitiated prov a b) as [cs|];
      [|exists ds; split; [reflexivity | assumption]].
    destruct (queryPaymentReceived prov a b) as [ps|];
      [|exists ds; split; [reflexivity | assumption]].
    eexists; rewrite <- deliver_all_app; split; [reflexivity|].
    repeat (apply Forall_app; split); [| |exact Hall].
    + unfold ethereum_cross_chain_deliveries.
      apply Forall_forall; intros d Hin.
      apply in_flat_map in Hin as (l & _ & Hin).
      destruct (log_args l); simpl in Hin; [|contradiction].
      destruct Hin as [<-|[]]; reflexivity.
    + unfold ethereum_direct_deliveries.
      apply Forall_forall; intros d Hin.
      apply in_flat_map in Hin as (l & _ & Hin).
      destruct (log_args l); simpl in Hin; [|contradiction].
      destruct Hin as [<-|[]]; reflexivity.
Qed.

(** Whatever happens to a system whose watchers are well keyed, its store
    changes by deliveries to the processors only, none of them from an
    Ethereum watcher constructed for chain 42101. *)
Lemma run_store (cfg : PushChainConfig) (activities : list Activity) :
  forall s : System,
    well_keyed (manager s) ->
    exists ds,
      store (run cfg activities s) = deliver_all cfg ds (store s)
      /\ Forall (fun d => delivery_watcher d <> Some 42101) ds.
Proof.
  induction activities as [|a activities IH]; intros s Hkeyed.
  - exists []; split; [reflexivity | constructor].
  - assert (Hstep : exists ds,
               store (step cfg a s) = deliver_all cfg ds (store s)
               /\ Forall (fun d => delivery_watcher d <> Some 42101) ds).
    { destruct a as [c|prov now|chain prov now|d]; simpl.
      - exists []; split; [reflexivity | constructor].
      - destruct (push_tick_store cfg prov now
                    (IndexerManager.pushChainIndexer (manager s)) (store s))
          as (ds & Hds & Hall).
        destruct (PushChainIndexer.processBlocks _ _ _ _ _); simpl in *.
        exists ds; split; [exact Hds|].
        eapply Forall_impl; [|exact Hall]; intros d0 Hd; cbv beta in Hd.
        rewrite Hd; discriminate.
      - destruct (IndexerManager.get chain _) as [indexer|] eqn:Hget;
          [|exists []; split; [reflexivity | constructor]].
        destruct (ethereum_tick_store cfg prov now indexer (store s))
          as (ds & Hds & Hall).
        destruct (EthereumIndexer.processBlocks _ _ indexer _); simpl in *.
        exists ds; split; [exact Hds|].
        destruct (well_keyed_entry (manager s) chain indexer Hkeyed
                    (get_is_entry _ _ _ Hget)) as (Hid & Hne & _).
        eapply Forall_impl; [|exact Hall]; intros d0 Hd; cbv beta in Hd.
        rewrite Hd, Hid; congruence.
      - destruct (listening (manager s) d) eqn:Hlisten;
          [|exists []; split; [reflexivity | constructor]].
        exists [d]; split; [reflexivity|].
        repeat constructor.
        unfold listening in Hlisten.
        destruct (delivery_watcher d) as [this|]; [|discriminate].
        destruct (IndexerManager.get this _) as [w|] eqn:Hget;
          [|discriminate].
        destruct (well_keyed_entry (manager s) this w Hkeyed
                    (get_is_entry _ _ _ Hget)) as (_ & Hne & _).
        congruence. }
    destruct Hstep as (ds1 & H1 & A1).
    destruct (IH (step cfg a s)) as (ds2 & H2 & A2).
    { unfold well_keyed; rewrite step_keeps_watchers; exact Hkeyed. }
    exists (ds1 ++ ds2); split.
    + change (run cfg (a :: activities) s)
        with (run cfg activities (step cfg a s)).
      rewrite H2, H1, deliver_all_app; reflexivity.
    + apply Forall_app; split; assumption.
Qed.

Lemma set_paid_twice (now now' : Z) (i : Invoice) :
  set_paid now' (set_paid now i) = set_paid now' i.
Proof. reflexivity. Qed.

Lemma invoices_marked_refl (l : list Invoice) :
  Forall2 (fun i i' => i' = i \/ exists now, i' = set_paid now i) l l.
Proof. induction l; constructor; auto. Qed.

Lemma invoices_marked_trans (l1 l2 l3 : list Invoice) :
  Forall2 (fun i i' => i' = i \/ exists now, i' = set_paid now i) l1 l2 ->
  Forall2 (fun i i' => i' = i \/ exists now, i' = set_paid now i) l2 l3 ->
  Forall2 (fun i i' => i' = i \/ exists now, i' = set_paid now i) l1 l3.
Proof.
  intros H12; revert l3; induction H12 as [|a b l1 l2 Hab _ IH];
    intros l3 H23; inversion H23 as [|b' c l2' l3' Hbc Hrest]; subst;
    constructor; [|apply IH, Hrest].
  destruct Hbc as [->|[now' ->]]; [exact Hab|].
  destruct Hab as [->|[now ->]]; right; exists now'; reflexivity.
Qed.

Lemma deliver_appends (cfg : PushChainConfig) (d : Delivery) (db : Db) :
  (exists ps, payments (deliver cfg d db) = payments db ++ ps)
  /\ (exists ts, transactions (deliver cfg d db) = transactions db ++ ts)
  /\ Forall2 (fun i i' => i' = i \/ exists now, i' = set_paid now i)
             (invoices db) (invoices (deliver cfg d db)).
Proof.
  split; [|split].
  - destruct (deliver_rows cfg d db) as [[Hp _]|(p & t & Hp & _)].
    + exists []; rewrite app_nil_r; exact Hp.
    + exists [p]; exact Hp.
  - destruct (deliver_rows cfg d db)
      as [[_ (ts & Ht & _)]|(p & t & _ & Ht & _)].
    + exists ts; exact Ht.
    + exists [t]; exact Ht.
  - destruct (deliver_invoices cfg d db)
      as [Hsame|(prov & now & e & e' & invoice & _ & _ & _ & _ & _ & Hinv)].
    + rewrite Hsame; apply invoices_marked_refl.
    + rewrite Hinv; unfold update_invoice_paid; simpl.
      induction (invoices db) as [|i l IH]; simpl; constructor; [|exact IH].
      destruct (String.eqb (inv_id i) _); [right; exists now|left];
        reflexivity.
Qed.

(** X16.  The indexers only ever append to the payments and to the
    ledger, and never add or remove an invoice: whatever happens to a
    booted system, the payment rows and the ledger rows it found are
    still there, unchanged and in front of the new ones, and each invoice
    is as it was or differs only in having been marked paid (status,
    paidAt, updatedAt), with its id, application, amount and currency
    untouched. *)
Theorem store_is_append_only :
  forall (cfg : PushChainConfig) (activities : list Activity)
         (env : IndexerManager.Env) (db : Db),
    let db' := store (run cfg activities (boot env db)) in
    (exists ps, payments db' = payments db ++ ps)
    /\ (exists ts, transactions db' = transactions db ++ ts)
    /\ Forall2 (fun i i' => i' = i \/ exists now, i' = set_paid now i)
               (invoices db) (invoices db').
Proof.
  intros cfg activities env db db'.
  destruct (run_store cfg activities (boot env db) (create_well_keyed env))
    as (ds & Hds & Hall).
  subst db'; rewrite Hds; simpl store.
  apply (deliver_all_related cfg (fun _ => True)
           (fun a b =>
              (exists ps, payments b = payments a ++ ps)
              /\ (exists ts, transactions b = transactions a ++ ts)
              /\ Forall2 (fun i i' => i' = i
                                      \/ exists now, i' = set_paid now i)
                         (invoices a) (invoices b))).
  - intros a; split; [|split].
    + exists []; rewrite app_nil_r; reflexivity.
    + exists []; rewrite app_nil_r; reflexivity.
    + apply invoices_marked_refl.
  - intros a b c ([ps Hp] & [ts Ht] & Hi) ([ps' Hp'] & [ts' Ht'] & Hi').
    split; [|split].
    + exists (ps ++ ps'); rewrite Hp', Hp, app_assoc; reflexivity.
    + exists (ts ++ ts'); rewrite Ht', Ht, app_assoc; reflexivity.
    + eapply invoices_marked_trans; eassumption.
  - intros d a _; apply deliver_appends.
  - apply Forall_forall; intros; exact I.
Qed.

Lemma deliver_pairs (cfg : PushChainConfig) (d : Delivery) (db : Db)
  (chain h : string) :
  (List.length (payment_rows chain h (deliver cfg d db))
   + List.length (transaction_rows chain h ty_payment db)
   = List.length (payment_rows chain h db)
     + List.length (transaction_rows chain h ty_payment (deliver cfg d db)))%nat.
Proof.
  unfold payment_rows, transaction_rows.
  destruct (deliver_rows cfg d db)
    as [[Hp (ts & Ht & Hty)]|(p & t & Hp & Ht & Hty & Hchain & Hhash & _)];
    rewrite Hp, Ht, !filter_app, !List.length_app.
  - rewrite (filter_none (transaction_keyed chain h ty_payment) ts);
      [simpl; lia|].
    intros t Hin; rewrite Forall_forall in Hty.
    specialize (Hty t Hin); unfold transaction_keyed.
    destruct (tx_type t); try (rewrite andb_false_r; reflexivity).
    contradiction Hty; reflexivity.
  - assert (Hkey : transaction_keyed chain h ty_payment t
                   = payment_keyed chain h p).
    { unfold transaction_keyed, payment_keyed.
      rewrite Hty, Hchain, Hhash; simpl; apply andb_true_r. }
    simpl; rewrite Hkey; destruct (payment_keyed chain h p); simpl; lia.
Qed.

(** X17.  Payments and ledger stay paired: whatever happens to a booted
    system, for every chain and transaction hash as many payment rows as
    ledger rows of type payment have been added under that chain and
    hash, so a store that had one ledger row for each payment row still
    has. *)
Theorem payments_and_ledger_stay_paired :
  forall (cfg : PushChainConfig) (activities : list Activity)
         (env : IndexerManager.Env) (db : Db) (chain h : string),
    let db' := store (run cfg activities (boot env db)) in
    (List.length (payment_rows chain h db')
     + List.length (transaction_rows chain h ty_payment db)
     = List.length (payment_rows chain h db)
       + List.length (transaction_rows chain h ty_payment db'))%nat.
Proof.
  intros cfg activities env db chain h db'.
  destruct (run_store cfg activities (boot env db) (create_well_keyed env))
    as (ds & Hds & Hall).
  subst db'; rewrite Hds; simpl store.
  apply (deliver_all_related cfg (fun _ => True)
           (fun a b =>
              (List.length (payment_rows chain h b)
               + List.length (transaction_rows chain h ty_payment a)
               = List.length (payment_rows chain h a)
                 + List.length (transaction_rows chain h ty_payment b))%nat)).
  - intros a; lia.
  - intros a b c Hab Hbc; lia.
  - intros d a _; apply deliver_pairs.
  - apply Forall_forall; intros; exact I.
Qed.

Lemma payment_keyed_eq (chain h : string) (p : Payment) :
  payment_keyed chain h p = true ->
  pay_externalChain p = chain /\ pay_txHash p = h.
Proof.
  unfold payment_keyed; intros H.
  apply andb_true_iff in H as [Hc Hh].
  apply String.eqb_eq in Hc, Hh; auto.
Qed.

Lemma deliver_keeps_rows_unique (cfg : PushChainConfig) (d : Delivery)
  (db : Db) :
  delivery_watcher d <> Some 42101 ->
  ((forall h, (List.length (payment_rows "push-chain" h db) <= 1)%nat) ->
   forall h,
     (List.length (payment_rows "push-chain" h (deliver cfg d db)) <= 1)%nat)
  /\ ((forall chain id h,
          (List.length
             (filter (fun q => String.eqb (pay_invoiceId q) id)
                     (payment_rows chain h db)) <= 1)%nat) ->
      forall chain id h,
        (List.length
           (filter (fun q => String.eqb (pay_invoiceId q) id)
                   (payment_rows chain h (deliver cfg d db))) <= 1)%nat).
Proof.
  intros Hwatcher.
  destruct (deliver_rows cfg d db)
    as [[Hp _]|(p & t & Hp & _ & _ & _ & _ & Hnew & Hfrom)].
  - unfold payment_rows; rewrite Hp; split; auto.
  - split.
    + intros Hone h; specialize (Hone h).
      unfold payment_rows in *; rewrite Hp, filter_app, List.length_app.
      simpl; destruct (payment_keyed "push-chain" h p) eqn:Hkey;
        [|simpl; lia].
      apply payment_keyed_eq in Hkey as [Hchain Hhash].
      destruct (delivery_watcher d) as [this|].
      * exfalso; apply Hwatcher; f_equal.
        apply chain_name_push; congruence.
      * destruct Hfrom as [_ Hnone]; rewrite Hhash in Hnone.
        rewrite Hnone; simpl; lia.
    + intros Hone chain id h; specialize (Hone chain id h).
      unfold payment_rows in *.
      rewrite Hp, !filter_app, List.length_app.
      change (filter (payment_keyed chain h) [p])
        with (if payment_keyed chain h p then [p] else []).
      destruct (payment_keyed chain h p) eqn:Hkey; [|simpl; lia].
      change (filter (fun q => String.eqb (pay_invoiceId q) id) [p])
        with (if String.eqb (pay_invoiceId p) id then [p] else []).
      destruct (String.eqb (pay_invoiceId p) id) eqn:Hid;
        [|simpl; lia].
      apply payment_keyed_eq in Hkey as [<- <-].
      apply String.eqb_eq in Hid; subst id.
      rewrite Hnew; simpl; lia.
Qed.

(** X18.  Payment rows stay unique: whatever happens to a booted system,
    if the store had at most one payment row for each Push Chain
    transaction hash it still has, and if it had at most one payment row
    for each invoice, chain and hash it still has.  On Push Chain the key
    is the hash alone: once a row has a hash, a PaymentReceived event
    with that hash changes nothing, whichever invoice it names. *)
Theorem payment_rows_stay_unique :
  forall (cfg : PushChainConfig) (activities : list Activity)
         (env : IndexerManager.Env) (db : Db),
    let db' := store (run cfg activities (boot env db)) in
    ((forall h, (List.length (payment_rows "push-chain" h db) <= 1)%nat) ->
     forall h, (List.length (payment_rows "push-chain" h db') <= 1)%nat)
    /\ ((forall chain id h,
            (List.length
               (filter (fun q => String.eqb (pay_invoiceId q) id)
                       (payment_rows chain h db)) <= 1)%nat) ->
        forall chain id h,
          (List.length
             (filter (fun q => String.eqb (pay_invoiceId q) id)
                     (payment_rows chain h db')) <= 1)%nat)
    /\ (forall (prov : Provider) (now : Z)
               (event : PushChainIndexer.PaymentEvent),
           payment_rows "push-chain" (PushChainIndexer.txHash event) db'
           <> [] ->
           PushChainIndexer.processPaymentEvent cfg prov now event db' = db').
Proof.
  intros cfg activities env db db'.
  destruct (run_store cfg activities (boot env db) (create_well_keyed env))
    as (ds & Hds & Hall).
  subst db'; rewrite Hds; simpl store.
  assert (Hunique :
            ((forall h,
                 (List.length (payment_rows "push-chain" h db) <= 1)%nat) ->
             forall h,
               (List.length
                  (payment_rows "push-chain" h (deliver_all cfg ds db))
                <= 1)%nat)
            /\ ((forall chain id h,
                    (List.length
                       (filter (fun q => String.eqb (pay_invoiceId q) id)
                               (payment_rows chain h db)) <= 1)%nat) ->
                forall chain id h,
                  (List.length
                     (filter (fun q => String.eqb (pay_invoiceId q) id)
                             (payment_rows chain h (deliver_all cfg ds db)))
                   <= 1)%nat)).
  { apply (deliver_all_related cfg
             (fun d => delivery_watcher d <> Some 42101)
             (fun a b =>
                ((forall h,
                     (List.length (payment_rows "push-chain" h a) <= 1)%nat)
                 -> forall h,
                     (List.length (payment_rows "push-chain" h b) <= 1)%nat)
                /\ ((forall chain id h,
                        (List.length
                           (filter (fun q => String.eqb (pay_invoiceId q) id)
                                   (payment_rows chain h a)) <= 1)%nat) ->
                    forall chain id h,
                      (List.length
                         (filter (fun q => String.eqb (pay_invoiceId q) id)
                                 (payment_rows chain h b)) <= 1)%nat)));
      [tauto | tauto | | exact Hall].
    intros d a Hd; apply deliver_keeps_rows_unique, Hd. }
  destruct Hunique as [Hpush Hall3]; split; [exact Hpush|];
    split; [exact Hall3|].
  intros prov now event Hseen; apply push_replay, Hseen.
Qed.

Lemma payment_rows_stay_unique_witness :
  let db' :=
    store
      (run Scenario.cfg
         [Manage (IndexerManager.StartAll (Scenario.network Scenario.quiet));
          Pushed (PushPayment Scenario.quiet 1
                    (Scenario.push_payment "0xabc" "100"));
          Pushed (PushPayment Scenario.quiet 2
                    (Scenario.push_payment "0xabc" "100"))]
         (boot Scenario.env (Scenario.store "100.00000000"))) in
  List.length (payments db') = 1%nat
  /\ forall h, (List.length (payment_rows "push-chain" h db') <= 1)%nat.
Proof.
  split; [reflexivity|].
  apply (proj1 (payment_rows_stay_unique Scenario.cfg
                  [Manage (IndexerManager.StartAll
                             (Scenario.network Scenario.quiet));
                   Pushed (PushPayment Scenario.quiet 1
                             (Scenario.push_payment "0xabc" "100"));
                   Pushed (PushPayment Scenario.quiet 2
                             (Scenario.push_payment "0xabc" "100"))]
                  Scenario.env (Scenario.store "100.00000000"))).
  intros h; simpl; lia.
Defined.

(** *** Ethereum payments and the invoices *)

Lemma ethereum_deliveries_keep_invoices (cfg : PushChainConfig)
  (ds : list Delivery) (db : Db) :
  Forall (fun d => delivery_watcher d <> None) ds ->
  invoices (deliver_all cfg ds db) = invoices db.
Proof.
  intros Hall.
  apply (deliver_all_related cfg (fun d => delivery_watcher d <> None)
           (fun a b => invoices b = invoices a)); [| | |exact Hall].
  - reflexivity.
  - intros a b c Hab Hbc; congruence.
  - intros d a Hd.
    destruct d as [prov now e|now e|now e|this prov now e|this prov now e];
      simpl in *; try congruence; apply record_payment_keeps_invoices.
Qed.

(** X19.  Nothing an Ethereum watcher does changes an invoice: over any
    run of calls on the manager, backfill ticks of Ethereum watchers and
    logs pushed to their listeners, every invoice keeps its status,
    however much was paid on those chains. *)
Theorem ethereum_payments_never_mark_paid :
  forall (cfg : PushChainConfig) (activities : list Activity) (s : System),
    Forall (fun a => match a with
                     | PushTick _ _ => False
                     | Pushed d => delivery_watcher d <> None
                     | _ => True
                     end) activities ->
    invoices (store (run cfg activities s)) = invoices (store s).
Proof.
  intros cfg activities s Hacts; revert s.
  induction Hacts as [|a activities Ha _ IH]; intros s; [reflexivity|].
  change (run cfg (a :: activities) s)
    with (run cfg activities (step cfg a s)).
  rewrite IH.
  destruct a as [c|prov now|chain prov now|d]; simpl.
  - reflexivity.
  - contradiction.
  - destruct (IndexerManager.get chain _) as [indexer|]; [|reflexivity].
    destruct (ethereum_tick_store cfg prov now indexer (store s))
      as (ds & Hds & Hall).
    destruct (EthereumIndexer.processBlocks _ _ indexer _); simpl in *.
    rewrite Hds; apply ethereum_deliveries_keep_invoices.
    eapply Forall_impl; [|exact Hall]; intros d0 Hd; cbv beta in Hd.
    rewrite Hd; discriminate.
  - destruct (listening (manager s) d); [|reflexivity]; simpl.
    apply (ethereum_deliveries_keep_invoices cfg [d]).
    repeat constructor; exact Ha.
Qed.

Lemma ethereum_payments_never_mark_paid_witness :
  let s :=
    run Scenario.cfg
      [Manage (IndexerManager.StartAll (Scenario.network Scenario.quiet));
       Pushed (EthereumDirect 1 Scenario.quiet 4
                 (Scenario.ethereum_event 1 "0xabc" "250"))]
      (boot Scenario.env (Scenario.store "100.00000000")) in
  map pay_amount (payments (store s)) = ["250"]
  /\ invoices (store s) = [Scenario.invoice "100.00000000"].
Proof.
  split; [reflexivity|].
  apply (ethereum_payments_never_mark_paid Scenario.cfg
           [Manage (IndexerManager.StartAll
                      (Scenario.network Scenario.quiet));
            Pushed (EthereumDirect 1 Scenario.quiet 4
                      (Scenario.ethereum_event 1 "0xabc" "250"))]
           (boot Scenario.env (Scenario.store "100.00000000"))).
  repeat constructor; discriminate.
Defined.

(** *** Gas *)

(** X20.  A newly recorded payment carries the gas of its transaction:
    gasUsed of the receipt, and gasUsed * gasPrice as the fee, both as
    decimal strings.  The Push Chain ledger row repeats the fee; the
    Ethereum ledger row has none.  When the transaction comes without a
    gas price the Push Chain processor drops the event (the product
    throws inside its try), while the Ethereum processors record it with
    the fee the event came with. *)
Theorem recorded_payment_carries_gas :
  (forall (cfg : PushChainConfig) (prov : Provider) (now : Z)
          (event : PushChainIndexer.PaymentEvent) (db : Db)
          (invoice : Invoice) (receipt : Receipt)
          (tx : TransactionResponse),
      getTransactionReceipt prov (PushChainIndexer.txHash event)
      = Resolved (Some receipt) ->
      getTransaction prov (PushChainIndexer.txHash event)
      = Resolved (Some tx) ->
      payment_rows "push-chain" (PushChainIndexer.txHash event) db = [] ->
      find_invoice (PushChainIndexer.invoiceId event) db = Some invoice ->
      let db' := PushChainIndexer.processPaymentEvent cfg prov now event db in
      match response_gasPrice tx with
      | Some price =>
          exists p t,
            payments db' = payments db ++ [p]
            /\ transactions db' = transactions db ++ [t]
            /\ pay_gasUsed p = bigint_toString (receipt_gasUsed receipt)
            /\ pay_gasFee p
               = bigint_toString (receipt_gasUsed receipt * price)
            /\ tx_fee t = Some (pay_gasFee p)
      | None => db' = db
      end)
  /\ (forall (this : Z) (prov : Provider) (now : Z) (tag key : string)
             (event : EthereumIndexer.CrossChainPaymentEvent) (db : Db)
             (invoice : Invoice) (receipt : Receipt)
             (tx : TransactionResponse),
         getTransactionReceipt prov (EthereumIndexer.txHash event)
         = Resolved (Some receipt) ->
         getTransaction prov (EthereumIndexer.txHash event)
         = Resolved (Some tx) ->
         payments_with_hash (EthereumIndexer.txHash event) db = [] ->
         find_invoice (EthereumIndexer.invoiceId event) db = Some invoice ->
         let db' :=
           EthereumIndexer.record_payment this prov now tag key event db in
         exists p t,
           payments db' = payments db ++ [p]
           /\ transactions db' = transactions db ++ [t]
           /\ pay_gasUsed p = bigint_toString (receipt_gasUsed receipt)
           /\ pay_gasFee p
              = match response_gasPrice tx with
                | Some price =>
                    if price =? 0 then EthereumIndexer.gasFee event
                    else bigint_toString (receipt_gasUsed receipt * price)
                | None => EthereumIndexer.gasFee event
                end
           /\ tx_fee t = None).
Proof.
  split.
  - intros cfg prov now event db invoice receipt tx Hreceipt Htx Hrows Hinv
           db'; subst db'.
    apply push_lookup_is_keyed in Hrows.
    unfold PushChainIndexer.processPaymentEvent, PushChainIndexer.fill_gas.
    rewrite Hreceipt, Htx.
    destruct (response_gasPrice tx) as [price|]; [|reflexivity].
    cbn [PushChainIndexer.set_gas PushChainIndexer.txHash
         PushChainIndexer.invoiceId PushChainIndexer.gasUsed
         PushChainIndexer.amount].
    rewrite Hrows, Hinv.
    eexists; eexists; split; [|split; [|split; [|split]]];
      [destruct (PushChainIndexer.amount_covers _ _); reflexivity
      |destruct (PushChainIndexer.amount_covers _ _); reflexivity
      |reflexivity | reflexivity | reflexivity].
  - intros this prov now tag key event db invoice receipt tx Hreceipt Htx
           Hrows Hinv db'; subst db'.
    pose proof (ethereum_lookup_unseen (EthereumIndexer.invoiceId event)
                  _ db Hrows) as Hfind.
    unfold EthereumIndexer.record_payment, EthereumIndexer.fill_gas.
    rewrite Hreceipt, Htx.
    destruct (response_gasPrice tx) as [price|];
      [destruct (price =? 0)|];
      cbn [EthereumIndexer.set_gas EthereumIndexer.txHash
           EthereumIndexer.invoiceId EthereumIndexer.gasUsed
           EthereumIndexer.gasFee];
      rewrite Hinv, Hfind; eexists; eexists; repeat split; reflexivity.
Qed.

Lemma recorded_payment_carries_gas_witness :
  let prov := {| getBlockNumber := Resolved 10;
                 getTransactionReceipt :=
                   fun _ => Resolved (Some {| receipt_gasUsed := 21000 |});
                 getTransaction :=
                   fun _ => Resolved
                              (Some {| response_gasPrice := Some 3 |});
                 queryPaymentReceived := fun _ _ => Resolved [];
                 queryWithdrawalExecuted := fun _ _ => Resolved [];
                 queryFeeCollected := fun _ _ => Resolved [];
                 queryCrossChainPaymentInitiated := fun _ _ => Resolved [] |} in
  let db' :=
    PushChainIndexer.processPaymentEvent Scenario.cfg prov 1
      (Scenario.push_payment "0xabc" "100") (Scenario.store "100.00000000") in
  exists p t,
    payments db' = [p]
    /\ transactions db' = [t]
    /\ pay_gasUsed p = "21000"
    /\ pay_gasFee p = "63000"
    /\ tx_fee t = Some "63000".
Proof.
  intros prov db'.
  destruct (proj1 recorded_payment_carries_gas Scenario.cfg prov 1
              (Scenario.push_payment "0xabc" "100")
              (Scenario.store "100.00000000")
              (Scenario.invoice "100.00000000")
              {| receipt_gasUsed := 21000 |}
              {| response_gasPrice := Some 3 |}
              eq_refl eq_refl eq_refl eq_refl)
    as (p & t & Hp & Ht & Hused & Hfee & Hledger).
  exists p, t; subst db'.
  rewrite Hp, Ht, Hledger, Hused, Hfee; repeat split; reflexivity.
Defined.
